(** * tcping: resolver, prober, aggregator and probing loop

    A shallow embedding of the three variants of the program:
    - [src/unnamed/part_001]: resolver and prober (its loop prints each
      outcome and keeps no aggregate; it is not embedded);
    - [src/unnamed/part_000]: adds the [Summary] aggregate; [Ping.Do] is a
      single-threaded loop;
    - [src/main.go]: the aggregate is updated by [Summary.Result] under a
      mutex; probes run inside [Ping.Do] when an interval is set, and as
      goroutines joined by a wait group otherwise.

    Conventions.  Go's [int] and [time.Duration] are 64-bit two's-complement
    integers ([int] as on a 64-bit platform); they are values of [Z] and
    every arithmetic operation of the source is followed by [wrap64].
    Strings are byte strings.  A Go [error] is its message, a nil-able error
    is an [option].  What the program receives from the outside (clock
    readings, the answer of the host lookup, the result of a dial) is an
    explicit argument; what it prints is a list of [Output] records carrying
    the values handed to [fmt.Printf].  Runs are runs without a signal: the
    interrupt handler, which renders the summary and exits the process, is
    not part of the embedding. *)

From Stdlib Require Import ZArith List String Ascii Bool Lia DecimalString.
Import ListNotations.
Open Scope Z_scope.
Open Scope string_scope.

(** ** Go primitives *)

Module Go.

Definition two63 : Z := 2 ^ 63.
Definition two64 : Z := 2 ^ 64.

(** The value of a 64-bit signed integer after an operation whose
  mathematical result is [z]. *)
Definition wrap64 (z : Z) : Z := (z + two63) mod two64 - two63.

Definition in_int64 (z : Z) : Prop := - two63 <= z < two63.

Definition add64 (a b : Z) : Z := wrap64 (a + b).
Definition sub64 (a b : Z) : Z := wrap64 (a - b).

(** Integer division: a run-time panic on a zero divisor, truncation
  toward zero otherwise. *)
Definition div64 (a b : Z) : option Z :=
  if Z.eqb b 0 then None else Some (wrap64 (Z.quot a b)).

(** [strings.ContainsRune s r] for a rune below 0x80: such a rune is one
  byte and that byte occurs in no multi-byte encoding. *)
Fixpoint ContainsRune (s : string) (r : ascii) : bool :=
  match s with
  | EmptyString => false
  | String c s' => if Ascii.eqb c r then true else ContainsRune s' r
  end.

(** [strings.ToUpper] / [strings.ToLower] on the ASCII letters. *)
Definition upper_byte (c : ascii) : ascii :=
  let n := nat_of_ascii c in
  if (97 <=? n)%nat && (n <=? 122)%nat then ascii_of_nat (n - 32) else c.

Definition lower_byte (c : ascii) : ascii :=
  let n := nat_of_ascii c in
  if (65 <=? n)%nat && (n <=? 90)%nat then ascii_of_nat (n + 32) else c.

Fixpoint map_bytes (f : ascii -> ascii) (s : string) : string :=
  match s with
  | EmptyString => EmptyString
  | String c s' => String (f c) (map_bytes f s')
  end.

Definition ToUpper : string -> string := map_bytes upper_byte.
Definition ToLower : string -> string := map_bytes lower_byte.

(** The verb [%d]. *)
Definition itoa (z : Z) : string := NilZero.string_of_int (Z.to_int z).

Definition is_empty (s : string) : bool :=
  match s with EmptyString => true | _ => false end.

End Go.
Import Go.

(** ** Data model *)

Definition error := string.
Definition Time := Z.
Definition Duration := Z.

(** The package-level variables, as left by [init] after flag parsing. *)
Record Flags := {
  DefaultTimeout : Z;
  DefaultHost : string;
  DefaultPort : Z;
  DefaultNet : string;
  DefaultInterval : Z;
  DefaultCount : Z;
  DefaultDNSNet : string;
  DefaultDNSAddr : string
}.

(** [net.Dialer{Timeout: ...}], the timeout in nanoseconds. *)
Record Dialer := { Timeout : Duration }.

(** [type Ping struct].  The field [dialer] exists in part_000 and part_001;
    main.go keeps the dialer in a local variable and never writes it. *)
Record Ping := {
  net : string;
  host : string;
  addr : string;
  port : Z;
  dialer : option Dialer;
  timeout : Z
}.

(** [type Stats struct]. *)
Record Stats := {
  Time_ : Time;
  Duration_ : Duration;
  Host : string;
  SAddr : string;
  DAddr : string;
  Error : option error
}.

(** [type Summary struct].  [Time], [Lock] and [WG] exist in main.go only;
    the mutex and the wait group are part of the scheduler state below. *)
Record Summary := {
  NET : string;
  MAX : Duration;
  MIN : Duration;
  AVG : Duration;
  SUM : Duration;
  Count : Z;
  ErrCount : Z;
  STime : Time
}.

(** One record per call of [fmt.Printf] / [fmt.Println], with the arguments
    of the call. *)
Inductive Output :=
| OutDNS (dns h a : string) (elapsed : Duration)
| OutError (msg : string)
| OutSuccess (t : Time) (saddr daddr : string) (d : Duration)
| OutFailure (t : Time) (h : string) (p : Z) (msg : string)
| OutSummary (label : string) (max min avg : Duration) (count errs : Z)
             (elapsed : option Duration).

(** ** The outside world *)

(** Result of [r.LookupHost(ctx, p.host)], and the time it took. *)
Record Lookup := {
  lk_addr : list string;
  lk_err : option error;
  lk_elapsed : Duration
}.

(** Result of [DialContext]: a connection, known by its local address, or an
    error (the library returns a nil connection exactly with an error). *)
Inductive DialResult :=
| Connected (local : string)
| Refused (e : error).

(** What one call of [Ping] reads from the outside: the clock at entry, the
    clock just before the dial, the dial's result, the time the dial took. *)
Record Probe := {
  pr_now0 : Time;
  pr_now : Time;
  pr_dial : DialResult;
  pr_elapsed : Duration
}.

(** What a probe does to the outside. *)
Inductive Action :=
| Dial (network address : string) (tmo : Duration)
| Close.

(** The observable history of a run, oldest event first: calls of
    [Ping.Ping], what they do, lines printed, and calls of [time.Sleep]. *)
Inductive Event :=
| EvPing
| EvAct (a : Action)
| EvOut (o : Output)
| EvSleep (d : Duration).

Definition second : Duration := 1000000000.

Definition set_addr (p : Ping) (a : string) : Ping :=
  {| net := net p; host := host p; addr := a; port := port p;
     dialer := dialer p; timeout := timeout p |}.

Definition set_dialer (p : Ping) (d : Dialer) : Ping :=
  {| net := net p; host := host p; addr := addr p; port := port p;
     dialer := Some d; timeout := timeout p |}.

Definition set_AVG (s : Summary) (a : Duration) : Summary :=
  {| NET := NET s; MAX := MAX s; MIN := MIN s; AVG := a; SUM := SUM s;
     Count := Count s; ErrCount := ErrCount s; STime := STime s |}.

(** ** Statements shared by the variants *)

Section Shared.

Variable flags : Flags.

(** The three [if] statements of [Ping.Ping] that fill in the port, the
    timeout and the transport when they are unset. *)
Definition lazy_defaults (p : Ping) : Ping :=
  let port1 := if Z.leb (port p) 0 then DefaultPort flags else port p in
  let timeout1 := if Z.leb (timeout p) 0 then DefaultTimeout flags else timeout p in
  let net1 := if is_empty (net p) then DefaultNet flags else net p in
  {| net := net1; host := host p; addr := addr p; port := port1;
     dialer := dialer p; timeout := timeout1 |}.

(** [stats] as returned by the early exit of [Ping.Ping]: only [Time] and
    [Error] have been written. *)
Definition invalid_host (now0 : Time) : Stats :=
  {| Time_ := now0; Duration_ := 0; Host := ""; SAddr := ""; DAddr := "";
     Error := Some "invalid host" |}.

(** [stats] after the dial: [Duration] is written in both cases, [Error] on
    failure, [SAddr] on success. *)
Definition dial_stats (p1 : Ping) (daddr : string) (w : Probe) : Stats :=
  match pr_dial w with
  | Refused e =>
      {| Time_ := pr_now w; Duration_ := pr_elapsed w; Host := host p1;
         SAddr := ""; DAddr := daddr; Error := Some e |}
  | Connected local =>
      {| Time_ := pr_now w; Duration_ := pr_elapsed w; Host := host p1;
         SAddr := local; DAddr := daddr; Error := None |}
  end.

(** The dial, and the deferred [conn.Close()] when a connection came back. *)
Definition dial_actions (p1 : Ping) (daddr : string) (d : Dialer) (w : Probe)
  : list Action :=
  Dial (net p1) daddr (Timeout d)
    :: match pr_dial w with Connected _ => [Close] | Refused _ => [] end.

(** [s.Count += 1] *)
Definition count_incr (s : Summary) : Summary :=
  {| NET := NET s; MAX := MAX s; MIN := MIN s; AVG := AVG s; SUM := SUM s;
     Count := add64 (Count s) 1; ErrCount := ErrCount s; STime := STime s |}.

(** The [if stats.Error == nil { ... } else { ... }] that follows
    [s.Count += 1] (main.go 145-158 in [Summary.Result], part_000 143-156 in
    [Ping.Do]); [p] is the target whose host and port the failure line
    prints. *)
Definition outcome_branch (p : Ping) (s : Summary) (stats : Stats)
  : Summary * Output :=
  match Error stats with
  | None =>
      let d := Duration_ stats in
      let min1 := if Z.ltb d (MIN s) || Z.eqb (MIN s) 0 then d else MIN s in
      let max1 := if Z.ltb (MAX s) d then d else MAX s in
      ({| NET := NET s; MAX := max1; MIN := min1; AVG := AVG s;
          SUM := add64 (SUM s) d; Count := Count s; ErrCount := ErrCount s;
          STime := STime s |},
       OutSuccess (Time_ stats) (SAddr stats) (DAddr stats) d)
  | Some e =>
      ({| NET := NET s; MAX := MAX s; MIN := MIN s; AVG := AVG s; SUM := SUM s;
          Count := Count s; ErrCount := add64 (ErrCount s) 1; STime := STime s |},
       OutFailure (Time_ stats) (host p) (port p) e)
  end.

(** Recording one outcome: the increment, then the branch. *)
Definition record_outcome (p : Ping) (s : Summary) (stats : Stats)
  : Summary * Output :=
  outcome_branch p (count_incr s) stats.

(** [func (s *Summary) Stats()]; [elapsed] is [time.Since(s.Time)], printed
    by main.go only.  [None] is the run-time panic of an integer division by
    zero. *)
Definition render (s : Summary) (elapsed : option Duration)
  : option (Summary * Output) :=
  let count := sub64 (Count s) (ErrCount s) in
  let line s1 := OutSummary (ToUpper (NET s1)) (MAX s1) (MIN s1) (AVG s1)
                            (Count s1) (ErrCount s1) elapsed in
  if Z.ltb 0 count then
    match div64 (SUM s) count with
    | Some q => let s1 := set_AVG s q in Some (s1, line s1)
    | None => None
    end
  else Some (s, line s).

(** [time.Sleep(time.Duration(DefaultInterval) * time.Second)] *)
Definition sleep_interval : Event :=
  EvSleep (wrap64 (DefaultInterval flags * second)).

End Shared.

(** ** part_001 and part_000: resolver and prober *)

Module Part001.
Section Part001.

Variable flags : Flags.

(** [func (p *Ping) Resolver() error] *)
Definition Ping_Resolver (p : Ping) (lk : Lookup) : Ping * option error :=
  match lk_err lk with
  | None =>
      match lk_addr lk with
      | a0 :: _ =>
          if ContainsRune a0 ":"%char
          then (set_addr p ("[" ++ a0 ++ "]"), None)
          else (set_addr p a0, None)
      | [] => (p, Some "not found addr")
      end
  | Some e => (p, Some e)
  end.

(** [func (p *Ping) Ping() *Stats]: the dialer is stored in the target. *)
Definition Ping_Ping (p : Ping) (w : Probe) : Ping * Stats * list Action :=
  if is_empty (addr p) then (p, invalid_host (pr_now0 w), [])
  else
    let p1 := lazy_defaults flags p in
    let d := {| Timeout := wrap64 (timeout p1 * second) |} in
    let p2 := set_dialer p1 d in
    let daddr := addr p2 ++ ":" ++ itoa (port p2) in
    (p2, dial_stats p2 daddr w, dial_actions p2 daddr d w).

End Part001.
End Part001.

(** ** part_000: the single-threaded loop with a summary *)

Module Part000.

(** The variables of [Ping.Do] at the top of the [for] body: the target, the
    aggregate, the counter [i], the number of calls of [Ping] made so far
    (the index of the next answer of the outside world) and the history. *)
Record Loop := {
  lp_p : Ping;
  lp_s : Summary;
  lp_i : Z;
  lp_n : nat;
  lp_tr : list Event
}.

(** How a call of [Ping.Do] stands: still in the loop, returned, or stopped
    by a run-time panic. *)
Inductive Run :=
| Running (l : Loop)
| Returned (p : Ping) (s : Summary) (tr : list Event)
| Panicked (tr : list Event).

Section Part000.

Variable flags : Flags.

(** The resolver and the prober have the text of part_001 (the DNS dial
    lower-cases its transport, which the lookup answer abstracts). *)
Definition Ping_Resolver := Part001.Ping_Resolver.
Definition Ping_Ping := Part001.Ping_Ping flags.

(** [func (s *Summary) Stats()] *)
Definition Summary_Stats (s : Summary) : option (Summary * Output) :=
  render s None.

(** The outside world: the answer to the k-th call of [Ping]. *)
Variable world : nat -> Probe.

(** One pass through the body of the [for]; the boolean is [true] when the
    pass ends in [break]. *)
Definition iteration (l : Loop) : Loop * bool :=
  let '(p1, stats, acts) := Ping_Ping (lp_p l) (world (lp_n l)) in
  let '(s1, o) := record_outcome p1 (lp_s l) stats in
  let tr1 := (lp_tr l ++ EvPing :: map EvAct acts ++ [EvOut o])%list in
  let nap := if Z.ltb 0 (DefaultInterval flags) then [sleep_interval flags] else [] in
  if Z.ltb 0 (DefaultCount flags) then
    let i1 := add64 (lp_i l) 1 in
    if Z.leb (DefaultCount flags) i1
    then ({| lp_p := p1; lp_s := s1; lp_i := i1; lp_n := S (lp_n l); lp_tr := tr1 |},
          true)
    else ({| lp_p := p1; lp_s := s1; lp_i := i1; lp_n := S (lp_n l);
             lp_tr := (tr1 ++ nap)%list |}, false)
  else ({| lp_p := p1; lp_s := s1; lp_i := lp_i l; lp_n := S (lp_n l);
           lp_tr := (tr1 ++ nap)%list |}, false).

(** At most [fuel] passes; the boolean is [true] when the loop was left. *)
Fixpoint loop (fuel : nat) (l : Loop) : Loop * bool :=
  match fuel with
  | O => (l, false)
  | S fuel' =>
      let '(l1, brk) := iteration l in
      if brk then (l1, true) else loop fuel' l1
  end.

(** [func (p *Ping) Do(s *Summary)], run for at most [fuel] passes. *)
Definition Ping_Do (p : Ping) (s : Summary) (lk : Lookup) (fuel : nat) : Run :=
  match Ping_Resolver p lk with
  | (p1, Some e) => Returned p1 s [EvOut (OutError e)]
  | (p1, None) =>
      match loop fuel {| lp_p := p1; lp_s := s; lp_i := 0; lp_n := O; lp_tr := [] |} with
      | (l, false) => Running l
      | (l, true) =>
          match Summary_Stats (lp_s l) with
          | Some (s1, o) => Returned (lp_p l) s1 (lp_tr l ++ [EvOut o])%list
          | None => Panicked (lp_tr l)
          end
      end
  end.

End Part000.
End Part000.

(** ** main.go: probes under a mutex, joined by a wait group *)

Module Main.

(** Where a call of [Summary.Result] stands.  The outcome of the probe is
    the local [stats]. *)
Inductive RPc :=
| RPing                  (* before [stats := ping.Ping()] *)
| RLock (stats : Stats)  (* before [s.Lock.Lock()] *)
| RCount (stats : Stats) (* lock held, before [s.Count += 1] *)
| RBranch (stats : Stats)(* lock held, before the [if] *)
| RUnlock                (* lock held, before [s.Lock.Unlock()] *)
| RDone                  (* before the deferred [s.WG.Done()] *)
| RRet.                  (* returned *)

(** Where [Ping.Do] stands. *)
Inductive MPc :=
| MResolve               (* before [p.Resolver()] *)
| MAdd (i : Z)           (* top of the [for]: before [s.WG.Add(1)] *)
| MDispatch (i : Z)      (* before [if DefaultInterval > 0] *)
| MCall (i : Z) (pc : RPc) (* inside the synchronous [s.Result(p)] *)
| MSleep (i : Z)         (* before [time.Sleep] *)
| MCheck (i : Z)         (* before [if DefaultCount >= 0] *)
| MWait                  (* before the deferred [s.WG.Wait()] *)
| MStats                 (* before the deferred [s.Stats()] *)
| MExit.                 (* returned *)

(** What all goroutines share: the target, the aggregate, the mutex, the
    counter of the wait group, and the history. *)
Record Shared := {
  sh_p : Ping;
  sh_s : Summary;
  sh_lock : bool;
  sh_wg : Z;
  sh_tr : list Event
}.

Record State := {
  g_sh : Shared;
  g_main : MPc;
  g_pool : list RPc
}.

Section Main.

Variable flags : Flags.

(** [func (p *Ping) Resolver() error]: a line is printed when a custom DNS
    endpoint is configured. *)
Definition Ping_Resolver (p : Ping) (lk : Lookup) : Ping * option error * list Output :=
  let c := negb (is_empty (DefaultDNSAddr flags)) && negb (is_empty (DefaultDNSNet flags)) in
  match lk_err lk with
  | None =>
      match lk_addr lk with
      | a0 :: _ =>
          let p1 := if ContainsRune a0 ":"%char
                    then set_addr p ("[" ++ a0 ++ "]")
                    else set_addr p a0 in
          (p1, None,
           if c then [OutDNS (DefaultDNSAddr flags) (host p1) (addr p1) (lk_elapsed lk)]
           else [])
      | [] => (p, Some "not found addr", [])
      end
  | Some e => (p, Some e, [])
  end.

(** [func (p *Ping) Ping() *Stats]: the dialer is a local variable. *)
Definition Ping_Ping (p : Ping) (w : Probe) : Ping * Stats * list Action :=
  if is_empty (addr p) then (p, invalid_host (pr_now0 w), [])
  else
    let p1 := lazy_defaults flags p in
    let d := {| Timeout := wrap64 (timeout p1 * second) |} in
    let daddr := addr p1 ++ ":" ++ itoa (port p1) in
    (p1, dial_stats p1 daddr w, dial_actions p1 daddr d w).

(** [func (s *Summary) Stats()] *)
Definition Summary_Stats (s : Summary) (elapsed : Duration)
  : option (Summary * Output) :=
  render s (Some elapsed).

Definition with_p (sh : Shared) (p : Ping) (evs : list Event) : Shared :=
  {| sh_p := p; sh_s := sh_s sh; sh_lock := sh_lock sh; sh_wg := sh_wg sh;
     sh_tr := (sh_tr sh ++ evs)%list |}.

Definition with_s (sh : Shared) (s : Summary) (evs : list Event) : Shared :=
  {| sh_p := sh_p sh; sh_s := s; sh_lock := sh_lock sh; sh_wg := sh_wg sh;
     sh_tr := (sh_tr sh ++ evs)%list |}.

Definition with_lock (sh : Shared) (b : bool) : Shared :=
  {| sh_p := sh_p sh; sh_s := sh_s sh; sh_lock := b; sh_wg := sh_wg sh;
     sh_tr := sh_tr sh |}.

Definition with_wg (sh : Shared) (n : Z) : Shared :=
  {| sh_p := sh_p sh; sh_s := sh_s sh; sh_lock := sh_lock sh; sh_wg := n;
     sh_tr := sh_tr sh |}.

(** One statement of [func (s *Summary) Result(ping *Ping)].  The call of
    [ping.Ping()] is one statement: [w] is what it reads from the outside,
    and all it writes to the shared target are the lazy defaults.  [None]:
    the statement cannot run now ([Lock] on a held mutex), would panic
    ([Done] on a zero counter), or the call has returned. *)
Definition Summary_Result (w : Probe) (pc : RPc) (sh : Shared)
  : option (RPc * Shared) :=
  match pc with
  | RPing =>
      let '(p1, stats, acts) := Ping_Ping (sh_p sh) w in
      Some (RLock stats, with_p sh p1 (EvPing :: map EvAct acts))
  | RLock stats =>
      if sh_lock sh then None else Some (RCount stats, with_lock sh true)
  | RCount stats =>
      Some (RBranch stats, with_s sh (count_incr (sh_s sh)) [])
  | RBranch stats =>
      let '(s1, o) := outcome_branch (sh_p sh) (sh_s sh) stats in
      Some (RUnlock, with_s sh s1 [EvOut o])
  | RUnlock => Some (RDone, with_lock sh false)
  | RDone =>
      if Z.ltb (sh_wg sh - 1) 0 then None
      else Some (RRet, with_wg sh (sh_wg sh - 1))
  | RRet => None
  end.

(** The answer of the host lookup, asked once. *)
Variable lk : Lookup.

(** One statement of [func (p *Ping) Do(s *Summary)].  [w] answers a probe
    made inside a synchronous [s.Result(p)], [elapsed] is the clock read by
    [s.Stats()].  [None]: the statement cannot run now ([Wait] on a
    non-zero counter), would panic, or [Do] has returned. *)
Definition Ping_Do (w : Probe) (elapsed : Duration) (st : State) : option State :=
  let sh := g_sh st in
  let pool := g_pool st in
  match g_main st with
  | MResolve =>
      match Ping_Resolver (sh_p sh) lk with
      | (p1, Some e, outs) =>
          Some {| g_sh := with_p sh p1 (map EvOut outs ++ [EvOut (OutError e)]);
                  g_main := MExit; g_pool := pool |}
      | (p1, None, outs) =>
          Some {| g_sh := with_p sh p1 (map EvOut outs);
                  g_main := MAdd 0; g_pool := pool |}
      end
  | MAdd i =>
      Some {| g_sh := with_wg sh (sh_wg sh + 1); g_main := MDispatch i;
              g_pool := pool |}
  | MDispatch i =>
      if Z.ltb 0 (DefaultInterval flags)
      then Some {| g_sh := sh; g_main := MCall i RPing; g_pool := pool |}
      else Some {| g_sh := sh; g_main := MCheck i; g_pool := (pool ++ [RPing])%list |}
  | MCall i RRet =>
      Some {| g_sh := sh; g_main := MSleep i; g_pool := pool |}
  | MCall i pc =>
      match Summary_Result w pc sh with
      | Some (pc1, sh1) => Some {| g_sh := sh1; g_main := MCall i pc1; g_pool := pool |}
      | None => None
      end
  | MSleep i =>
      Some {| g_sh := with_p sh (sh_p sh) [sleep_interval flags];
              g_main := MCheck i; g_pool := pool |}
  | MCheck i =>
      if Z.leb 0 (DefaultCount flags) then
        let i1 := add64 i 1 in
        if Z.leb (DefaultCount flags) i1
        then Some {| g_sh := sh; g_main := MWait; g_pool := pool |}
        else Some {| g_sh := sh; g_main := MAdd i1; g_pool := pool |}
      else Some {| g_sh := sh; g_main := MAdd i; g_pool := pool |}
  | MWait =>
      if Z.eqb (sh_wg sh) 0
      then Some {| g_sh := sh; g_main := MStats; g_pool := pool |}
      else None
  | MStats =>
      match Summary_Stats (sh_s sh) elapsed with
      | Some (s1, o) =>
          Some {| g_sh := with_s sh s1 [EvOut o]; g_main := MExit; g_pool := pool |}
      | None => None
      end
  | MExit => None
  end.

(** The scheduler: the next statement is one of [Ping.Do], or one of a
    goroutine started by [go s.Result(p)]. *)
Inductive step : State -> State -> Prop :=
| step_main w elapsed st st' :
    Ping_Do w elapsed st = Some st' ->
    step st st'
| step_go w sh m l1 pc l2 pc' sh' :
    Summary_Result w pc sh = Some (pc', sh') ->
    step {| g_sh := sh; g_main := m; g_pool := (l1 ++ pc :: l2)%list |}
         {| g_sh := sh'; g_main := m; g_pool := (l1 ++ pc' :: l2)%list |}.

Inductive steps : State -> State -> Prop :=
| steps_refl st : steps st st
| steps_next st1 st2 st3 : steps st1 st2 -> step st2 st3 -> steps st1 st3.

(** [main] calls [ping.Do(summary)] with a fresh mutex and wait group. *)
Definition start (p : Ping) (s : Summary) : State :=
  {| g_sh := {| sh_p := p; sh_s := s; sh_lock := false; sh_wg := 0; sh_tr := [] |};
     g_main := MResolve; g_pool := [] |}.

(** [Ping.Do] alone, for at most [n] statements, every probe answered by [w]
    and every clock reading by [elapsed]: the run of the program when an
    interval is set. *)
Fixpoint Ping_Do_run (w : Probe) (elapsed : Duration) (n : nat) (st : State) : State :=
  match n with
  | O => st
  | S n' =>
      match Ping_Do w elapsed st with
      | Some st' => Ping_Do_run w elapsed n' st'
      | None => st
      end
  end.

End Main.
End Main.

(** [main]: the target and the aggregate as the flags give them. *)
Definition main_ping (flags : Flags) (lower : bool) : Ping :=
  {| net := if lower then ToLower (DefaultNet flags) else DefaultNet flags;
     host := DefaultHost flags; addr := ""; port := DefaultPort flags;
     dialer := None; timeout := DefaultTimeout flags |}.

Definition main_summary (p : Ping) (now : Time) : Summary :=
  {| NET := net p; MAX := 0; MIN := 0; AVG := 0; SUM := 0; Count := 0;
     ErrCount := 0; STime := now |}.

(** ** Histories of the aggregate

    What happens to a [Summary] during a run is a sequence of recorded
    outcomes and of renderings.  These definitions state the properties of
    the aggregate; the embeddings above are related to them below. *)

Inductive AggEvent :=
| Recorded (p : Ping) (stats : Stats)
| Rendered (elapsed : option Duration).

(** The aggregate after a history; [None] if a rendering panicked. *)
Fixpoint agg_run (s : Summary) (evs : list AggEvent) : option Summary :=
  match evs with
  | [] => Some s
  | Recorded p stats :: evs' => agg_run (fst (record_outcome p s stats)) evs'
  | Rendered elapsed :: evs' =>
      match render s elapsed with
      | Some (s1, _) => agg_run s1 evs'
      | None => None
      end
  end.

(** Durations of the error-free outcomes of a history, oldest first. *)
Fixpoint successes (evs : list AggEvent) : list Duration :=
  match evs with
  | [] => []
  | Recorded _ stats :: evs' =>
      match Error stats with
      | None => Duration_ stats :: successes evs'
      | Some _ => successes evs'
      end
  | Rendered _ :: evs' => successes evs'
  end.

(** Number of outcomes with an error. *)
Fixpoint errors (evs : list AggEvent) : Z :=
  match evs with
  | [] => 0
  | Recorded _ stats :: evs' =>
      match Error stats with
      | None => errors evs'
      | Some _ => errors evs' + 1
      end
  | Rendered _ :: evs' => errors evs'
  end.

(** Number of recorded outcomes. *)
Fixpoint attempts_recorded (evs : list AggEvent) : Z :=
  match evs with
  | [] => 0
  | Recorded _ _ :: evs' => attempts_recorded evs' + 1
  | Rendered _ :: evs' => attempts_recorded evs'
  end.

Definition sumZ (l : list Z) : Z := fold_right Z.add 0 l.

Definition success (d : Duration) : Stats :=
  {| Time_ := 0; Duration_ := d; Host := ""; SAddr := ""; DAddr := ""; Error := None |}.

Definition failure (e : error) : Stats :=
  {| Time_ := 0; Duration_ := 0; Host := ""; SAddr := ""; DAddr := ""; Error := Some e |}.

(** The avg a summary line prints. *)
Definition printed_avg (o : Output) : option Duration :=
  match o with
  | OutSummary _ _ _ avg _ _ _ => Some avg
  | _ => None
  end.

(** The durations that follow the last zero of a list ([acc] holds those
    seen since the last zero so far): the code reads [s.MIN == 0] as
    "no minimum yet". *)
Fixpoint since_zero_from (acc l : list Duration) : list Duration :=
  match l with
  | [] => acc
  | d :: l' => since_zero_from (if Z.eqb d 0 then [] else (acc ++ [d])%list) l'
  end.

Definition since_zero (l : list Duration) : list Duration := since_zero_from [] l.

(** ** Counting in a history of events *)

Definition is_ping (e : Event) : bool :=
  match e with EvPing => true | _ => false end.

Definition is_dial (e : Event) : bool :=
  match e with EvAct (Dial _ _ _) => true | _ => false end.

Definition is_summary (e : Event) : bool :=
  match e with EvOut (OutSummary _ _ _ _ _ _ _) => true | _ => false end.

Definition count_ev (f : Event -> bool) (tr : list Event) : Z :=
  Z.of_nat (List.length (filter f tr)).

(** Calls of [Ping.Ping], dials, and summary lines of a history. *)
Definition probe_attempts : list Event -> Z := count_ev is_ping.
Definition dials : list Event -> Z := count_ev is_dial.
Definition summary_lines : list Event -> Z := count_ev is_summary.

(** ** From the printed lines back to the history of the aggregate

    An outcome line carries what recording reads from the outcome (whether
    there was an error, and the duration) and what it prints; a summary line
    carries the elapsed time it was given. *)

Definition ping_of_line (h : string) (po : Z) : Ping :=
  {| net := ""; host := h; addr := ""; port := po; dialer := None; timeout := 0 |}.

Definition history_event (e : Event) : list AggEvent :=
  match e with
  | EvOut (OutSuccess t saddr daddr d) =>
      [Recorded (ping_of_line "" 0)
         {| Time_ := t; Duration_ := d; Host := ""; SAddr := saddr; DAddr := daddr;
            Error := None |}]
  | EvOut (OutFailure t h po msg) =>
      [Recorded (ping_of_line h po)
         {| Time_ := t; Duration_ := 0; Host := ""; SAddr := ""; DAddr := "";
            Error := Some msg |}]
  | EvOut (OutSummary _ _ _ _ _ _ elapsed) => [Rendered elapsed]
  | _ => []
  end.

Definition history (tr : list Event) : list AggEvent := flat_map history_event tr.

(** The last event of a history is a summary line. *)
Definition ends_with_summary (tr : list Event) : Prop :=
  exists tr' o, tr = (tr' ++ [EvOut o])%list /\ is_summary (EvOut o) = true.

(** What [k] more passes that do not leave the loop add to a history. *)
Definition grown (k : nat) (l l' : Part000.Loop) : Prop :=
  Part000.lp_n l' = (Part000.lp_n l + k)%nat /\
  probe_attempts (Part000.lp_tr l') = probe_attempts (Part000.lp_tr l) + Z.of_nat k /\
  summary_lines (Part000.lp_tr l') = summary_lines (Part000.lp_tr l) /\
  attempts_recorded (history (Part000.lp_tr l'))
    = attempts_recorded (history (Part000.lp_tr l)) + Z.of_nat k /\
  (forall s0, agg_run s0 (history (Part000.lp_tr l)) = Some (Part000.lp_s l) ->
              agg_run s0 (history (Part000.lp_tr l')) = Some (Part000.lp_s l')).

(** ** States of the scheduler of main.go *)

Module Sched.
Import Main.

Definition b2z (b : bool) : Z := if b then 1 else 0.

Definition cnt (f : RPc -> bool) (l : list RPc) : Z :=
  fold_right (fun pc n => b2z (f pc) + n) 0 l.

Definition at_ping (pc : RPc) : bool :=
  match pc with RPing => true | _ => false end.

(** The probe is made, its outcome not yet printed. *)
Definition unrecorded (pc : RPc) : bool :=
  match pc with RLock _ | RCount _ | RBranch _ => true | _ => false end.

(** Between [Lock] and [Unlock]. *)
Definition in_cs (pc : RPc) : bool :=
  match pc with RCount _ | RBranch _ | RUnlock => true | _ => false end.

Definition at_branch (pc : RPc) : bool :=
  match pc with RBranch _ => true | _ => false end.

(** [WG.Done] not yet called. *)
Definition live (pc : RPc) : bool :=
  match pc with RRet => false | _ => true end.

(** All running calls of [Summary.Result]: the synchronous one, if any, and
    the goroutines. *)
Definition threads (st : State) : list RPc :=
  match g_main st with
  | MCall _ pc => pc :: g_pool st
  | _ => g_pool st
  end.

(** The same count, split between the synchronous call and the goroutines. *)
Definition main_cnt (f : RPc -> bool) (m : MPc) : Z :=
  match m with MCall _ pc => b2z (f pc) | _ => 0 end.

(** Statements a call of [Summary.Result] has left to run. *)
Definition rem (pc : RPc) : Z :=
  match pc with
  | RPing => 6 | RLock _ => 5 | RCount _ => 4 | RBranch _ => 3
  | RUnlock => 2 | RDone => 1 | RRet => 0
  end.

Definition rem_all (l : list RPc) : Z := fold_right (fun pc n => rem pc + n) 0 l.

(** A bound on the statements [Ping.Do] has left to run when the attempt
    count is [c], not counting those of goroutines already started. *)
Definition main_rem (c : Z) (m : MPc) : Z :=
  match m with
  | MResolve => 12 * c + 4
  | MAdd i => 12 * (c - i) + 3
  | MDispatch i => 12 * (c - i) + 2
  | MCall i pc => 12 * (c - i) - 6 + rem pc
  | MSleep i => 12 * (c - i) - 7
  | MCheck i => 12 * (c - i) - 8
  | MWait => 2
  | MStats => 1
  | MExit => 0
  end.

Definition measure (c : Z) (st : State) : Z :=
  main_rem c (g_main st) + rem_all (g_pool st).

(** Calls of [Summary.Result] started so far. *)
Definition launched (c : Z) (m : MPc) : Z :=
  match m with
  | MResolve => 0
  | MAdd i | MDispatch i => i
  | MCall i _ | MSleep i | MCheck i => i + 1
  | MWait | MStats | MExit => c
  end.

Definition index_ok (c : Z) (m : MPc) : Prop :=
  match m with
  | MAdd i | MDispatch i | MCall i _ | MSleep i | MCheck i => 0 <= i < c
  | _ => True
  end.

Definition is_dispatch (m : MPc) : bool :=
  match m with MDispatch _ => true | _ => false end.

Definition is_exit (m : MPc) : bool :=
  match m with MExit => true | _ => false end.

Definition joined (m : MPc) : bool :=
  match m with MStats | MExit => true | _ => false end.

(** What holds in every state [Ping.Do] reaches after a successful
    resolution, for an attempt count [c] and a starting aggregate [s0]; the
    two statements about the counter [i] are for [c > 0]. *)
Record Inv (c : Z) (s0 : Summary) (st : State) : Prop := {
  inv_index : 0 < c -> index_ok c (g_main st);
  inv_start : g_main st = MResolve ->
              sh_tr (g_sh st) = [] /\ g_pool st = [] /\ sh_wg (g_sh st) = 0 /\
              sh_lock (g_sh st) = false /\ sh_s (g_sh st) = s0;
  inv_pings : 0 < c ->
              probe_attempts (sh_tr (g_sh st)) + cnt at_ping (threads st)
              = launched c (g_main st);
  inv_lines : attempts_recorded (history (sh_tr (g_sh st)))
              + cnt unrecorded (threads st)
              = probe_attempts (sh_tr (g_sh st));
  inv_wg : sh_wg (g_sh st) = cnt live (threads st) + b2z (is_dispatch (g_main st));
  inv_lock : cnt in_cs (threads st) = b2z (sh_lock (g_sh st));
  inv_summary : summary_lines (sh_tr (g_sh st)) = b2z (is_exit (g_main st));
  inv_joined : joined (g_main st) = true -> sh_wg (g_sh st) = 0;
  inv_last : g_main st = MExit -> ends_with_summary (sh_tr (g_sh st));
  inv_agg : exists base,
      agg_run s0 (history (sh_tr (g_sh st))) = Some base /\
      sh_s (g_sh st) =
        (if Z.ltb 0 (cnt at_branch (threads st)) then count_incr base else base)
}.

End Sched.

(** Runs of a given number of statements. *)
Inductive steps_n (flags : Flags) (lk : Lookup) : nat -> Main.State -> Main.State -> Prop :=
| steps_n_O st : steps_n flags lk O st st
| steps_n_S n st1 st2 st3 :
    steps_n flags lk n st1 st2 -> Main.step flags lk st2 st3 ->
    steps_n flags lk (S n) st1 st3.

(** ** The variants side by side *)

Inductive Variant := part_001 | part_000 | main_go.

(** [Resolver] of a variant: the target after the call and the error. *)
Definition Resolver_of (v : Variant) (flags : Flags) (p : Ping) (lk : Lookup)
  : Ping * option error :=
  match v with
  | part_001 => Part001.Ping_Resolver p lk
  | part_000 => Part000.Ping_Resolver p lk
  | main_go => fst (Main.Ping_Resolver flags p lk)
  end.

(** [Ping] of a variant. *)
Definition Ping_of (v : Variant) (flags : Flags) (p : Ping) (w : Probe)
  : Ping * Stats * list Action :=
  match v with
  | part_001 => Part001.Ping_Ping flags p w
  | part_000 => Part000.Ping_Ping flags p w
  | main_go => Main.Ping_Ping flags p w
  end.

(** The address a successful lookup stores in the target. *)
Definition bracketed (a0 : string) : string :=
  if ContainsRune a0 ":"%char then "[" ++ a0 ++ "]" else a0.

(** ** Sample inputs *)

(** The flags as the [var] block and [init] leave them for
    [tcping -h example.org]. *)
Definition flags0 : Flags :=
  {| DefaultTimeout := 1; DefaultHost := "example.org"; DefaultPort := 80;
     DefaultNet := "tcp"; DefaultInterval := 1; DefaultCount := 10;
     DefaultDNSNet := "udp"; DefaultDNSAddr := "" |}.

(** The same with [-c 0]. *)
Definition flags_c0 : Flags :=
  {| DefaultTimeout := 1; DefaultHost := "example.org"; DefaultPort := 80;
     DefaultNet := "tcp"; DefaultInterval := 1; DefaultCount := 0;
     DefaultDNSNet := "udp"; DefaultDNSAddr := "" |}.

Definition ping0 : Ping := main_ping flags0 true.

Definition summary0 : Summary := main_summary ping0 0.

Definition probe_ok : Probe :=
  {| pr_now0 := 1; pr_now := 2; pr_dial := Connected "192.0.2.7:50000";
     pr_elapsed := 3 |}.

Definition lookup_ok : Lookup :=
  {| lk_addr := ["2001:db8::1"; "192.0.2.1"]; lk_err := None; lk_elapsed := 7 |}.

Definition lookup_empty : Lookup :=
  {| lk_addr := []; lk_err := None; lk_elapsed := 7 |}.

Definition lookup_failed : Lookup :=
  {| lk_addr := []; lk_err := Some "no such host"; lk_elapsed := 7 |}.

(** Three successes of 5ns, 0ns and 3ns, and an error between them. *)
Definition history_with_zero : list AggEvent :=
  [Recorded ping0 (success 5); Recorded ping0 (success 0);
   Recorded ping0 (failure "connection refused"); Recorded ping0 (success 3)].

(** Successes of 5ns and 3ns around an error, then a rendering. *)
Definition history_positive : list AggEvent :=
  [Recorded ping0 (success 5); Recorded ping0 (failure "connection refused");
   Recorded ping0 (success 3); Rendered None].

(** Two errors. *)
Definition history_errors : list AggEvent :=
  [Recorded ping0 (failure "connection refused"); Recorded ping0 (failure "i/o timeout")].

(** * The rest of the program *)

From Stdlib Require DecimalPos Permutation.

(** ** [strconv.Atoi] *)

Module Strconv.

Inductive NumError := ErrSyntax | ErrRange.

(** The digits [body] of a number whose sign is [neg]: a syntax error (and
    the value 0) when [body] is empty or has a byte that is not a decimal
    digit, a range error (and the nearest 64-bit value) when the number
    does not fit. *)
Definition parse_digits (neg : bool) (body : string) : Z * option NumError :=
  match NilZero.uint_of_string body with
  | None => (0, Some ErrSyntax)
  | Some d =>
      let v := if neg then - Z.of_uint d else Z.of_uint d in
      if Z.ltb v (- two63) then (- two63, Some ErrRange)
      else if Z.leb two63 v then (two63 - 1, Some ErrRange)
      else (v, None)
  end.

(** [strconv.Atoi(s)] with a 64-bit [int]: an optional sign, then decimal
    digits. *)
Definition Atoi (s : string) : Z * option NumError :=
  match s with
  | EmptyString => (0, Some ErrSyntax)
  | String a s' =>
      if Ascii.eqb a "-"%char then parse_digits true s'
      else if Ascii.eqb a "+"%char then parse_digits false s'
      else parse_digits false s
  end.

End Strconv.

(** ** [init]: the flags after [flag.Parse()] *)

Definition set_DefaultHost (fl : Flags) (h : string) : Flags :=
  {| DefaultTimeout := DefaultTimeout fl; DefaultHost := h;
     DefaultPort := DefaultPort fl; DefaultNet := DefaultNet fl;
     DefaultInterval := DefaultInterval fl; DefaultCount := DefaultCount fl;
     DefaultDNSNet := DefaultDNSNet fl; DefaultDNSAddr := DefaultDNSAddr fl |}.

Definition set_DefaultPort (fl : Flags) (n : Z) : Flags :=
  {| DefaultTimeout := DefaultTimeout fl; DefaultHost := DefaultHost fl;
     DefaultPort := n; DefaultNet := DefaultNet fl;
     DefaultInterval := DefaultInterval fl; DefaultCount := DefaultCount fl;
     DefaultDNSNet := DefaultDNSNet fl; DefaultDNSAddr := DefaultDNSAddr fl |}.

(** How [init] leaves the process: gone through [os.Exit] after printing a
    line, or ready for [main] with the package-level variables set. *)
Inductive Boot :=
| Exited (code : Z) (line : string)
| Started (fl : Flags).

Definition usage : string := "Use '-h' to set host, '-p' to set port.".

(** [func init()] of main.go and part_000, from [flag.Parse()] on: [fl] holds
    the variables as the named flags set them, [args] is [flag.Args()]. *)
Definition Main_init (fl : Flags) (args : list string) : Boot :=
  let fl1 :=
    if is_empty (DefaultHost fl) then
      match args with
      | [h] => set_DefaultHost fl h
      | [h; pt] =>
          let '(prot, err) := Strconv.Atoi pt in
          let fl2 := set_DefaultHost fl h in
          let fl3 := match err with
                     | Some _ => set_DefaultHost fl2 ""
                     | None => fl2
                     end in
          set_DefaultPort fl3 prot
      | _ => set_DefaultHost fl ""
      end
    else fl in
  if is_empty (DefaultHost fl1) || Z.eqb (DefaultPort fl1) 0
  then Exited 127 usage
  else Started fl1.

(** [func init()] of part_001, from [flag.Parse()] on. *)
Definition Part001_init (fl : Flags) (args : list string) : Boot :=
  let fl1 :=
    match args with
    | [h] => if is_empty (DefaultHost fl) then set_DefaultHost fl h else fl
    | _ => fl
    end in
  if is_empty (DefaultHost fl1) then Exited 1 usage else Started fl1.

(** The flags after [flag.Parse()] for a command line without [-h]. *)
Definition flags_parsed : Flags :=
  {| DefaultTimeout := 1; DefaultHost := ""; DefaultPort := 80;
     DefaultNet := "tcp"; DefaultInterval := 1; DefaultCount := 10;
     DefaultDNSNet := "udp"; DefaultDNSAddr := "" |}.

(** ** part_001: the loop without an aggregate *)

Module Part001Do.

(** The lines part_001 prints: they carry the upper-cased transport. *)
Inductive Line :=
| LineSuccess (t : Time) (label saddr daddr : string) (d : Duration)
| LineFailure (t : Time) (label h : string) (p : Z) (msg : string)
| LineError (msg : string).

Inductive Ev :=
| EPing
| EAct (a : Action)
| ELine (l : Line)
| ESleep (d : Duration).

(** The variables of [Ping.Do] at the top of the [for] body. *)
Record Loop := {
  lp_p : Ping;
  lp_i : Z;
  lp_n : nat;
  lp_tr : list Ev
}.

Inductive Run :=
| Running (l : Loop)
| Returned (p : Ping) (tr : list Ev).

Section Part001Do.

Variable flags : Flags.
Variable world : nat -> Probe.

(** The [if stats.Error == nil { ... } else { ... }] of the [for] body. *)
Definition outcome_line (p : Ping) (stats : Stats) : Line :=
  match Error stats with
  | None =>
      LineSuccess (Time_ stats) (ToUpper (net p)) (SAddr stats) (DAddr stats)
                  (Duration_ stats)
  | Some e =>
      LineFailure (Time_ stats) (ToUpper (net p)) (host p) (port p) e
  end.

(** One pass through the body of the [for]; the boolean is [true] when the
    pass ends in [break]. *)
Definition iteration (l : Loop) : Loop * bool :=
  let '(p1, stats, acts) := Part001.Ping_Ping flags (lp_p l) (world (lp_n l)) in
  let tr1 := (lp_tr l ++ EPing :: map EAct acts ++ [ELine (outcome_line p1 stats)])%list in
  let nap := if Z.ltb 0 (DefaultInterval flags)
             then [ESleep (wrap64 (DefaultInterval flags * second))] else [] in
  if Z.ltb 0 (DefaultCount flags) then
    let i1 := add64 (lp_i l) 1 in
    if Z.leb (DefaultCount flags) i1
    then ({| lp_p := p1; lp_i := i1; lp_n := S (lp_n l); lp_tr := tr1 |}, true)
    else ({| lp_p := p1; lp_i := i1; lp_n := S (lp_n l);
             lp_tr := (tr1 ++ nap)%list |}, false)
  else ({| lp_p := p1; lp_i := lp_i l; lp_n := S (lp_n l);
           lp_tr := (tr1 ++ nap)%list |}, false).

(** At most [fuel] passes; the boolean is [true] when the loop was left. *)
Fixpoint loop (fuel : nat) (l : Loop) : Loop * bool :=
  match fuel with
  | O => (l, false)
  | S fuel' =>
      let '(l1, brk) := iteration l in
      if brk then (l1, true) else loop fuel' l1
  end.

(** [func (p *Ping) Do()], run for at most [fuel] passes. *)
Definition Ping_Do (p : Ping) (lk : Lookup) (fuel : nat) : Run :=
  match Part001.Ping_Resolver p lk with
  | (p1, Some e) => Returned p1 [ELine (LineError e)]
  | (p1, None) =>
      match loop fuel {| lp_p := p1; lp_i := 0; lp_n := O; lp_tr := [] |} with
      | (l, false) => Running l
      | (l, true) => Returned (lp_p l) (lp_tr l)
      end
  end.

End Part001Do.

Definition is_ping (e : Ev) : bool :=
  match e with EPing => true | _ => false end.

Definition is_dial (e : Ev) : bool :=
  match e with EAct (Dial _ _ _) => true | _ => false end.

Definition is_outcome (e : Ev) : bool :=
  match e with
  | ELine (LineSuccess _ _ _ _ _) | ELine (LineFailure _ _ _ _ _) => true
  | _ => false
  end.

Definition is_sleep (e : Ev) : bool :=
  match e with ESleep _ => true | _ => false end.

Definition count (f : Ev -> bool) (tr : list Ev) : Z :=
  Z.of_nat (List.length (filter f tr)).

End Part001Do.

(** ** More to count in a history of events *)

Definition is_sleep (e : Event) : bool :=
  match e with EvSleep _ => true | _ => false end.

Definition is_close (e : Event) : bool :=
  match e with EvAct Close => true | _ => false end.

Definition is_success_line (e : Event) : bool :=
  match e with EvOut (OutSuccess _ _ _ _) => true | _ => false end.

Definition is_failure_line (e : Event) : bool :=
  match e with EvOut (OutFailure _ _ _ _) => true | _ => false end.

(** Calls of [time.Sleep], connections closed, success and failure lines. *)
Definition sleeps : list Event -> Z := count_ev is_sleep.
Definition closes : list Event -> Z := count_ev is_close.
Definition success_lines : list Event -> Z := count_ev is_success_line.
Definition failure_lines : list Event -> Z := count_ev is_failure_line.

(** Every dial of a history is made on [network], to [address], with the
    timeout [tmo]. *)
Definition dials_to (network address : string) (tmo : Duration) (tr : list Event) : Prop :=
  Forall (fun e => match e with
                   | EvAct (Dial n a t) => n = network /\ a = address /\ t = tmo
                   | _ => True
                   end) tr.

(** ** More about the states of the scheduler of main.go *)

Module Sched2.
Import Main Sched.

(** The outcome a call of [Summary.Result] holds and has not printed yet is
    a success. *)
Definition holds_success (pc : RPc) : bool :=
  match pc with
  | RLock stats | RCount stats | RBranch stats =>
      match Error stats with None => true | Some _ => false end
  | _ => false
  end.

(** Calls of [time.Sleep] made when [Ping.Do] stands at [m], for an
    attempt count [c > 0] and with an interval set. *)
Definition slept (c : Z) (m : MPc) : Z :=
  match m with
  | MResolve => 0
  | MAdd i | MDispatch i | MCall i _ | MSleep i => i
  | MCheck i => i + 1
  | MWait | MStats | MExit => c
  end.

Definition is_resolve (m : MPc) : bool :=
  match m with MResolve => true | _ => false end.

Definition synchronous (m : MPc) : bool :=
  match m with MCall _ _ | MSleep _ => true | _ => false end.

(** What holds, besides [Inv], in every state [Ping.Do] reaches from the
    target [p0] after a successful resolution to the target [p1]. *)
Record Inv2 (flags : Flags) (p0 p1 : Ping) (st : State) : Prop := {
  i2_target : sh_p (g_sh st) = (if is_resolve (g_main st) then p0 else p1);
  i2_interval : 0 < DefaultInterval flags -> g_pool st = [];
  i2_slept : 0 < DefaultInterval flags -> 0 < DefaultCount flags ->
             sleeps (sh_tr (g_sh st)) = slept (DefaultCount flags) (g_main st);
  i2_concurrent : DefaultInterval flags <= 0 ->
                  synchronous (g_main st) = false /\ sleeps (sh_tr (g_sh st)) = 0;
  i2_dials : addr p1 <> "" ->
             dials (sh_tr (g_sh st)) = probe_attempts (sh_tr (g_sh st)) /\
             dials_to (net p1) (addr p1 ++ ":" ++ itoa (port p1))
                      (wrap64 (timeout p1 * second)) (sh_tr (g_sh st));
  i2_closes : closes (sh_tr (g_sh st))
              = success_lines (sh_tr (g_sh st)) + cnt holds_success (threads st);
  i2_last : g_main st = MExit ->
            exists tr s el o,
              sh_tr (g_sh st) = (tr ++ [EvOut o])%list /\
              render s (Some el) = Some (sh_s (g_sh st), o)
}.

End Sched2.

(** [main] of main.go, once [init] has left the variables [flags]: the state
    in which [ping.Do(summary)] is called; [now] is the clock reading kept
    in the aggregate. *)
Definition Main_main (flags : Flags) (now : Time) : Main.State :=
  Main.start (main_ping flags true) (main_summary (main_ping flags true) now).

(** A run of main.go, with the sample flags and every probe connecting, up
    to five and up to two hundred statements of [Ping.Do]. *)
Definition run5 : Main.State :=
  Main.Ping_Do_run flags0 lookup_ok probe_ok 9 5 (Main_main flags0 0).

Definition run200 : Main.State :=
  Main.Ping_Do_run flags0 lookup_ok probe_ok 9 200 (Main_main flags0 0).

(** ** main.go: the process, with the interrupt handler *)

Module Process.
Import Main.

(** Where the goroutine started by [Summary.Interrupt] stands. *)
Inductive HPc :=
| HWait    (* blocked on [<-c]: no signal yet *)
| HStats   (* a signal was received, before [s.Stats()] *)
| HExit.   (* before [os.Exit(1)] *)

(** The process: running, with the state of [ping.Do(summary)] and of the
    handler, or gone with an exit status, leaving a history. *)
Inductive Proc :=
| Alive (st : State) (h : HPc)
| Dead (code : Z) (tr : list Event).

Definition is_hexit (h : HPc) : bool :=
  match h with HExit => true | _ => false end.

Section Process.

Variable flags : Flags.
Variable lk : Lookup.

(** The next statement is one of [Ping.Do] or of its goroutines; or a signal
    arrives; or the handler renders the summary, reading the aggregate
    without the mutex; or the handler calls [os.Exit(1)]; or [main] returns
    because [ping.Do(summary)] has, and the process ends with status 0. *)
Inductive pstep : Proc -> Proc -> Prop :=
| p_run st st' h :
    step flags lk st st' ->
    pstep (Alive st h) (Alive st' h)
| p_signal st :
    pstep (Alive st HWait) (Alive st HStats)
| p_stats st elapsed s1 o :
    Summary_Stats (sh_s (g_sh st)) elapsed = Some (s1, o) ->
    pstep (Alive st HStats)
          (Alive {| g_sh := with_s (g_sh st) s1 [EvOut o]; g_main := g_main st;
                    g_pool := g_pool st |} HExit)
| p_exit st :
    pstep (Alive st HExit) (Dead 1 (sh_tr (g_sh st)))
| p_return st h :
    g_main st = MExit ->
    pstep (Alive st h) (Dead 0 (sh_tr (g_sh st))).

Inductive psteps : Proc -> Proc -> Prop :=
| psteps_refl x : psteps x x
| psteps_next x y z : psteps x y -> pstep y z -> psteps x z.

End Process.

(** [main]: [summary.Interrupt()] has started the handler, [ping.Do(summary)]
    is about to be called. *)
Definition boot (flags : Flags) (now : Time) : Proc :=
  Alive (Main_main flags now) HWait.

End Process.

(** ** part_000: [main], and the lines of a history in order *)

(** [func main()] of part_000: the aggregate starts from the zero values but
    for [NET]; [ping.Do(summary)] is run for at most [fuel] passes. *)
Definition Part000_main (flags : Flags) (world : nat -> Probe) (lk : Lookup)
    (fuel : nat) : Part000.Run :=
  Part000.Ping_Do flags world (main_ping flags true)
                  (main_summary (main_ping flags true) 0) lk fuel.

(** The probe of a target whose address is [a] gets a connection. *)
Definition connects (a : string) (w : Probe) : bool :=
  negb (is_empty a) && match pr_dial w with Connected _ => true | Refused _ => false end.

(** The outcome lines of a history, in order: [true] for a success line. *)
Definition line_outcome (e : Event) : list bool :=
  match e with
  | EvOut (OutSuccess _ _ _ _) => [true]
  | EvOut (OutFailure _ _ _ _) => [false]
  | _ => []
  end.

Definition line_outcomes (tr : list Event) : list bool := flat_map line_outcome tr.

(** A dial that is refused, and a world where every second dial is. *)
Definition probe_refused : Probe :=
  {| pr_now0 := 1; pr_now := 2; pr_dial := Refused "connection refused";
     pr_elapsed := 4 |}.

Definition world_mixed (k : nat) : Probe :=
  if Nat.even k then probe_ok else probe_refused.

(** * Properties *)

(** ** The embedding on sample inputs *)

Example Resolver_brackets_an_IPv6_answer :
  Resolver_of main_go flags0 ping0 lookup_ok
  = (set_addr ping0 "[2001:db8::1]", None).
Proof. reflexivity. Qed.

Example Resolver_rejects_an_empty_answer :
  Resolver_of part_000 flags0 ping0 lookup_empty = (ping0, Some "not found addr").
Proof. reflexivity. Qed.

Example Ping_dials_address_and_port :
  Main.Ping_Ping flags0 (set_addr ping0 "192.0.2.1") probe_ok
  = (set_addr ping0 "192.0.2.1",
     {| Time_ := 2; Duration_ := 3; Host := "example.org";
        SAddr := "192.0.2.7:50000"; DAddr := "192.0.2.1:80"; Error := None |},
     [Dial "tcp" "192.0.2.1:80" 1000000000; Close]).
Proof. reflexivity. Qed.

Example Stats_prints_upper_case_label :
  render summary0 None = Some (summary0, OutSummary "TCP" 0 0 0 0 0 None).
Proof. reflexivity. Qed.

Example Do_two_passes_without_count :
  match Part000.Ping_Do flags_c0 (fun _ => probe_ok) ping0 summary0 lookup_ok 2 with
  | Part000.Running l =>
      Part000.lp_i l = 0 /\ Count (Part000.lp_s l) = 2 /\
      SUM (Part000.lp_s l) = 6 /\ probe_attempts (Part000.lp_tr l) = 2
  | _ => False
  end.
Proof. vm_compute. repeat split. Qed.

Example Do_ten_attempts :
  match Part000.Ping_Do flags0 (fun _ => probe_ok) ping0 summary0 lookup_ok 12 with
  | Part000.Returned _ s tr =>
      Count s = 10 /\ AVG s = 3 /\ probe_attempts tr = 10 /\ dials tr = 10 /\
      summary_lines tr = 1 /\ last tr EvPing = EvOut (OutSummary "TCP" 3 3 3 10 0 None)
  | _ => False
  end.
Proof. vm_compute. repeat split. Qed.

Lemma Ping_Do_run_steps flags lk w el n : forall st,
  Main.steps flags lk st (Main.Ping_Do_run flags lk w el n st).
Proof.
  assert (T : forall a b d, Main.step flags lk a b -> Main.steps flags lk b d ->
                            Main.steps flags lk a d).
  { intros a b d Hab Hbd. induction Hbd as [| x y z _ IH Hyz].
    - eapply Main.steps_next; [apply Main.steps_refl | exact Hab].
    - eapply Main.steps_next; [apply IH, Hab | exact Hyz]. }
  induction n as [| n IH]; intros st; simpl.
  - apply Main.steps_refl.
  - destruct (Main.Ping_Do flags lk w el st) as [st' |] eqn:E.
    + eapply T; [eapply Main.step_main; exact E | apply IH].
    + apply Main.steps_refl.
Qed.

(** main.go tests [DefaultCount >= 0] where part_000 tests
    [DefaultCount > 0]: with [-c 0] and an interval, [Ping.Do] of main.go
    makes one attempt and returns. *)
Example Main_Do_count_zero_one_attempt :
  let st := Main.Ping_Do_run flags_c0 lookup_ok probe_ok 9 30
              (Main.start ping0 summary0) in
  Main.g_main st = Main.MExit /\
  probe_attempts (Main.sh_tr (Main.g_sh st)) = 1 /\
  summary_lines (Main.sh_tr (Main.g_sh st)) = 1 /\
  Count (Main.sh_s (Main.g_sh st)) = 1.
Proof. vm_compute. repeat split. Qed.

Example Main_Do_ten_attempts :
  let st := Main.Ping_Do_run flags0 lookup_ok probe_ok 9 200
              (Main.start ping0 summary0) in
  Main.g_main st = Main.MExit /\
  probe_attempts (Main.sh_tr (Main.g_sh st)) = 10 /\
  summary_lines (Main.sh_tr (Main.g_sh st)) = 1 /\
  last (Main.sh_tr (Main.g_sh st)) EvPing
    = EvOut (OutSummary "TCP" 3 3 3 10 0 (Some 9)).
Proof. vm_compute. repeat split. Qed.

(** ** 64-bit arithmetic *)

Lemma wrap64_range z : in_int64 (wrap64 z).
Proof.
  unfold in_int64, wrap64, two63, two64.
  pose proof (Z.mod_pos_bound (z + 2 ^ 63) (2 ^ 64) ltac:(lia)). lia.
Qed.

Lemma wrap64_small z : in_int64 z -> wrap64 z = z.
Proof.
  unfold in_int64, wrap64, two63, two64. intros H.
  rewrite Z.mod_small; lia.
Qed.

Lemma wrap64_add_l a b : wrap64 (wrap64 a + b) = wrap64 (a + b).
Proof.
  unfold wrap64.
  replace ((a + two63) mod two64 - two63 + b + two63)
    with ((a + two63) mod two64 + b) by lia.
  rewrite Zplus_mod_idemp_l. f_equal. f_equal. lia.
Qed.

Lemma wrap64_add_r a b : wrap64 (a + wrap64 b) = wrap64 (a + b).
Proof. rewrite (Z.add_comm a), wrap64_add_l. f_equal. lia. Qed.

Lemma wrap64_sub a b : wrap64 (wrap64 a - wrap64 b) = wrap64 (a - b).
Proof.
  unfold wrap64.
  replace ((a + two63) mod two64 - two63 - ((b + two63) mod two64 - two63) + two63)
    with (((a + two63) mod two64) - ((b + two63) mod two64) + two63) by lia.
  rewrite <- Zplus_mod_idemp_l, <- Zminus_mod, Zplus_mod_idemp_l.
  f_equal. f_equal. lia.
Qed.

Lemma wrap64_quot a b : in_int64 a -> 0 < b -> wrap64 (Z.quot a b) = Z.quot a b.
Proof.
  intros Ha Hb. apply wrap64_small. unfold in_int64, two63 in *.
  destruct (Z_le_gt_dec 0 a) as [H0 | H0].
  - pose proof (Z.quot_pos a b H0 Hb).
    pose proof (Z.quot_le_upper_bound a b a ltac:(lia)) as U.
    assert (a <= a * b) by nia.
    assert (a ÷ b <= a) by (apply Z.quot_le_upper_bound; lia). lia.
  - assert (E : a ÷ b = - ((- a) ÷ b)) by (rewrite Z.quot_opp_l; lia).
    assert (0 <= (- a) ÷ b) by (apply Z.quot_pos; lia).
    assert ((- a) ÷ b <= - a) by (apply Z.quot_le_upper_bound; nia). lia.
Qed.

(** ** Resolver *)

(** [ContainsRune s r] holds exactly when [r] is one of the bytes of [s]. *)
Lemma ContainsRune_get s r :
  ContainsRune s r = true <-> exists n, String.get n s = Some r.
Proof.
  induction s as [| c s IH]; simpl.
  - split; [discriminate | intros [n H]; destruct n; discriminate].
  - destruct (Ascii.eqb_spec c r) as [-> | Hne].
    + split; [exists O; reflexivity | reflexivity].
    + rewrite IH. split.
      * intros [n H]. exists (S n). exact H.
      * intros [[| n] H]; [congruence | exists n; exact H].
Qed.

Lemma Resolver_of_cases v flags p lk :
  Resolver_of v flags p lk =
  match lk_err lk with
  | Some e => (p, Some e)
  | None =>
      match lk_addr lk with
      | [] => (p, Some "not found addr")
      | a0 :: _ => (set_addr p (bracketed a0), None)
      end
  end.
Proof.
  destruct v; unfold Resolver_of, Part000.Ping_Resolver, Part001.Ping_Resolver,
    Main.Ping_Resolver, bracketed;
    destruct (lk_err lk); try reflexivity;
    destruct (lk_addr lk) as [| a0 rest]; try reflexivity;
    destruct (ContainsRune a0 ":"); reflexivity.
Qed.

(** C7.  In every variant [Resolver] returns a non-nil error exactly when the
    lookup failed or answered no address.  When it returns nil, the target's
    address is the first answer of the lookup, between square brackets when
    that answer contains a colon and as it is otherwise, and no other field
    of the target changes. *)
Theorem Resolver_error_iff_first_address :
  forall (v : Variant) (flags : Flags) (p : Ping) (lk : Lookup),
    (snd (Resolver_of v flags p lk) <> None <->
     (lk_err lk <> None \/ lk_addr lk = []))
    /\
    (snd (Resolver_of v flags p lk) = None <->
     exists a0,
       hd_error (lk_addr lk) = Some a0 /\
       lk_err lk = None /\
       fst (Resolver_of v flags p lk) = set_addr p (bracketed a0) /\
       addr (fst (Resolver_of v flags p lk)) =
         if ContainsRune a0 ":"%char then "[" ++ a0 ++ "]" else a0).
Proof.
  intros v flags p lk. rewrite Resolver_of_cases.
  destruct (lk_err lk) as [e |]; [| destruct (lk_addr lk) as [| a0 rest]]; simpl.
  - split; split; try discriminate.
    + intros _. left. discriminate.
    + intros (a0 & _ & H & _). discriminate.
  - split; split; try discriminate.
    + intros _. right. reflexivity.
    + intros (a0 & H & _). discriminate.
  - split; split.
    + intros H. exfalso. apply H. reflexivity.
    + intros [H | H]; [exfalso; apply H; reflexivity | discriminate].
    + intros _. exists a0. repeat split.
    + reflexivity.
Qed.

Lemma Resolver_failure_frame v flags p lk :
  snd (Resolver_of v flags p lk) <> None -> fst (Resolver_of v flags p lk) = p.
Proof.
  rewrite Resolver_of_cases.
  destruct (lk_err lk) as [e |]; [| destruct (lk_addr lk) as [| a0 rest]]; simpl;
    intros H; try reflexivity.
  exfalso. apply H. reflexivity.
Qed.

(** C10.  In every variant, when [Resolver] returns a non-nil error the
    target is exactly what it was before the call: the address field, and
    every other field, keeps its value. *)
Theorem Resolver_error_leaves_target :
  forall (v : Variant) (flags : Flags) (p : Ping) (lk : Lookup),
    snd (Resolver_of v flags p lk) <> None ->
    fst (Resolver_of v flags p lk) = p /\
    addr (fst (Resolver_of v flags p lk)) = addr p.
Proof.
  intros v flags p lk. rewrite Resolver_of_cases.
  destruct (lk_err lk) as [e |]; [| destruct (lk_addr lk) as [| a0 rest]]; simpl.
  - intros _. split; reflexivity.
  - intros _. split; reflexivity.
  - intros H. exfalso. apply H. reflexivity.
Qed.

Lemma Resolver_error_leaves_target_witness :
  snd (Resolver_of main_go flags0 ping0 lookup_empty) <> None /\
  fst (Resolver_of main_go flags0 ping0 lookup_empty) = ping0 /\
  addr (fst (Resolver_of main_go flags0 ping0 lookup_empty)) = addr ping0.
Proof.
  split.
  - simpl. discriminate.
  - apply (Resolver_error_leaves_target main_go flags0 ping0 lookup_empty).
    simpl. discriminate.
Defined.

(** ** Prober *)

(** C9.  In every variant, a probe of a target whose resolved address is the
    empty string returns at once: the outcome carries the error
    "invalid host" and the clock reading taken at entry, nothing is dialled,
    and the target is left as it was (the port, timeout and transport
    defaults are not applied). *)
Theorem Ping_empty_address_invalid_host :
  forall (v : Variant) (flags : Flags) (p : Ping) (w : Probe),
    addr p = "" ->
    exists stats,
      Ping_of v flags p w = (p, stats, []) /\
      Error stats = Some "invalid host" /\
      Time_ stats = pr_now0 w.
Proof.
  intros v flags p w Haddr.
  exists (invalid_host (pr_now0 w)).
  destruct v; unfold Ping_of, Part000.Ping_Ping, Part001.Ping_Ping, Main.Ping_Ping;
    rewrite Haddr; simpl; repeat split.
Qed.

Lemma Ping_empty_address_invalid_host_witness :
  addr (main_ping flags0 true) = "" /\
  exists stats,
    Ping_of main_go flags0 (main_ping flags0 true)
      {| pr_now0 := 1; pr_now := 2; pr_dial := Connected "192.0.2.7:50000";
         pr_elapsed := 3 |} = (main_ping flags0 true, stats, []) /\
    Error stats = Some "invalid host" /\
    Time_ stats = 1.
Proof.
  split.
  - reflexivity.
  - apply (Ping_empty_address_invalid_host main_go flags0 (main_ping flags0 true)
             {| pr_now0 := 1; pr_now := 2; pr_dial := Connected "192.0.2.7:50000";
                pr_elapsed := 3 |}).
    reflexivity.
Defined.

(** With a non-empty address the probe does dial, once. *)
Lemma Ping_nonempty_address_dials v flags p w :
  addr p <> "" ->
  dials (map EvAct (snd (Ping_of v flags p w))) = 1.
Proof.
  intros Haddr.
  assert (E : is_empty (addr p) = false) by (destruct (addr p); [congruence | reflexivity]).
  destruct v; unfold Ping_of, Part000.Ping_Ping, Part001.Ping_Ping, Main.Ping_Ping;
    rewrite E; simpl; unfold dial_actions; destruct (pr_dial w); reflexivity.
Qed.

(** ** Aggregator: rendering *)

Lemma render_cases s el :
  render s el =
  let count := sub64 (Count s) (ErrCount s) in
  let s1 := if Z.ltb 0 count then set_AVG s (wrap64 (Z.quot (SUM s) count)) else s in
  Some (s1, OutSummary (ToUpper (NET s)) (MAX s) (MIN s) (AVG s1)
                       (Count s) (ErrCount s) el).
Proof.
  unfold render, div64. cbv zeta.
  destruct (Z.ltb_spec 0 (sub64 (Count s) (ErrCount s))) as [H | H].
  - destruct (Z.eqb_spec (sub64 (Count s) (ErrCount s)) 0) as [E | E]; [lia |].
    reflexivity.
  - reflexivity.
Qed.

Lemma agg_run_total evs : forall s, exists s', agg_run s evs = Some s'.
Proof.
  induction evs as [| [p stats | el] evs IH]; intros s; simpl.
  - exists s. reflexivity.
  - apply IH.
  - rewrite render_cases. cbv zeta. apply IH.
Qed.

Lemma agg_run_app evs1 : forall evs2 s,
  agg_run s (evs1 ++ evs2) =
  match agg_run s evs1 with Some s1 => agg_run s1 evs2 | None => None end.
Proof.
  induction evs1 as [| [p stats | el] evs1 IH]; intros evs2 s; simpl.
  - reflexivity.
  - apply IH.
  - destruct (render s el) as [[s1 o] |]; [apply IH | reflexivity].
Qed.

(** What recording one outcome does to each field. *)
Lemma record_outcome_fields p s stats :
  let s' := fst (record_outcome p s stats) in
  Count s' = add64 (Count s) 1 /\
  ErrCount s' = (match Error stats with
                 | None => ErrCount s
                 | Some _ => add64 (ErrCount s) 1
                 end) /\
  SUM s' = (match Error stats with
            | None => add64 (SUM s) (Duration_ stats)
            | Some _ => SUM s
            end) /\
  NET s' = NET s /\ STime s' = STime s /\ AVG s' = AVG s.
Proof.
  unfold record_outcome, outcome_branch, count_incr.
  destruct (Error stats); simpl; repeat split.
Qed.

Lemma render_fields s el s' o :
  render s el = Some (s', o) ->
  Count s' = Count s /\ ErrCount s' = ErrCount s /\ SUM s' = SUM s /\
  MIN s' = MIN s /\ MAX s' = MAX s /\ NET s' = NET s /\ STime s' = STime s.
Proof.
  rewrite render_cases. cbv zeta. intros H. inversion H; subst s' o.
  destruct (0 <? sub64 (Count s) (ErrCount s))%Z; simpl; repeat split.
Qed.

(** The counters and the sum after a history, whatever the starting values. *)
Lemma agg_run_counters evs : forall s s' c e t,
  agg_run s evs = Some s' ->
  Count s = wrap64 c -> ErrCount s = wrap64 e -> SUM s = wrap64 t ->
  Count s' = wrap64 (c + attempts_recorded evs) /\
  ErrCount s' = wrap64 (e + errors evs) /\
  SUM s' = wrap64 (t + sumZ (successes evs)) /\
  NET s' = NET s /\ STime s' = STime s.
Proof.
  induction evs as [| [p stats | el] evs IH]; intros s s' c e t Hrun Hc He Ht; simpl in *.
  - inversion Hrun; subst s'. rewrite !Z.add_0_r. auto.
  - destruct (record_outcome_fields p s stats) as (Fc & Fe & Fs & Fn & Ft & _).
    destruct (Error stats) as [msg |].
    + apply (IH _ _ (c + 1) (e + 1) t) in Hrun.
      * rewrite Fn, Ft in Hrun.
        replace (c + (attempts_recorded evs + 1)) with (c + 1 + attempts_recorded evs) by lia.
        replace (e + (errors evs + 1)) with (e + 1 + errors evs) by lia.
        exact Hrun.
      * rewrite Fc, Hc. apply wrap64_add_l.
      * rewrite Fe, He. apply wrap64_add_l.
      * rewrite Fs. exact Ht.
    + apply (IH _ _ (c + 1) e (t + Duration_ stats)) in Hrun.
      * rewrite Fn, Ft in Hrun. simpl.
        replace (c + (attempts_recorded evs + 1)) with (c + 1 + attempts_recorded evs) by lia.
        replace (t + (Duration_ stats + sumZ (successes evs)))
          with (t + Duration_ stats + sumZ (successes evs)) by lia.
        exact Hrun.
      * rewrite Fc, Hc. apply wrap64_add_l.
      * rewrite Fe. exact He.
      * rewrite Fs, Ht. apply wrap64_add_l.
  - destruct (render s el) as [[s1 o] |] eqn:R; [| discriminate].
    apply render_fields in R. destruct R as (Rc & Re & Rs & _ & _ & Rn & Rt).
    apply (IH _ _ c e t) in Hrun; [| congruence ..].
    rewrite Rn, Rt in Hrun. exact Hrun.
Qed.

Lemma attempts_split evs :
  attempts_recorded evs = Z.of_nat (List.length (successes evs)) + errors evs.
Proof.
  induction evs as [| [p stats | el] evs IH]; simpl.
  - reflexivity.
  - destruct (Error stats); simpl List.length; lia.
  - exact IH.
Qed.

Lemma errors_nonneg evs : 0 <= errors evs.
Proof.
  induction evs as [| [p stats | el] evs IH]; simpl; try lia.
  destruct (Error stats); lia.
Qed.

(** While no success has been recorded the average stays at its initial
    zero and the number of successes the code computes is zero. *)
Lemma agg_run_no_success evs : forall s s',
  agg_run s evs = Some s' ->
  successes evs = [] ->
  AVG s = 0 -> sub64 (Count s) (ErrCount s) = 0 ->
  AVG s' = 0 /\ sub64 (Count s') (ErrCount s') = 0.
Proof.
  induction evs as [| [p stats | el] evs IH]; intros s s' Hrun Hsucc Havg Hsub; simpl in *.
  - inversion Hrun; subst. auto.
  - unfold record_outcome, outcome_branch, count_incr in Hrun.
    destruct (Error stats) as [msg |]; [| discriminate].
    simpl in Hrun. eapply IH in Hrun; auto.
    simpl. unfold sub64, add64 in *. rewrite wrap64_sub.
    replace (Count s + 1 - (ErrCount s + 1)) with (Count s - ErrCount s) by lia.
    exact Hsub.
  - rewrite render_cases in Hrun. cbv zeta in Hrun. rewrite Hsub in Hrun.
    simpl in Hrun. eapply IH in Hrun; auto.
Qed.


(** C8.  Rendering returns (it never panics), leaves [Count], [ErrCount],
    [MIN], [MAX] and [SUM] (and the label and the start time) as they were,
    and writes [AVG] as a function of [SUM], [Count] and [ErrCount] alone, or
    not at all.  A second rendering straight after the first changes nothing
    and prints the same label, maximum, minimum, average and counters; only
    the elapsed time, read from the clock by main.go, can differ. *)
Theorem Stats_frame_idempotent :
  forall (s : Summary) (el el' : option Duration),
  exists s' label mx mn avg c e,
    render s el = Some (s', OutSummary label mx mn avg c e el) /\
    Count s' = Count s /\ ErrCount s' = ErrCount s /\
    MIN s' = MIN s /\ MAX s' = MAX s /\ SUM s' = SUM s /\
    NET s' = NET s /\ STime s' = STime s /\
    AVG s' = (if Z.ltb 0 (sub64 (Count s) (ErrCount s))
              then wrap64 (Z.quot (SUM s) (sub64 (Count s) (ErrCount s)))
              else AVG s) /\
    render s' el' = Some (s', OutSummary label mx mn avg c e el').
Proof.
  intros s el el'. rewrite render_cases. cbv zeta.
  destruct (Z.ltb 0 (sub64 (Count s) (ErrCount s))) eqn:Hc.
  - do 7 eexists. split; [reflexivity |]. simpl. repeat (split; [reflexivity |]).
    rewrite render_cases. simpl. rewrite Hc. reflexivity.
  - do 7 eexists. split; [reflexivity |]. repeat (split; [reflexivity |]).
    rewrite render_cases. cbv zeta. rewrite Hc. reflexivity.
Qed.

(** C2.  Rendering never divides by zero: it returns for every aggregate
    whatsoever.  After any history of recorded outcomes and renderings that
    starts from the aggregate [main] creates, the printed average is
    [SUM / (Count - ErrCount)], Go's truncating division, whenever the
    difference the code computes is positive, and is 0 whenever no success
    has been recorded.  Below 2^63 recorded outcomes that difference is the
    number of successes. *)
Theorem Stats_average_no_division_by_zero :
  forall (p : Ping) (now : Time) (evs : list AggEvent) (el : option Duration),
    (forall s0 el0, render s0 el0 <> None) /\
    exists s s' o avg,
      agg_run (main_summary p now) evs = Some s /\
      render s el = Some (s', o) /\
      printed_avg o = Some avg /\
      (0 < sub64 (Count s) (ErrCount s) ->
       avg = Z.quot (SUM s) (sub64 (Count s) (ErrCount s))) /\
      (successes evs = [] -> avg = 0) /\
      (attempts_recorded evs < two63 ->
       sub64 (Count s) (ErrCount s) = Count s - ErrCount s /\
       Count s - ErrCount s = Z.of_nat (List.length (successes evs))).
Proof.
  intros p now evs el. split.
  { intros s0 el0. rewrite render_cases. discriminate. }
  destruct (agg_run_total evs (main_summary p now)) as [s Hrun].
  destruct (agg_run_counters evs _ s 0 0 0 Hrun eq_refl eq_refl eq_refl)
    as (Hc & He & Hs & _).
  simpl in Hc, He, Hs.
  pose proof (render_cases s el) as Hrender. cbv zeta in Hrender.
  do 4 eexists. split; [exact Hrun |]. split; [exact Hrender |].
  split; [reflexivity |]. split; [| split].
  - intros Hpos. apply Z.ltb_lt in Hpos. rewrite Hpos. simpl.
    apply wrap64_quot; [rewrite Hs; apply wrap64_range | apply Z.ltb_lt; exact Hpos].
  - intros Hnone.
    destruct (agg_run_no_success evs _ s Hrun Hnone eq_refl eq_refl) as [Havg Hsub].
    rewrite Hsub. simpl. exact Havg.
  - intros Hlt.
    pose proof (attempts_split evs) as Hsplit.
    pose proof (errors_nonneg evs) as Hen.
    assert (Hr : forall z, 0 <= z < two63 -> wrap64 z = z)
      by (intros z Hz; apply wrap64_small; unfold in_int64; lia).
    unfold sub64. rewrite Hc, He, wrap64_sub.
    rewrite (Hr (attempts_recorded evs)) by lia.
    rewrite (Hr (errors evs)) by lia.
    rewrite Hr by lia. lia.
Qed.

(** ** Aggregator: counters and sum *)

(** C5.  After any history, [Count] is the number of recorded outcomes,
    which is the number of successes plus the number of errors, and
    [ErrCount] is the number of errors; both as 64-bit integers, hence
    exactly so below 2^63 recorded outcomes. *)
Theorem Count_is_successes_plus_errors :
  forall (p : Ping) (now : Time) (evs : list AggEvent),
  exists s,
    agg_run (main_summary p now) evs = Some s /\
    attempts_recorded evs = Z.of_nat (List.length (successes evs)) + errors evs /\
    Count s = wrap64 (Z.of_nat (List.length (successes evs)) + errors evs) /\
    ErrCount s = wrap64 (errors evs) /\
    (attempts_recorded evs < two63 ->
     Count s = Z.of_nat (List.length (successes evs)) + errors evs /\
     ErrCount s = errors evs).
Proof.
  intros p now evs.
  destruct (agg_run_total evs (main_summary p now)) as [s Hrun].
  destruct (agg_run_counters evs _ s 0 0 0 Hrun eq_refl eq_refl eq_refl)
    as (Hc & He & _).
  simpl in Hc, He.
  pose proof (attempts_split evs) as Hsplit.
  pose proof (errors_nonneg evs) as Hen.
  exists s. split; [exact Hrun |]. split; [exact Hsplit |].
  split; [rewrite <- Hsplit; exact Hc |]. split; [exact He |].
  intros Hlt. rewrite Hc, He, <- Hsplit.
  split; apply wrap64_small; unfold in_int64; lia.
Qed.

(** C6.  After any history, [SUM] is the sum of the durations of the
    error-free outcomes, as a 64-bit integer, hence exactly so when that sum
    fits in 64 bits; recording an outcome with an error leaves [SUM] as it
    is. *)
Theorem SUM_is_sum_of_successes :
  forall (p : Ping) (now : Time) (evs : list AggEvent),
  exists s,
    agg_run (main_summary p now) evs = Some s /\
    SUM s = wrap64 (sumZ (successes evs)) /\
    (in_int64 (sumZ (successes evs)) -> SUM s = sumZ (successes evs)) /\
    (forall q stats,
       Error stats <> None -> SUM (fst (record_outcome q s stats)) = SUM s).
Proof.
  intros p now evs.
  destruct (agg_run_total evs (main_summary p now)) as [s Hrun].
  destruct (agg_run_counters evs _ s 0 0 0 Hrun eq_refl eq_refl eq_refl)
    as (_ & _ & Hs & _).
  simpl in Hs.
  exists s. split; [exact Hrun |]. split; [exact Hs |]. split.
  - intros Hr. rewrite Hs. apply wrap64_small. exact Hr.
  - intros q stats Herr.
    destruct (record_outcome_fields q s stats) as (_ & _ & F & _).
    destruct (Error stats); [exact F | congruence].
Qed.

(** ** Aggregator: minimum and maximum *)

Lemma record_outcome_minmax p s stats :
  let s' := fst (record_outcome p s stats) in
  match Error stats with
  | Some _ => MIN s' = MIN s /\ MAX s' = MAX s
  | None =>
      MIN s' = (if Z.ltb (Duration_ stats) (MIN s) || Z.eqb (MIN s) 0
                then Duration_ stats else MIN s) /\
      MAX s' = (if Z.ltb (MAX s) (Duration_ stats) then Duration_ stats else MAX s)
  end.
Proof.
  unfold record_outcome, outcome_branch, count_incr.
  destruct (Error stats); simpl; split; reflexivity.
Qed.

(** Every recorded success is at most [MAX]. *)
Lemma MAX_upper_bound evs : forall s s' seen,
  agg_run s evs = Some s' ->
  (forall d, In d seen -> d <= MAX s) ->
  forall d, In d (seen ++ successes evs) -> d <= MAX s'.
Proof.
  induction evs as [| [p stats | el] evs IH]; intros s s' seen Hrun Hseen; simpl in *.
  - inversion Hrun; subst s'. rewrite app_nil_r. exact Hseen.
  - pose proof (record_outcome_minmax p s stats) as F. cbv zeta in F.
    destruct (Error stats) as [msg |].
    + destruct F as [_ FM]. apply (IH _ _ seen Hrun).
      intros d Hd. rewrite FM. auto.
    + destruct F as [_ FM].
      replace (seen ++ Duration_ stats :: successes evs)%list
        with ((seen ++ [Duration_ stats]) ++ successes evs)%list
        by (rewrite <- app_assoc; reflexivity).
      apply (IH _ _ _ Hrun).
      intros d Hd. rewrite FM. apply in_app_or in Hd.
      destruct (Z.ltb_spec (MAX s) (Duration_ stats)).
      * destruct Hd as [Hd | [<- | []]]; [apply Hseen in Hd |]; lia.
      * destruct Hd as [Hd | [<- | []]]; [apply Hseen in Hd |]; lia.
  - destruct (render s el) as [[s1 o] |] eqn:R; [| discriminate].
    apply render_fields in R. destruct R as (_ & _ & _ & _ & RM & _).
    apply (IH _ _ seen Hrun). intros d Hd. rewrite RM. auto.
Qed.

(** [MIN] is at most every success recorded after the last success of
    duration zero, and is not zero once there is one. *)
Lemma MIN_lower_bound evs : forall s s' acc,
  agg_run s evs = Some s' ->
  (forall d, In d acc -> MIN s <= d) -> (acc <> [] -> MIN s <> 0) ->
  (forall d, In d (since_zero_from acc (successes evs)) -> MIN s' <= d) /\
  (since_zero_from acc (successes evs) <> [] -> MIN s' <> 0).
Proof.
  induction evs as [| [p stats | el] evs IH]; intros s s' acc Hrun Hacc Hnz; simpl in *.
  - inversion Hrun; subst s'. auto.
  - pose proof (record_outcome_minmax p s stats) as F. cbv zeta in F.
    destruct (Error stats) as [msg |].
    + destruct F as [Fm _]. apply (IH _ _ acc Hrun); rewrite Fm; assumption.
    + destruct F as [Fm _]. simpl. apply (IH _ _ _ Hrun); rewrite Fm.
      * intros d Hd.
        destruct (Z.eqb_spec (Duration_ stats) 0) as [E0 | E0]; [destruct Hd |].
        apply in_app_or in Hd.
        destruct (Z.ltb_spec (Duration_ stats) (MIN s)) as [Hlt | Hge]; simpl.
        -- destruct Hd as [Hd | [<- | []]]; [apply Hacc in Hd |]; lia.
        -- destruct (Z.eqb_spec (MIN s) 0) as [Ez | Ez].
           ++ destruct Hd as [Hd | [<- | []]]; [| lia].
              exfalso. apply Hnz; [| exact Ez]. intros ->. destruct Hd.
           ++ destruct Hd as [Hd | [<- | []]]; [apply Hacc in Hd |]; lia.
      * intros Hne.
        destruct (Z.eqb_spec (Duration_ stats) 0) as [E0 | E0];
          [exfalso; apply Hne; reflexivity |].
        destruct (Z.ltb_spec (Duration_ stats) (MIN s)) as [Hlt | Hge]; simpl;
          [exact E0 |].
        destruct (Z.eqb_spec (MIN s) 0) as [Ez | Ez]; assumption.
  - destruct (render s el) as [[s1 o] |] eqn:R; [| discriminate].
    apply render_fields in R. destruct R as (_ & _ & _ & Rm & _).
    apply (IH _ _ acc Hrun); rewrite Rm; assumption.
Qed.

(** Without a zero, nothing is forgotten. *)
Lemma since_zero_from_nonzero l : forall acc,
  (forall d, In d l -> d <> 0) -> since_zero_from acc l = (acc ++ l)%list.
Proof.
  induction l as [| d l IH]; intros acc Hnz; simpl.
  - symmetry. apply app_nil_r.
  - destruct (Z.eqb_spec d 0) as [E | E]; [exfalso; apply (Hnz d); simpl; auto |].
    rewrite IH by (intros x Hx; apply Hnz; simpl; auto).
    rewrite <- app_assoc. reflexivity.
Qed.

(** What precedes a zero is forgotten. *)
Lemma since_zero_from_zero l1 : forall acc l2,
  since_zero_from acc (l1 ++ 0 :: l2) = since_zero_from [] l2.
Proof.
  induction l1 as [| d l1 IH]; intros acc l2; simpl.
  - reflexivity.
  - apply IH.
Qed.

(** With positive durations, [MIN] and [MAX] are among the successes. *)
Lemma MIN_MAX_attained evs : forall s s' seen,
  agg_run s evs = Some s' ->
  (forall d, In d (successes evs) -> 0 < d) ->
  (seen = [] /\ MIN s = 0 /\ MAX s = 0) \/
  (In (MIN s) seen /\ In (MAX s) seen /\ MIN s <> 0) ->
  (seen ++ successes evs = [] /\ MIN s' = 0 /\ MAX s' = 0)%list \/
  (In (MIN s') (seen ++ successes evs) /\ In (MAX s') (seen ++ successes evs) /\
   MIN s' <> 0).
Proof.
  induction evs as [| [p stats | el] evs IH]; intros s s' seen Hrun Hpos Hinv; simpl in *.
  - inversion Hrun; subst s'. rewrite app_nil_r. exact Hinv.
  - pose proof (record_outcome_minmax p s stats) as F. cbv zeta in F.
    destruct (Error stats) as [msg |].
    + destruct F as [Fm FM]. apply (IH _ _ seen Hrun Hpos). rewrite Fm, FM. exact Hinv.
    + destruct F as [Fm FM].
      assert (Hd : 0 < Duration_ stats) by (apply Hpos; simpl; auto).
      replace (seen ++ Duration_ stats :: successes evs)%list
        with ((seen ++ [Duration_ stats]) ++ successes evs)%list
        by (rewrite <- app_assoc; reflexivity).
      apply (IH _ _ _ Hrun); [intros d Hin; apply Hpos; simpl; auto |].
      right. rewrite Fm, FM.
      destruct Hinv as [(-> & Em & EM) | (Im & IM & Nz)].
      * rewrite Em, EM. simpl.
        replace (Duration_ stats <? 0)%Z with false by (symmetry; apply Z.ltb_ge; lia).
        replace (0 <? Duration_ stats)%Z with true by (symmetry; apply Z.ltb_lt; lia).
        simpl. repeat split; auto; lia.
      * destruct (Z.ltb_spec (Duration_ stats) (MIN s));
          destruct (Z.eqb_spec (MIN s) 0); destruct (Z.ltb_spec (MAX s) (Duration_ stats));
          simpl; repeat split; try (apply in_or_app; simpl; auto; fail); lia.
  - destruct (render s el) as [[s1 o] |] eqn:R; [| discriminate].
    apply render_fields in R. destruct R as (_ & _ & _ & Rm & RM & _).
    apply (IH _ _ seen Hrun Hpos). rewrite Rm, RM. exact Hinv.
Qed.




Lemma Stats_average_no_division_by_zero_witness :
  (exists s s' o avg,
     agg_run summary0 history_positive = Some s /\
     render s (Some 9) = Some (s', o) /\
     printed_avg o = Some avg /\
     avg = Z.quot (SUM s) (sub64 (Count s) (ErrCount s)) /\
     Count s - ErrCount s = 2) /\
  (exists s s' o,
     agg_run summary0 history_errors = Some s /\
     render s None = Some (s', o) /\
     printed_avg o = Some 0).
Proof.
  split.
  - destruct (Stats_average_no_division_by_zero ping0 0 history_positive (Some 9))
      as (_ & s & s' & o & avg & Hrun & Hr & Ho & Hpos & _ & Hcnt).
    exists s, s', o, avg. repeat (split; [assumption |]).
    assert (E : s = {| NET := "tcp"; MAX := 5; MIN := 3; AVG := 4; SUM := 8;
                       Count := 3; ErrCount := 1; STime := 0 |}).
    { vm_compute in Hrun. congruence. }
    split.
    + apply Hpos. rewrite E. vm_compute. reflexivity.
    + apply Hcnt. vm_compute. reflexivity.
  - destruct (Stats_average_no_division_by_zero ping0 0 history_errors None)
      as (_ & s & s' & o & avg & Hrun & Hr & Ho & _ & Hzero & _).
    exists s, s', o. rewrite <- (Hzero eq_refl). auto.
Defined.

Lemma Count_is_successes_plus_errors_witness :
  exists s,
    agg_run summary0 history_with_zero = Some s /\
    Count s = 3 + 1 /\ ErrCount s = 1.
Proof.
  destruct (Count_is_successes_plus_errors ping0 0 history_with_zero)
    as (s & Hrun & _ & _ & _ & H).
  exists s. split; [exact Hrun |].
  apply H. vm_compute. reflexivity.
Defined.

Lemma SUM_is_sum_of_successes_witness :
  exists s,
    agg_run summary0 history_with_zero = Some s /\
    SUM s = 5 + 0 + 3.
Proof.
  destruct (SUM_is_sum_of_successes ping0 0 history_with_zero)
    as (s & Hrun & _ & H & _).
  exists s. split; [exact Hrun |].
  apply H. vm_compute. split; [discriminate | reflexivity].
Defined.

(** ** Histories of events *)

Lemma count_ev_app f tr1 tr2 :
  count_ev f (tr1 ++ tr2) = count_ev f tr1 + count_ev f tr2.
Proof.
  unfold count_ev. rewrite filter_app, length_app. lia.
Qed.

Lemma count_ev_cons f e tr :
  count_ev f (e :: tr) = (if f e then 1 else 0) + count_ev f tr.
Proof.
  unfold count_ev. simpl. destruct (f e); simpl List.length; lia.
Qed.

Lemma count_ev_acts f acts :
  (forall a, f (EvAct a) = false) -> count_ev f (map EvAct acts) = 0.
Proof.
  intros Hf. induction acts as [| a acts IH]; [reflexivity |].
  simpl map. rewrite count_ev_cons, Hf, IH. reflexivity.
Qed.

Lemma count_ev_nonneg f tr : 0 <= count_ev f tr.
Proof. unfold count_ev. lia. Qed.

Lemma history_app tr1 tr2 : history (tr1 ++ tr2) = (history tr1 ++ history tr2)%list.
Proof. unfold history. apply flat_map_app. Qed.

Lemma history_acts acts : history (map EvAct acts) = [].
Proof. induction acts as [| a acts IH]; [reflexivity | exact IH]. Qed.

Lemma attempts_recorded_app evs1 evs2 :
  attempts_recorded (evs1 ++ evs2) = attempts_recorded evs1 + attempts_recorded evs2.
Proof.
  induction evs1 as [| [p stats | el] evs1 IH]; simpl; lia.
Qed.

(** The line printed when an outcome is recorded is an outcome line, and the
    aggregate can be recomputed from it. *)
Lemma outcome_branch_line p s stats :
  let '(s1, o) := outcome_branch p (count_incr s) stats in
  is_ping (EvOut o) = false /\ is_summary (EvOut o) = false /\
  attempts_recorded (history_event (EvOut o)) = 1 /\
  agg_run s (history_event (EvOut o)) = Some s1.
Proof.
  unfold outcome_branch.
  destruct (Error stats) as [msg |] eqn:E; simpl;
    unfold record_outcome, outcome_branch; simpl; repeat split.
Qed.

Lemma render_line s el s1 o :
  render s el = Some (s1, o) ->
  is_ping (EvOut o) = false /\ is_summary (EvOut o) = true /\
  history_event (EvOut o) = [Rendered el].
Proof.
  rewrite render_cases. cbv zeta. intros H. inversion H. repeat split.
Qed.

(** ** part_000: the loop *)

Import Part000.

Section Part000_loop.

Variable flags : Flags.
Variable world : nat -> Probe.

Let c := DefaultCount flags.

Lemma iteration_effect l l' b :
  Part000.iteration flags world l = (l', b) ->
  lp_n l' = S (lp_n l) /\
  probe_attempts (lp_tr l') = probe_attempts (lp_tr l) + 1 /\
  summary_lines (lp_tr l') = summary_lines (lp_tr l) /\
  attempts_recorded (history (lp_tr l')) = attempts_recorded (history (lp_tr l)) + 1 /\
  (forall s0, agg_run s0 (history (lp_tr l)) = Some (lp_s l) ->
              agg_run s0 (history (lp_tr l')) = Some (lp_s l')) /\
  lp_i l' = (if Z.ltb 0 c then add64 (lp_i l) 1 else lp_i l) /\
  b = (Z.ltb 0 c && Z.leb c (add64 (lp_i l) 1))%bool.
Proof.
  unfold Part000.iteration. fold c.
  destruct (Part000.Ping_Ping flags (lp_p l) (world (lp_n l))) as [[p1 stats] acts].
  pose proof (outcome_branch_line p1 (lp_s l) stats) as L.
  unfold record_outcome.
  destruct (outcome_branch p1 (count_incr (lp_s l)) stats) as [s1 o].
  destruct L as (L1 & L2 & L3 & L4).
  assert (Hnap : forall nap,
             nap = (if Z.ltb 0 (DefaultInterval flags) then [sleep_interval flags] else []) ->
             probe_attempts nap = 0 /\ summary_lines nap = 0 /\ history nap = []).
  { intros nap ->. destruct (Z.ltb 0 (DefaultInterval flags)); repeat split. }
  destruct (Hnap _ eq_refl) as (N1 & N2 & N3).
  assert (T1 : count_ev is_ping (EvPing :: map EvAct acts ++ [EvOut o]) = 1).
  { rewrite count_ev_cons, count_ev_app, count_ev_acts by reflexivity.
    rewrite count_ev_cons, L1. reflexivity. }
  assert (T2 : count_ev is_summary (EvPing :: map EvAct acts ++ [EvOut o]) = 0).
  { rewrite count_ev_cons, count_ev_app, count_ev_acts by reflexivity.
    rewrite count_ev_cons, L2. reflexivity. }
  assert (T3 : history (EvPing :: map EvAct acts ++ [EvOut o])
               = history_event (EvOut o)).
  { change (EvPing :: map EvAct acts ++ [EvOut o])%list
      with ([EvPing] ++ map EvAct acts ++ [EvOut o])%list.
    rewrite !history_app, history_acts. simpl. apply app_nil_r. }
  assert (A1 : forall s0 tr, agg_run s0 (history tr) = Some (lp_s l) ->
                 agg_run s0 (history tr ++ history_event (EvOut o)) = Some s1).
  { intros s0 tr H. rewrite agg_run_app, H. exact L4. }
  destruct (Z.ltb 0 c); [destruct (Z.leb c (add64 (lp_i l) 1)) |];
    intros H; inversion H; subst l' b; simpl;
    unfold probe_attempts, summary_lines in *;
    rewrite ?count_ev_app, ?history_app, ?N1, ?N2, ?N3, ?T1, ?T2, ?T3,
      ?attempts_recorded_app, ?L3, ?app_nil_r, ?Z.add_0_r;
    repeat split; auto.
Qed.

Lemma grown_refl l : grown 0 l l.
Proof.
  unfold grown. rewrite Nat.add_0_r, !Z.add_0_r. repeat split; auto.
Qed.

Lemma grown_step k l l1 l' b :
  iteration flags world l = (l1, b) -> grown k l1 l' -> grown (S k) l l'.
Proof.
  intros Hit (G1 & G2 & G3 & G4 & G5).
  apply iteration_effect in Hit. destruct Hit as (E1 & E2 & E3 & E4 & E5 & _).
  unfold grown. rewrite G1, G2, G3, G4, E1, E2, E3, E4.
  repeat split; try lia. intros s0 H. apply G5, E5, H.
Qed.

(** With a positive attempt count the loop is left by the pass that brings
    [i] to the count, and by no earlier one. *)
Lemma loop_running k : forall l,
  0 < c < two63 -> 0 <= lp_i l -> lp_i l + Z.of_nat k < c ->
  exists l', loop flags world k l = (l', false) /\
             lp_i l' = lp_i l + Z.of_nat k /\ grown k l l'.
Proof.
  induction k as [| k IH]; intros l Hc Hi Hk.
  - exists l. simpl. rewrite Z.add_0_r. auto using grown_refl.
  - simpl loop. destruct (iteration flags world l) as [l1 b] eqn:Hit.
    pose proof (iteration_effect _ _ _ Hit) as (_ & _ & _ & _ & _ & Ei & Eb).
    assert (Hadd : add64 (lp_i l) 1 = lp_i l + 1).
    { apply wrap64_small. unfold in_int64, two63 in *. lia. }
    rewrite Hadd in Ei, Eb.
    replace (Z.ltb 0 c) with true in Ei, Eb by (symmetry; apply Z.ltb_lt; lia).
    replace (Z.leb c (lp_i l + 1)) with false in Eb by (symmetry; apply Z.leb_gt; lia).
    simpl in Eb. subst b.
    destruct (IH l1) as (l' & Hl & Hi' & Hg); [exact Hc | lia | lia |].
    exists l'. split; [exact Hl |]. split; [lia |].
    eapply grown_step; eassumption.
Qed.

Lemma loop_budget l :
  0 < c < two63 -> 0 <= lp_i l < c ->
  exists l', loop flags world (Z.to_nat (c - lp_i l)) l = (l', true) /\
             lp_i l' = c /\ grown (Z.to_nat (c - lp_i l)) l l'.
Proof.
  intros Hc Hi.
  remember (Z.to_nat (c - lp_i l - 1)) as k eqn:Ek.
  replace (Z.to_nat (c - lp_i l)) with (k + 1)%nat by lia.
  destruct (loop_running k l Hc) as (l1 & Hl & Hi1 & Hg); [lia | lia |].
  assert (Hiter : exists l', iteration flags world l1 = (l', true) /\ lp_i l' = c /\
                             grown 1 l1 l').
  { destruct (iteration flags world l1) as [l' b] eqn:Hit.
    pose proof (iteration_effect _ _ _ Hit) as (_ & _ & _ & _ & _ & Ei & Eb).
    assert (Hadd : add64 (lp_i l1) 1 = lp_i l1 + 1).
    { apply wrap64_small. unfold in_int64, two63 in *. lia. }
    rewrite Hadd in Ei, Eb.
    replace (Z.ltb 0 c) with true in Ei, Eb by (symmetry; apply Z.ltb_lt; lia).
    replace (Z.leb c (lp_i l1 + 1)) with true in Eb by (symmetry; apply Z.leb_le; lia).
    simpl in Eb. subst b. exists l'. split; [reflexivity |]. split; [lia |].
    eapply grown_step; [exact Hit | apply grown_refl]. }
  destruct Hiter as (l' & Hit & Hi' & Hg').
  exists l'. split; [| split; [exact Hi' |]].
  - clear - Hl Hit. revert l Hl. induction k as [| k IH]; intros l Hl; simpl in *.
    + inversion Hl; subst l1. rewrite Hit. reflexivity.
    + destruct (iteration flags world l) as [l2 b]. destruct b; [discriminate |].
      apply IH, Hl.
  - destruct Hg as (G1 & G2 & G3 & G4 & G5). destruct Hg' as (H1 & H2 & H3 & H4 & H5).
    unfold grown. rewrite H1, H2, H3, H4, G1, G2, G3, G4.
    repeat split; try lia. intros s0 H. apply H5, G5, H.
Qed.

(** Once the loop is left, more fuel changes nothing. *)
Lemma loop_more_fuel n : forall l l' m,
  loop flags world n l = (l', true) -> loop flags world (n + m) l = (l', true).
Proof.
  induction n as [| n IH]; intros l l' m H; simpl in *.
  - discriminate.
  - destruct (iteration flags world l) as [l1 b]. destruct b; [exact H |].
    apply IH, H.
Qed.

(** With an attempt count of zero or less the loop is never left. *)
Lemma loop_unbounded k : forall l,
  c <= 0 ->
  exists l', loop flags world k l = (l', false) /\ grown k l l'.
Proof.
  induction k as [| k IH]; intros l Hc.
  - exists l. simpl. auto using grown_refl.
  - simpl loop. destruct (iteration flags world l) as [l1 b] eqn:Hit.
    pose proof (iteration_effect _ _ _ Hit) as (_ & _ & _ & _ & _ & _ & Eb).
    replace (Z.ltb 0 c) with false in Eb by (symmetry; apply Z.ltb_ge; lia).
    simpl in Eb. subst b.
    destruct (IH l1 Hc) as (l' & Hl & Hg).
    exists l'. split; [exact Hl |]. eapply grown_step; eassumption.
Qed.

(** In every pass the aggregate is what the printed outcome lines add up
    to, whatever the attempt count. *)
Lemma loop_aggregate fuel : forall l l' b s0,
  loop flags world fuel l = (l', b) ->
  agg_run s0 (history (lp_tr l)) = Some (lp_s l) ->
  agg_run s0 (history (lp_tr l')) = Some (lp_s l').
Proof.
  induction fuel as [| fuel IH]; intros l l' b s0 Hl Hagg; simpl in Hl.
  - inversion Hl; subst. exact Hagg.
  - destruct (iteration flags world l) as [l1 b1] eqn:Hit.
    pose proof (iteration_effect _ _ _ Hit) as (_ & _ & _ & _ & E & _).
    destruct b1.
    + inversion Hl; subst. apply E, Hagg.
    + eapply IH; [exact Hl | apply E, Hagg].
Qed.

(** [Ping.Do] of part_000 after a successful resolution, attempt count
    positive: with fuel for [c] passes or more it returns, having called
    [Ping] [c] times and printed one summary line, the last line. *)
Lemma Part000_Do_returns p s lk fuel :
  snd (Part000.Ping_Resolver p lk) = None ->
  0 < c < two63 -> (Z.to_nat c <= fuel)%nat ->
  exists p' s' tr,
    Part000.Ping_Do flags world p s lk fuel = Returned p' s' tr /\
    probe_attempts tr = c /\ summary_lines tr = 1 /\ ends_with_summary tr /\
    attempts_recorded (history tr) = c /\
    agg_run s (history tr) = Some s'.
Proof.
  intros Hres Hc Hfuel. unfold Part000.Ping_Do.
  destruct (Part000.Ping_Resolver p lk) as [p1 err]. simpl in Hres. subst err.
  set (l0 := {| lp_p := p1; lp_s := s; lp_i := 0; lp_n := 0; lp_tr := [] |}).
  destruct (loop_budget l0 Hc) as (l' & Hl & _ & G1 & G2 & G3 & G4 & G5);
    [simpl; lia |].
  simpl lp_i in *. rewrite Z.sub_0_r in *.
  replace fuel with (Z.to_nat c + (fuel - Z.to_nat c))%nat by lia.
  rewrite (loop_more_fuel _ _ _ _ Hl).
  unfold Part000.Summary_Stats.
  destruct (render (lp_s l') None) as [[s1 o] |] eqn:R;
    [| rewrite render_cases in R; discriminate].
  destruct (render_line _ _ _ _ R) as (R1 & R2 & R3).
  exists (lp_p l'), s1, (lp_tr l' ++ [EvOut o])%list.
  split; [reflexivity |].
  unfold probe_attempts, summary_lines in *.
  assert (Hh : history [EvOut o] = [Rendered None]).
  { unfold history. cbn [flat_map]. rewrite R3. reflexivity. }
  rewrite !count_ev_app, !count_ev_cons, R1, R2, history_app, attempts_recorded_app, Hh.
  change (count_ev is_ping []) with 0. change (count_ev is_summary []) with 0.
  rewrite G2, G3, G4. simpl.
  repeat split; try lia.
  - exists (lp_tr l'), o. auto.
  - rewrite agg_run_app, (G5 s eq_refl). simpl. rewrite R. reflexivity.
Qed.

(** With less fuel it is still in the loop, one call of [Ping] per pass. *)
Lemma Part000_Do_running p s lk fuel :
  snd (Part000.Ping_Resolver p lk) = None ->
  0 < c < two63 -> Z.of_nat fuel < c ->
  exists l,
    Part000.Ping_Do flags world p s lk fuel = Running l /\
    probe_attempts (lp_tr l) = Z.of_nat fuel /\ summary_lines (lp_tr l) = 0.
Proof.
  intros Hres Hc Hfuel. unfold Part000.Ping_Do.
  destruct (Part000.Ping_Resolver p lk) as [p1 err]. simpl in Hres. subst err.
  set (l0 := {| lp_p := p1; lp_s := s; lp_i := 0; lp_n := 0; lp_tr := [] |}).
  destruct (loop_running fuel l0 Hc) as (l' & Hl & _ & G1 & G2 & G3 & _);
    [simpl; lia | simpl; lia |].
  rewrite Hl. exists l'. split; [reflexivity |].
  rewrite G2, G3. simpl. split; reflexivity.
Qed.

(** Attempt count zero or negative: whatever the fuel, [Ping.Do] of part_000
    is still in the loop, and has made as many calls of [Ping] as the fuel
    allows passes. *)
Lemma Part000_Do_unbounded p s lk fuel :
  snd (Part000.Ping_Resolver p lk) = None ->
  c <= 0 ->
  exists l,
    Part000.Ping_Do flags world p s lk fuel = Running l /\
    probe_attempts (lp_tr l) = Z.of_nat fuel /\ summary_lines (lp_tr l) = 0.
Proof.
  intros Hres Hc. unfold Part000.Ping_Do.
  destruct (Part000.Ping_Resolver p lk) as [p1 err]. simpl in Hres. subst err.
  set (l0 := {| lp_p := p1; lp_s := s; lp_i := 0; lp_n := 0; lp_tr := [] |}).
  destruct (loop_unbounded fuel l0 Hc) as (l' & Hl & G1 & G2 & G3 & _).
  rewrite Hl. exists l'. split; [reflexivity |].
  rewrite G2, G3. simpl. split; reflexivity.
Qed.

(** Resolution failed: [Ping.Do] of part_000 returns at once, whatever the
    fuel, having printed the error and nothing else. *)
Lemma Part000_Do_resolution_failed p s lk fuel e :
  snd (Part000.Ping_Resolver p lk) = Some e ->
  Part000.Ping_Do flags world p s lk fuel = Returned p s [EvOut (OutError e)].
Proof.
  intros Hres. unfold Part000.Ping_Do.
  pose proof (Resolver_failure_frame part_000 flags p lk) as Hp.
  unfold Resolver_of in Hp.
  destruct (Part000.Ping_Resolver p lk) as [p1 err]. simpl in *. subst err.
  rewrite Hp by discriminate. reflexivity.
Qed.

End Part000_loop.

(** ** main.go: the scheduler *)

Import Main Sched.

Lemma cnt_cons f pc l : cnt f (pc :: l) = b2z (f pc) + cnt f l.
Proof. reflexivity. Qed.

Lemma cnt_nil f : cnt f [] = 0.
Proof. reflexivity. Qed.

Lemma b2z_range b : 0 <= b2z b <= 1.
Proof. destruct b; simpl; lia. Qed.

Lemma cnt_app f l1 l2 : cnt f (l1 ++ l2) = cnt f l1 + cnt f l2.
Proof.
  induction l1 as [| pc l1 IH]; [reflexivity |].
  rewrite <- app_comm_cons, !cnt_cons, IH. lia.
Qed.

Lemma cnt_nonneg f l : 0 <= cnt f l.
Proof.
  induction l as [| pc l IH]; [rewrite cnt_nil; lia |].
  rewrite cnt_cons. pose proof (b2z_range (f pc)). lia.
Qed.

Lemma cnt_threads f sh m pool :
  cnt f (threads {| g_sh := sh; g_main := m; g_pool := pool |})
  = main_cnt f m + cnt f pool.
Proof. unfold threads. destruct m; reflexivity. Qed.

Lemma cnt_pos_split f l :
  0 < cnt f l -> exists l1 pc l2, l = (l1 ++ pc :: l2)%list /\ f pc = true.
Proof.
  induction l as [| pc l IH]; [rewrite cnt_nil; lia |].
  rewrite cnt_cons. destruct (f pc) eqn:E.
  - intros _. exists [], pc, l. auto.
  - simpl. intros H. destruct (IH H) as (l1 & q & l2 & -> & Hq).
    exists (pc :: l1), q, l2. auto.
Qed.

Lemma cnt_le f g l : (forall pc, f pc = true -> g pc = true) -> cnt f l <= cnt g l.
Proof.
  intros H. induction l as [| pc l IH]; [rewrite !cnt_nil; lia |].
  rewrite !cnt_cons. destruct (f pc) eqn:E.
  - rewrite (H _ E). lia.
  - pose proof (b2z_range (g pc)). simpl. lia.
Qed.

Lemma rem_nonneg pc : 0 <= rem pc.
Proof. destruct pc; simpl; lia. Qed.

Lemma rem_all_cons pc l : rem_all (pc :: l) = rem pc + rem_all l.
Proof. reflexivity. Qed.

Lemma rem_all_app l1 l2 : rem_all (l1 ++ l2) = rem_all l1 + rem_all l2.
Proof.
  induction l1 as [| pc l1 IH]; [reflexivity |].
  rewrite <- app_comm_cons, !rem_all_cons, IH. lia.
Qed.

Lemma rem_all_nonneg l : 0 <= rem_all l.
Proof.
  induction l as [| pc l IH]; [unfold rem_all; simpl; lia |].
  rewrite rem_all_cons. pose proof (rem_nonneg pc). lia.
Qed.

(** A statement of [Summary.Result] that runs belongs to a call that has not
    returned, and brings it one statement closer to returning. *)
Lemma Summary_Result_live flags w pc sh pc' sh' :
  Summary_Result flags w pc sh = Some (pc', sh') ->
  live pc = true /\ rem pc' = rem pc - 1.
Proof.
  destruct pc; simpl; try discriminate.
  - destruct (Main.Ping_Ping flags (sh_p sh) w) as [[p1 stats] acts].
    intros H; inversion H; auto.
  - destruct (sh_lock sh); [discriminate |]. intros H; inversion H; auto.
  - intros H; inversion H; auto.
  - destruct (outcome_branch (sh_p sh) (sh_s sh) stats). intros H; inversion H; auto.
  - intros H; inversion H; auto.
  - destruct (Z.ltb (sh_wg sh - 1) 0); [discriminate |]. intros H; inversion H; auto.
Qed.

Lemma agg_keep s0 h h' s n n' :
  (exists base, agg_run s0 h = Some base /\
                s = (if Z.ltb 0 n then count_incr base else base)) ->
  h' = h -> n' = n ->
  exists base, agg_run s0 h' = Some base /\
               s = (if Z.ltb 0 n' then count_incr base else base).
Proof. intros H -> ->. exact H. Qed.

Lemma ping_chunk tr acts :
  probe_attempts (tr ++ EvPing :: map EvAct acts) = probe_attempts tr + 1 /\
  summary_lines (tr ++ EvPing :: map EvAct acts) = summary_lines tr /\
  history (tr ++ EvPing :: map EvAct acts) = history tr.
Proof.
  unfold probe_attempts, summary_lines.
  rewrite !count_ev_app, !count_ev_cons, !count_ev_acts by reflexivity.
  rewrite history_app.
  change (history (EvPing :: map EvAct acts)) with (history (map EvAct acts)).
  rewrite history_acts, app_nil_r. simpl. repeat split; lia.
Qed.

Lemma line_chunk tr o :
  is_ping (EvOut o) = false ->
  probe_attempts (tr ++ [EvOut o]) = probe_attempts tr /\
  summary_lines (tr ++ [EvOut o])
    = summary_lines tr + (if is_summary (EvOut o) then 1 else 0) /\
  history (tr ++ [EvOut o]) = (history tr ++ history_event (EvOut o))%list.
Proof.
  intros Hp. unfold probe_attempts, summary_lines.
  rewrite !count_ev_app, !count_ev_cons, Hp, history_app.
  change (count_ev is_ping []) with 0. change (count_ev is_summary []) with 0.
  unfold history at 2. cbn [flat_map]. rewrite app_nil_r.
  repeat split; lia.
Qed.

Section MainInv.

Variable flags : Flags.
Variable lk : Lookup.
Variable s0 : Summary.

Let c := DefaultCount flags.

Hypothesis Hc63 : c < two63.

Lemma main_cnt_range f m : 0 <= main_cnt f m <= 1.
Proof. destruct m; simpl; try lia. apply b2z_range. Qed.

Ltac count_facts :=
  repeat match goal with
  | |- context [cnt ?f ?l] =>
      lazymatch goal with
      | _ : 0 <= cnt f l |- _ => fail
      | _ => pose proof (cnt_nonneg f l)
      end
  | _ : context [cnt ?f ?l] |- _ =>
      lazymatch goal with
      | _ : 0 <= cnt f l |- _ => fail
      | _ => pose proof (cnt_nonneg f l)
      end
  | _ : context [main_cnt ?f ?m] |- _ =>
      lazymatch goal with
      | _ : 0 <= main_cnt f m <= 1 |- _ => fail
      | _ => pose proof (main_cnt_range f m)
      end
  end.

Ltac open_state :=
  cbn [g_main g_pool g_sh with_p with_s with_lock with_wg
       sh_tr sh_s sh_lock sh_wg sh_p] in *;
  rewrite ?cnt_threads, ?cnt_app, ?cnt_cons, ?cnt_nil, ?app_nil_r in *;
  cbn [b2z at_ping unrecorded live in_cs at_branch main_cnt is_dispatch is_exit
       joined launched index_ok] in *.

Lemma main_cnt_le f g m :
  (forall pc, f pc = true -> g pc = true) -> main_cnt f m <= main_cnt g m.
Proof.
  intros H. destruct m; simpl; try lia.
  destruct (f pc) eqn:E; [rewrite (H _ E); lia | destruct (g pc); simpl; lia].
Qed.

Lemma at_branch_in_cs pc : at_branch pc = true -> in_cs pc = true.
Proof. destruct pc; simpl; auto. Qed.

Ltac branch_facts m l1 l2 :=
  pose proof (main_cnt_le at_branch in_cs m at_branch_in_cs);
  pose proof (cnt_le at_branch in_cs l1 at_branch_in_cs);
  pose proof (cnt_le at_branch in_cs l2 at_branch_in_cs).

Ltac ltb_decide :=
  repeat match goal with
  | |- context [Z.ltb 0 ?n] =>
      first [ replace (Z.ltb 0 n) with true by (symmetry; apply Z.ltb_lt; lia)
            | replace (Z.ltb 0 n) with false by (symmetry; apply Z.ltb_ge; lia) ]
  | H : context [Z.ltb 0 ?n] |- _ =>
      first [ replace (Z.ltb 0 n) with true in H by (symmetry; apply Z.ltb_lt; lia)
            | replace (Z.ltb 0 n) with false in H by (symmetry; apply Z.ltb_ge; lia) ]
  end.

Ltac routine :=
  first
    [ assumption
    | lia
    | intros; discriminate
    | intros; congruence
    | intros; lia
    | match goal with
      | H : exists base, _ |- exists base, _ =>
          eapply agg_keep; [exact H | reflexivity | lia]
      end ].

(** A statement of a call of [Summary.Result], synchronous or not, keeps the
    invariant. *)
Lemma Inv_thread w sh sh' m m' pool pool' l1 pc l2 pc' :
  Inv c s0 {| g_sh := sh; g_main := m; g_pool := pool |} ->
  threads {| g_sh := sh; g_main := m; g_pool := pool |} = (l1 ++ pc :: l2)%list ->
  threads {| g_sh := sh'; g_main := m'; g_pool := pool' |} = (l1 ++ pc' :: l2)%list ->
  Summary_Result flags w pc sh = Some (pc', sh') ->
  launched c m' = launched c m -> (index_ok c m -> index_ok c m') ->
  is_dispatch m' = is_dispatch m -> is_exit m' = is_exit m ->
  joined m' = joined m -> m' <> MResolve ->
  Inv c s0 {| g_sh := sh'; g_main := m'; g_pool := pool' |}.
Proof.
  intros [Hidx Hstart Hp Hl Hwg Hlk Hsum Hj Hlast Hagg] Hthr Hthr' Hres
         El Ei Ed Ee Ej Hnr'.
  destruct (Summary_Result_live _ _ _ _ _ _ Hres) as [Hlive _].
  cbn [g_main g_pool g_sh] in *. rewrite Hthr in *.
  open_state. rewrite Hlive in Hwg. cbn [b2z] in Hwg.
  count_facts.
  assert (Hnj : joined m = false).
  { destruct (joined m) eqn:E; [| reflexivity]. specialize (Hj eq_refl).
    pose proof (b2z_range (is_dispatch m)). lia. }
  assert (Hne : is_exit m = false) by (destruct m; try reflexivity; discriminate).
  assert (Hnx : m' <> MExit) by (intros ->; simpl in Ee; congruence).
  rewrite <- El in Hp. rewrite <- Ed in Hwg. rewrite <- Ee in Hsum, Hne.
  rewrite <- Ej in Hnj.
  assert (Hidx' : 0 < c -> index_ok c m') by auto.
  clear Hstart Hlast Hj Hidx.
  pose proof (b2z_range (sh_lock sh)) as Hbl.
  pose proof (cnt_le at_branch in_cs l1 at_branch_in_cs).
  pose proof (cnt_le at_branch in_cs l2 at_branch_in_cs).
  destruct pc; cbn [Summary_Result] in Hres; open_state.
  - destruct (Main.Ping_Ping flags (sh_p sh) w) as [[p1 stats] acts].
    inversion Hres; subst; clear Hres.
    destruct (ping_chunk (sh_tr sh) acts) as (C1 & C2 & C3).
    constructor; cbn [g_main g_pool g_sh]; rewrite ?Hthr'; open_state;
      rewrite ?C1, ?C2, ?C3; routine.
  - destruct (sh_lock sh) eqn:Elock; [discriminate |].
    inversion Hres; subst; clear Hres.
    constructor; cbn [g_main g_pool g_sh]; rewrite ?Hthr'; open_state; routine.
  - inversion Hres; subst; clear Hres.
    destruct Hagg as (base & Hb & Hs).
    constructor; cbn [g_main g_pool g_sh]; rewrite ?Hthr'; open_state; try routine.
    exists base. split; [exact Hb |]. ltb_decide. congruence.
  - destruct Hagg as (base & Hb & Hs).
    ltb_decide. rewrite Hs in Hres.
    pose proof (outcome_branch_line (sh_p sh) base stats) as L.
    destruct (outcome_branch (sh_p sh) (count_incr base) stats) as [s1 o].
    destruct L as (L1 & L2 & L3 & L4).
    cbv beta iota in Hres. inversion Hres; subst; clear Hres.
    destruct (line_chunk (sh_tr sh) o L1) as (C1 & C2 & C3). rewrite L2 in C2.
    constructor; cbn [g_main g_pool g_sh]; rewrite ?Hthr'; open_state;
      rewrite ?C1, ?C2, ?C3, ?attempts_recorded_app, ?L3; try routine.
    exists s1. split; [rewrite agg_run_app, Hb; exact L4 |]. ltb_decide. reflexivity.
  - inversion Hres; subst; clear Hres.
    constructor; cbn [g_main g_pool g_sh]; rewrite ?Hthr'; open_state; routine.
  - destruct (Z.ltb (sh_wg sh - 1) 0) eqn:Ewg; [discriminate |].
    inversion Hres; subst; clear Hres.
    constructor; cbn [g_main g_pool g_sh]; rewrite ?Hthr'; open_state; routine.
  - discriminate.
Qed.

Lemma Inv_go w sh m l1 pc l2 pc' sh' :
  Inv c s0 {| g_sh := sh; g_main := m; g_pool := (l1 ++ pc :: l2)%list |} ->
  Summary_Result flags w pc sh = Some (pc', sh') ->
  Inv c s0 {| g_sh := sh'; g_main := m; g_pool := (l1 ++ pc' :: l2)%list |}.
Proof.
  intros HI Hres.
  assert (Hnr : m <> MResolve).
  { intros ->. destruct (inv_start _ _ _ HI eq_refl) as (_ & Hp0 & _).
    simpl in Hp0. destruct l1; discriminate. }
  destruct m.
  1: congruence.
  all: try (eapply (Inv_thread w sh sh' _ _ _ _ l1 pc l2 pc');
            [exact HI | reflexivity | reflexivity | exact Hres | reflexivity
            | auto | reflexivity | reflexivity | reflexivity | discriminate]).
  eapply (Inv_thread w sh sh' _ _ _ _ (pc0 :: l1) pc l2 pc');
    [exact HI | reflexivity | reflexivity | exact Hres | reflexivity
    | auto | reflexivity | reflexivity | reflexivity | discriminate].
Qed.

Hypothesis Hlk : lk_err lk = None /\ lk_addr lk <> [].

Lemma Inv_main w el st st' :
  Inv c s0 st -> Ping_Do flags lk w el st = Some st' -> Inv c s0 st'.
Proof.
  intros HI Hdo. destruct st as [sh m pool].
  unfold Ping_Do in Hdo. cbn [g_main g_pool g_sh] in Hdo.
  destruct m.
  - (* MResolve *)
    destruct HI as [_ Hstart _ _ _ _ _ _ _ _].
    destruct (Hstart eq_refl) as (Htr & Hpool & Hwg & Hlock & Hs).
    cbn [g_main g_pool g_sh] in *. subst pool.
    unfold Main.Ping_Resolver in Hdo. destruct Hlk as [He Ha].
    rewrite He in Hdo. destruct (lk_addr lk) as [| a0 rest]; [congruence |].
    inversion Hdo; subst st'; clear Hdo.
    assert (T : forall outs : list Output,
               (outs = [] \/ exists d h a e, outs = [OutDNS d h a e]) ->
               probe_attempts (map EvOut outs) = 0 /\
               summary_lines (map EvOut outs) = 0 /\
               history (map EvOut outs) = []).
    { intros outs [-> | (d & h & a & e & ->)]; repeat split. }
    match goal with
    | |- context [map EvOut ?outs] =>
        destruct (T outs) as (T1 & T2 & T3);
          [destruct (negb (is_empty (DefaultDNSAddr flags)) &&
                     negb (is_empty (DefaultDNSNet flags)))%bool;
           [right; do 4 eexists; reflexivity | left; reflexivity] |]
    end.
    constructor; open_state; rewrite ?Htr; cbn [app];
      rewrite ?T1, ?T2, ?T3, ?Hlock; try routine; try reflexivity.
    exists s0. split; [reflexivity |]. rewrite Hs. reflexivity.
  - (* MAdd *)
    inversion Hdo; subst st'; clear Hdo.
    destruct HI as [Hidx Hstart Hp Hl Hwg Hlock Hsum Hj Hlast Hagg].
    constructor; open_state; routine.
  - (* MDispatch *)
    destruct HI as [Hidx Hstart Hp Hl Hwg Hlock Hsum Hj Hlast Hagg].
    destruct (Z.ltb 0 (DefaultInterval flags));
      inversion Hdo; subst st'; clear Hdo;
      constructor; open_state; routine.
  - (* MCall *)
    destruct pc.
    7: { inversion Hdo; subst st'; clear Hdo.
         destruct HI as [Hidx Hstart Hp Hl Hwg Hlock Hsum Hj Hlast Hagg].
         constructor; open_state; routine. }
    all: match type of Hdo with
         | match Summary_Result _ _ ?pc _ with _ => _ end = _ =>
             destruct (Summary_Result flags w pc sh) as [[pc1 sh1] |] eqn:Hres;
               [| discriminate];
             inversion Hdo; subst st'; clear Hdo;
             eapply (Inv_thread w sh sh1 _ _ _ _ [] pc pool pc1);
               [exact HI | reflexivity | reflexivity | exact Hres | reflexivity
               | auto | reflexivity | reflexivity | reflexivity | discriminate]
         end.
  - (* MSleep *)
    inversion Hdo; subst st'; clear Hdo.
    destruct HI as [Hidx Hstart Hp Hl Hwg Hlock Hsum Hj Hlast Hagg].
    assert (T : forall tr, probe_attempts (tr ++ [sleep_interval flags]) = probe_attempts tr /\
                           summary_lines (tr ++ [sleep_interval flags]) = summary_lines tr /\
                           history (tr ++ [sleep_interval flags]) = history tr).
    { intros tr. unfold probe_attempts, summary_lines.
      rewrite !count_ev_app, history_app. simpl. rewrite app_nil_r.
      change (count_ev is_ping [sleep_interval flags]) with 0.
      change (count_ev is_summary [sleep_interval flags]) with 0.
      repeat split; lia. }
    destruct (T (sh_tr sh)) as (T1 & T2 & T3).
    constructor; open_state; rewrite ?T1, ?T2, ?T3; routine.
  - (* MCheck *)
    destruct HI as [Hidx Hstart Hp Hl Hwg Hlock Hsum Hj Hlast Hagg].
    open_state. fold c in Hdo.
    assert (Hadd : 0 < c -> add64 i 1 = i + 1).
    { intros Hpos0. apply wrap64_small. unfold in_int64, two63 in *. lia. }
    destruct (Z.leb_spec 0 c); [destruct (Z.leb_spec c (add64 i 1)) |];
      inversion Hdo; subst st'; clear Hdo;
      constructor; open_state; routine.
  - (* MWait *)
    destruct HI as [Hidx Hstart Hp Hl Hwg Hlock Hsum Hj Hlast Hagg].
    destruct (Z.eqb_spec (sh_wg sh) 0); [| discriminate].
    inversion Hdo; subst st'; clear Hdo.
    constructor; open_state; routine.
  - (* MStats *)
    destruct HI as [Hidx Hstart Hp Hl Hwg Hlock Hsum Hj Hlast Hagg].
    unfold Main.Summary_Stats in Hdo.
    destruct (render (sh_s sh) (Some el)) as [[s1 o] |] eqn:R; [| discriminate].
    inversion Hdo; subst st'; clear Hdo.
    destruct (render_line _ _ _ _ R) as (R1 & R2 & R3).
    destruct (line_chunk (sh_tr sh) o R1) as (C1 & C2 & C3). rewrite R2 in C2.
    specialize (Hj eq_refl). open_state.
    pose proof (cnt_le at_branch live pool) as Hbl.
    assert (Hb0 : cnt at_branch pool = 0).
    { pose proof (cnt_nonneg at_branch pool). pose proof (cnt_nonneg live pool).
      assert (cnt at_branch pool <= cnt live pool)
        by (apply cnt_le; intros pc; destruct pc; simpl; auto).
      lia. }
    destruct Hagg as (base & Hb & Hs). rewrite Hb0 in Hs. simpl in Hs.
    constructor; open_state;
      rewrite ?C1, ?C2, ?C3, ?R3, ?attempts_recorded_app;
      cbn [attempts_recorded]; try routine.
    + intros _. exists (sh_tr sh), o. auto.
    + exists s1. split.
      * rewrite agg_run_app, Hb. simpl. rewrite <- Hs, R. reflexivity.
      * rewrite Hb0. reflexivity.
  - (* MExit *)
    discriminate.
Qed.

Lemma Inv_step st st' : Inv c s0 st -> step flags lk st st' -> Inv c s0 st'.
Proof.
  intros HI Hstep. destruct Hstep as [w el st st' Hdo | w sh m l1 pc l2 pc' sh' Hres].
  - eapply Inv_main; eassumption.
  - eapply Inv_go; eassumption.
Qed.

Lemma Inv_start p : Inv c s0 (start p s0).
Proof.
  constructor; unfold start; open_state; try routine; try reflexivity.
  - repeat split.
  - exists s0. split; reflexivity.
Qed.

Lemma Inv_steps st st' : Inv c s0 st -> steps flags lk st st' -> Inv c s0 st'.
Proof.
  intros HI Hsteps. induction Hsteps as [| st1 st2 st3 _ IH Hstep]; [exact HI |].
  eapply Inv_step; [apply IH, HI | exact Hstep].
Qed.

(** Whenever the mutex is free, the aggregate is what the printed outcome
    lines add up to. *)
Lemma Inv_unlocked st :
  Inv c s0 st -> sh_lock (g_sh st) = false ->
  agg_run s0 (history (sh_tr (g_sh st))) = Some (sh_s (g_sh st)).
Proof.
  intros [Hidx Hstart Hp Hl Hwg Hlock Hsum Hj Hlast Hagg] Hfree.
  destruct st as [sh m pool]. cbn [g_main g_pool g_sh] in *.
  rewrite cnt_threads in *. rewrite Hfree in Hlock. cbn [b2z] in Hlock.
  pose proof (main_cnt_le at_branch in_cs m at_branch_in_cs).
  pose proof (cnt_le at_branch in_cs pool at_branch_in_cs).
  pose proof (cnt_nonneg at_branch pool). pose proof (main_cnt_range at_branch m).
  destruct Hagg as (base & Hb & Hs). ltb_decide. congruence.
Qed.

(** *** Every statement brings the run closer to its end *)

Hypothesis Hpos : 0 < c.

Lemma main_rem_nonneg m : index_ok c m -> 0 <= main_rem c m.
Proof.
  destruct m as [| i | i | i pc | i | i | | |]; cbn [main_rem index_ok]; try lia.
  pose proof (rem_nonneg pc). lia.
Qed.

Lemma step_decreases st st' :
  Inv c s0 st -> step flags lk st st' ->
  0 <= measure c st' < measure c st.
Proof.
  intros HI Hstep.
  pose proof (Inv_step _ _ HI Hstep) as HI'.
  split.
  { unfold measure. pose proof (main_rem_nonneg _ (inv_index _ _ _ HI' Hpos)).
    pose proof (rem_all_nonneg (g_pool st')). lia. }
  pose proof (inv_index _ _ _ HI Hpos) as Hidx.
  destruct Hstep as [w el st st' Hdo | w sh m l1 pc l2 pc' sh' Hres].
  - destruct st as [sh m pool]. unfold Ping_Do in Hdo. unfold measure.
    cbn [g_main g_pool g_sh] in *.
    destruct m; cbn [index_ok] in Hidx.
    + unfold Main.Ping_Resolver in Hdo. destruct Hlk as [He Ha].
      rewrite He in Hdo. destruct (lk_addr lk); [congruence |].
      inversion Hdo; subst st'. cbn [g_main g_pool main_rem rem]. lia.
    + inversion Hdo; subst st'. cbn [g_main g_pool main_rem rem]. lia.
    + destruct (Z.ltb 0 (DefaultInterval flags)); inversion Hdo; subst st';
        cbn [g_main g_pool main_rem rem]; rewrite ?rem_all_app;
        cbn [rem_all fold_right rem]; lia.
    + destruct pc.
      7: { inversion Hdo; subst st'. cbn [g_main g_pool main_rem rem]. lia. }
      all: match type of Hdo with
           | match Summary_Result _ _ ?pc _ with _ => _ end = _ =>
               destruct (Summary_Result flags w pc sh) as [[pc1 sh1] |] eqn:Hres;
                 [| discriminate];
               inversion Hdo; subst st';
               destruct (Summary_Result_live _ _ _ _ _ _ Hres) as [_ Hrem];
               cbn [g_main g_pool main_rem]; lia
           end.
    + inversion Hdo; subst st'. cbn [g_main g_pool main_rem rem]. lia.
    + fold c in Hdo.
      replace (Z.leb 0 c) with true in Hdo by (symmetry; apply Z.leb_le; lia).
      assert (Hadd : add64 i 1 = i + 1).
      { apply wrap64_small. unfold in_int64, two63 in *. lia. }
      rewrite Hadd in Hdo.
      destruct (Z.leb_spec c (i + 1)); inversion Hdo; subst st'; cbn [g_main g_pool main_rem rem]; lia.
    + destruct (Z.eqb (sh_wg sh) 0); [| discriminate].
      inversion Hdo; subst st'. cbn [g_main g_pool main_rem rem]. lia.
    + destruct (Main.Summary_Stats (sh_s sh) el) as [[s1 o] |]; [| discriminate].
      inversion Hdo; subst st'. cbn [g_main g_pool main_rem rem]. lia.
    + discriminate.
  - destruct (Summary_Result_live _ _ _ _ _ _ Hres) as [_ Hrem].
    unfold measure. cbn [g_main g_pool].
    rewrite !rem_all_app, !rem_all_cons. lia.
Qed.

(** *** No deadlock *)

Lemma in_cs_runs w pc sh :
  in_cs pc = true -> exists pc' sh', Summary_Result flags w pc sh = Some (pc', sh').
Proof.
  destruct pc; simpl; try discriminate; intros _.
  - eauto.
  - destruct (outcome_branch (sh_p sh) (sh_s sh) stats). eauto.
  - eauto.
Qed.

(** Whoever holds the mutex can run its next statement. *)
Lemma lock_holder_runs st :
  Inv c s0 st -> sh_lock (g_sh st) = true -> exists st', step flags lk st st'.
Proof.
  intros HI Hlock. pose proof (inv_lock _ _ _ HI) as Hcs.
  destruct st as [sh m pool]. rewrite cnt_threads, Hlock in Hcs.
  cbn [g_main g_pool g_sh b2z] in *.
  pose proof (cnt_nonneg in_cs pool). pose proof (main_cnt_range in_cs m).
  destruct (Z.eq_dec (cnt in_cs pool) 0) as [E | E].
  - assert (Hm : main_cnt in_cs m = 1) by lia.
    destruct m; simpl in Hm; try lia.
    destruct (in_cs pc) eqn:Epc; simpl in Hm; [| lia].
    destruct (in_cs_runs probe_ok pc sh Epc) as (pc' & sh' & Hres).
    eexists. apply (step_main flags lk probe_ok 0). unfold Ping_Do.
    cbn [g_main g_pool g_sh]. rewrite Hres.
    destruct pc; try discriminate; reflexivity.
  - destruct (cnt_pos_split in_cs pool) as (l1 & pc & l2 & -> & Epc); [lia |].
    destruct (in_cs_runs probe_ok pc sh Epc) as (pc' & sh' & Hres).
    eexists. eapply step_go. exact Hres.
Qed.

(** A goroutine that has not returned means some statement can run. *)
Lemma live_goroutine_runs st :
  Inv c s0 st -> 0 < cnt live (g_pool st) -> exists st', step flags lk st st'.
Proof.
  intros HI Hlive.
  destruct (sh_lock (g_sh st)) eqn:Hlock; [apply lock_holder_runs; assumption |].
  pose proof (inv_wg _ _ _ HI) as Hwg.
  destruct st as [sh m pool]. rewrite cnt_threads in Hwg.
  cbn [g_main g_pool g_sh] in *.
  pose proof (main_cnt_range live m). pose proof (b2z_range (is_dispatch m)).
  destruct (cnt_pos_split live pool Hlive) as (l1 & pc & l2 & -> & Epc).
  assert (Hrun : exists pc' sh', Summary_Result flags probe_ok pc sh = Some (pc', sh')).
  { destruct pc; simpl in *; try discriminate; eauto.
    - destruct (Main.Ping_Ping flags (sh_p sh) probe_ok) as [[p1 stats] acts]. eauto.
    - rewrite Hlock. eauto.
    - destruct (outcome_branch (sh_p sh) (sh_s sh) stats). eauto.
    - replace (Z.ltb (sh_wg sh - 1) 0) with false by (symmetry; apply Z.ltb_ge; lia).
      eauto. }
  destruct Hrun as (pc' & sh' & Hres).
  eexists. eapply step_go. exact Hres.
Qed.

Lemma progress st :
  Inv c s0 st -> g_main st <> MExit -> exists st', step flags lk st st'.
Proof.
  intros HI Hne.
  pose proof (inv_wg _ _ _ HI) as Hwg.
  destruct st as [sh m pool]. rewrite cnt_threads in Hwg.
  cbn [g_main g_pool g_sh] in *.
  assert (Hmain : forall st',
             Ping_Do flags lk probe_ok 0 {| g_sh := sh; g_main := m; g_pool := pool |}
             = Some st' ->
             exists st', step flags lk {| g_sh := sh; g_main := m; g_pool := pool |} st').
  { intros st' H. exists st'. eapply step_main. exact H. }
  unfold Ping_Do in Hmain. cbn [g_main g_pool g_sh] in Hmain.
  destruct m.
  - destruct (Main.Ping_Resolver flags (sh_p sh) lk) as [[p1 [e |]] outs]; eauto.
  - eauto.
  - destruct (Z.ltb 0 (DefaultInterval flags)); eauto.
  - destruct pc; cbn [Summary_Result] in Hmain.
    + destruct (Main.Ping_Ping flags (sh_p sh) probe_ok) as [[p1 stats] acts]. eauto.
    + destruct (sh_lock sh) eqn:Hlock; [| eauto].
      apply lock_holder_runs; [exact HI | exact Hlock].
    + eauto.
    + destruct (outcome_branch (sh_p sh) (sh_s sh) stats). eauto.
    + eauto.
    + cbn [main_cnt live b2z is_dispatch] in Hwg.
      pose proof (cnt_nonneg live pool).
      replace (Z.ltb (sh_wg sh - 1) 0) with false in Hmain
        by (symmetry; apply Z.ltb_ge; lia).
      eauto.
    + eauto.
  - eauto.
  - repeat match type of Hmain with
           | context [if ?b then _ else _] => destruct b
           end; eauto.
  - destruct (Z.eqb_spec (sh_wg sh) 0) as [E | E]; [eauto |].
    cbn [main_cnt b2z is_dispatch] in Hwg.
    pose proof (cnt_nonneg live pool).
    apply live_goroutine_runs; [exact HI |]. cbn [g_pool]. lia.
  - unfold Main.Summary_Stats in Hmain. rewrite render_cases in Hmain.
    cbv zeta in Hmain. cbv beta iota in Hmain. eauto.
  - congruence.
Qed.

(** *** Every run ends, with the attempt count met *)

Lemma reaches_exit n : forall st,
  Inv c s0 st -> measure c st <= Z.of_nat n ->
  exists st', steps flags lk st st' /\ g_main st' = MExit.
Proof.
  induction n as [| n IH]; intros st HI Hm.
  - destruct (g_main st) eqn:E; try (exists st; split; [constructor | exact E]).
    all: destruct (progress st HI) as [st1 Hstep]; [congruence |];
      pose proof (step_decreases _ _ HI Hstep); lia.
  - destruct (g_main st) eqn:E; try (exists st; split; [constructor | exact E]).
    all: destruct (progress st HI) as [st1 Hstep]; [congruence |];
      pose proof (step_decreases _ _ HI Hstep);
      destruct (IH st1) as (st' & Hsteps & Hexit);
        [eapply Inv_step; eassumption | lia |];
      exists st'; split; [| exact Hexit];
      clear - Hstep Hsteps;
      induction Hsteps as [| a b d _ IHs Hs]; [eapply steps_next; [constructor | exact Hstep] |];
      eapply steps_next; [apply IHs; exact Hstep | exact Hs].
Qed.

Lemma steps_n_bounded n st st' :
  Inv c s0 st -> steps_n flags lk n st st' ->
  Inv c s0 st' /\ Z.of_nat n <= measure c st - measure c st'.
Proof.
  intros HI Hn. induction Hn as [| n st1 st2 st3 _ IH Hstep].
  - split; [exact HI | lia].
  - destruct (IH HI) as [HI2 Hb].
    pose proof (step_decreases _ _ HI2 Hstep).
    split; [eapply Inv_step; eassumption | lia].
Qed.

(** What the invariant says once [Ping.Do] has returned. *)
Lemma Inv_exit st :
  Inv c s0 st -> g_main st = MExit ->
  probe_attempts (sh_tr (g_sh st)) = c /\
  summary_lines (sh_tr (g_sh st)) = 1 /\
  ends_with_summary (sh_tr (g_sh st)) /\
  attempts_recorded (history (sh_tr (g_sh st))) = c /\
  Forall (fun pc => pc = RRet) (g_pool st) /\
  sh_wg (g_sh st) = 0 /\ sh_lock (g_sh st) = false /\
  agg_run s0 (history (sh_tr (g_sh st))) = Some (sh_s (g_sh st)).
Proof.
  intros [Hidx Hstart Hp Hl Hwg Hlock Hsum Hj Hlast Hagg] Hexit.
  destruct st as [sh m pool]. cbn [g_main g_pool g_sh] in *. subst m.
  specialize (Hj eq_refl). specialize (Hlast eq_refl). open_state.
  pose proof (cnt_nonneg live pool).
  assert (Hlive : cnt live pool = 0) by lia.
  assert (Hall : Forall (fun pc => pc = RRet) pool).
  { clear - Hlive. induction pool as [| pc pool IH]; [constructor |].
    rewrite cnt_cons in Hlive. pose proof (cnt_nonneg live pool).
    pose proof (b2z_range (live pc)).
    constructor; [| apply IH; lia].
    destruct pc; try reflexivity; cbn [live b2z] in Hlive; lia. }
  assert (Hz : forall f, f RRet = false -> cnt f pool = 0).
  { intros f Hf. clear - Hall Hf. induction Hall as [| pc pool -> _ IH]; [reflexivity |].
    rewrite cnt_cons, Hf, IH. reflexivity. }
  rewrite (Hz at_ping eq_refl) in Hp. rewrite (Hz unrecorded eq_refl) in Hl.
  rewrite (Hz in_cs eq_refl) in Hlock. rewrite (Hz at_branch eq_refl) in Hagg.
  destruct Hagg as (base & Hb & Hs). simpl in Hs. subst base.
  repeat split; try assumption; try lia.
  destruct (sh_lock sh); simpl in Hlock; [lia | reflexivity].
Qed.

End MainInv.

(** main.go, after a successful resolution and whatever the attempt count:
    in every state a run reaches in which the mutex is free, the aggregate
    is what the outcome lines printed so far add up to. *)
Lemma Main_aggregate_when_unlocked flags lk p s st :
  lk_err lk = None -> lk_addr lk <> [] -> DefaultCount flags < two63 ->
  steps flags lk (start p s) st -> sh_lock (g_sh st) = false ->
  agg_run s (history (sh_tr (g_sh st))) = Some (sh_s (g_sh st)).
Proof.
  intros He Ha Hlt Hst Hfree.
  apply (Inv_unlocked flags s st); [| exact Hfree].
  apply (Inv_steps flags lk s Hlt (conj He Ha) (start p s) st); [| exact Hst].
  apply Inv_start.
Qed.

(** ** main.go: resolution failure *)

Lemma start_failed_runs flags lk p s st :
  lk_err lk <> None \/ lk_addr lk = [] ->
  steps flags lk (start p s) st ->
  st = start p s \/
  exists e,
    snd (fst (Main.Ping_Resolver flags p lk)) = Some e /\
    st = {| g_sh := {| sh_p := p; sh_s := s; sh_lock := false; sh_wg := 0;
                       sh_tr := [EvOut (OutError e)] |};
            g_main := MExit; g_pool := [] |}.
Proof.
  intros Hfail Hsteps.
  remember (start p s) as st0 eqn:E0.
  induction Hsteps as [| st1 st2 st3 _ IH Hstep]; [left; reflexivity |].
  specialize (IH E0). subst st1. right.
  destruct IH as [-> | (e & He & ->)].
  - inversion Hstep as [w el a b Hdo | w sh m l1 pc l2 pc' sh' Hres Ea Eb].
    + subst. unfold Ping_Do, start in Hdo. cbn [g_main g_pool g_sh sh_p] in Hdo.
      unfold Main.Ping_Resolver in *.
      destruct (lk_err lk) as [e |].
      * exists e. inversion Hdo. split; reflexivity.
      * destruct Hfail as [Hf | Hf]; [congruence |]. rewrite Hf in *.
        exists "not found addr". inversion Hdo. split; reflexivity.
    + unfold start in Ea. inversion Ea. destruct l1; discriminate.
  - exfalso. inversion Hstep as [w el a b Hdo | w sh m l1 pc l2 pc' sh' Hres Ea Eb].
    + subst. discriminate.
    + destruct l1; discriminate.
Qed.

Lemma start_failed_exits flags lk p s :
  lk_err lk <> None \/ lk_addr lk = [] ->
  exists st, step flags lk (start p s) st /\ g_main st = MExit.
Proof.
  intros Hfail.
  assert (exists e outs, Main.Ping_Resolver flags p lk = (p, Some e, outs))
    as (e & outs & He).
  { unfold Main.Ping_Resolver. destruct (lk_err lk) as [e |]; [eauto |].
    destruct Hfail as [Hf | Hf]; [congruence |]. rewrite Hf. eauto. }
  eexists. split.
  - apply (step_main flags lk probe_ok 0). unfold Ping_Do, start.
    cbn [g_main g_pool g_sh sh_p]. rewrite He. reflexivity.
  - reflexivity.
Qed.

(** ** The probing loop *)

(** C3.  After a successful resolution, with an attempt count [c > 0]:
    - part_000: [Ping.Do] returns as soon as it is given fuel for [c] passes,
      having called [Ping] exactly [c] times and printed exactly one summary
      line, the last line; with less fuel it is still in the loop;
    - main.go: from every state a run reaches, [Ping.Do] can still return;
      no run has more than [12 c + 4] statements; and when [Ping.Do] has
      returned, [Ping] has been called exactly [c] times, [c] outcome lines
      and exactly one summary line have been printed, the summary line last,
      every goroutine has returned and the wait group counts zero.
    With [c <= 0], [Ping.Do] of part_000 never leaves the loop: whatever the
    fuel, it has called [Ping] once per pass and printed no summary. *)
Theorem Do_attempt_budget :
  forall (flags : Flags) (lk : Lookup) (p : Ping) (s : Summary)
         (world : nat -> Probe),
    lk_err lk = None -> lk_addr lk <> [] ->
    DefaultCount flags < two63 ->
    (0 < DefaultCount flags ->
     (forall fuel, (Z.to_nat (DefaultCount flags) <= fuel)%nat ->
        exists p' s' tr,
          Part000.Ping_Do flags world p s lk fuel = Returned p' s' tr /\
          probe_attempts tr = DefaultCount flags /\
          summary_lines tr = 1 /\ ends_with_summary tr) /\
     (forall fuel, Z.of_nat fuel < DefaultCount flags ->
        exists l,
          Part000.Ping_Do flags world p s lk fuel = Running l /\
          probe_attempts (lp_tr l) = Z.of_nat fuel /\
          summary_lines (lp_tr l) = 0) /\
     (forall st, steps flags lk (start p s) st ->
        exists st', steps flags lk st st' /\ g_main st' = MExit) /\
     (forall n st, steps_n flags lk n (start p s) st ->
        Z.of_nat n <= 12 * DefaultCount flags + 4) /\
     (forall st, steps flags lk (start p s) st -> g_main st = MExit ->
        probe_attempts (sh_tr (g_sh st)) = DefaultCount flags /\
        summary_lines (sh_tr (g_sh st)) = 1 /\
        ends_with_summary (sh_tr (g_sh st)) /\
        attempts_recorded (history (sh_tr (g_sh st))) = DefaultCount flags /\
        Forall (fun pc => pc = RRet) (g_pool st) /\
        sh_wg (g_sh st) = 0))
    /\
    (DefaultCount flags <= 0 ->
     forall fuel,
       exists l,
         Part000.Ping_Do flags world p s lk fuel = Running l /\
         probe_attempts (lp_tr l) = Z.of_nat fuel /\
         summary_lines (lp_tr l) = 0).
Proof.
  intros flags lk p s world He Ha Hlt.
  assert (Hres : snd (Part000.Ping_Resolver p lk) = None).
  { pose proof (Resolver_of_cases part_000 flags p lk) as R. unfold Resolver_of in R.
    rewrite R, He. destruct (lk_addr lk); [congruence | reflexivity]. }
  split.
  - intros Hpos.
    assert (Hc : 0 < DefaultCount flags < two63) by lia.
    assert (HI : forall st, steps flags lk (start p s) st -> Inv (DefaultCount flags) s st).
    { intros st Hst.
      apply (Inv_steps flags lk s Hlt (conj He Ha) (start p s) st); [| exact Hst].
      apply Inv_start. }
    split; [| split; [| split; [| split]]].
    + intros fuel Hfuel.
      destruct (Part000_Do_returns flags world p s lk fuel Hres Hc Hfuel)
        as (p' & s' & tr & H1 & H2 & H3 & H4 & _).
      exists p', s', tr. auto.
    + intros fuel Hfuel. apply Part000_Do_running; assumption.
    + intros st Hst.
      apply (reaches_exit flags lk s Hlt (conj He Ha) Hpos
               (Z.to_nat (measure (DefaultCount flags) st))); [apply HI, Hst | lia].
    + intros n st Hn.
      destruct (steps_n_bounded flags lk s Hlt (conj He Ha) Hpos n _ st
                  (Inv_start _ _ p) Hn) as [HI' Hb].
      pose proof (main_rem_nonneg flags Hpos _ (inv_index _ _ _ HI' Hpos)).
      pose proof (rem_all_nonneg (g_pool st)).
      unfold measure in Hb. cbn [start g_main g_pool main_rem rem_all fold_right] in Hb.
      lia.
    + intros st Hst Hexit.
      destruct (Inv_exit flags s Hpos st (HI st Hst) Hexit)
        as (H1 & H2 & H3 & H4 & H5 & H6 & _).
      auto 10.
  - intros Hle fuel. apply Part000_Do_unbounded; assumption.
Qed.

Lemma Do_attempt_budget_witness :
  (exists p' s' tr,
     Part000.Ping_Do flags0 (fun _ => probe_ok) ping0 summary0 lookup_ok 10
       = Returned p' s' tr /\
     probe_attempts tr = 10 /\ summary_lines tr = 1 /\ ends_with_summary tr) /\
  (exists st',
     steps flags0 lookup_ok (start ping0 summary0) st' /\ g_main st' = MExit) /\
  (exists l,
     Part000.Ping_Do flags_c0 (fun _ => probe_ok) ping0 summary0 lookup_ok 25
       = Running l /\
     probe_attempts (lp_tr l) = 25 /\ summary_lines (lp_tr l) = 0).
Proof.
  assert (Hlt : 10 < two63) by reflexivity.
  assert (Hlt0 : 0 < two63) by reflexivity.
  assert (Ha : lk_addr lookup_ok <> []) by discriminate.
  destruct (Do_attempt_budget flags0 lookup_ok ping0 summary0 (fun _ => probe_ok)
              eq_refl Ha Hlt) as [Hpos _].
  destruct (Do_attempt_budget flags_c0 lookup_ok ping0 summary0 (fun _ => probe_ok)
              eq_refl Ha Hlt0) as [_ Hzero].
  destruct (Hpos eq_refl) as (H1 & _ & H3 & _).
  split; [| split].
  - apply (H1 10%nat). apply le_n.
  - apply (H3 (start ping0 summary0)). apply steps_refl.
  - apply (Hzero (Z.le_refl 0) 25%nat).
Defined.

(** C4.  When the lookup fails or answers no address:
    - part_000: [Ping.Do] returns at once, whatever the fuel, having printed
      the error and nothing else: no call of [Ping], no dial, no summary
      line; the aggregate is untouched;
    - main.go: [Ping.Do] returns by its first statement, and in every state
      a run reaches there has been no call of [Ping], no dial, no summary
      line, no goroutine, and the aggregate is untouched. *)
Theorem Do_resolution_failure :
  forall (flags : Flags) (lk : Lookup) (p : Ping) (s : Summary)
         (world : nat -> Probe),
    (lk_err lk <> None \/ lk_addr lk = []) ->
    (forall fuel, exists e tr,
        Part000.Ping_Do flags world p s lk fuel = Returned p s tr /\
        tr = [EvOut (OutError e)] /\
        probe_attempts tr = 0 /\ dials tr = 0 /\ summary_lines tr = 0) /\
    (exists st, step flags lk (start p s) st /\ g_main st = MExit) /\
    (forall st, steps flags lk (start p s) st ->
        (g_main st = MResolve \/ g_main st = MExit) /\
        probe_attempts (sh_tr (g_sh st)) = 0 /\
        dials (sh_tr (g_sh st)) = 0 /\
        summary_lines (sh_tr (g_sh st)) = 0 /\
        g_pool st = [] /\ sh_s (g_sh st) = s /\ sh_p (g_sh st) = p).
Proof.
  intros flags lk p s world Hfail. split; [| split].
  - intros fuel.
    assert (exists e, snd (Part000.Ping_Resolver p lk) = Some e) as [e He].
    { unfold Part000.Ping_Resolver, Part001.Ping_Resolver.
      destruct (lk_err lk) as [e |]; [exists e; reflexivity |].
      destruct Hfail as [Hf | Hf]; [exfalso; apply Hf; reflexivity |].
      rewrite Hf. exists "not found addr". reflexivity. }
    exists e, [EvOut (OutError e)].
    rewrite (Part000_Do_resolution_failed flags world p s lk fuel e He).
    repeat split.
  - apply start_failed_exits. exact Hfail.
  - intros st Hst.
    destruct (start_failed_runs flags lk p s st Hfail Hst) as [-> | (e & _ & ->)];
      simpl; repeat split; auto.
Qed.

Lemma Do_resolution_failure_witness :
  (exists e tr,
     Part000.Ping_Do flags0 (fun _ => probe_ok) ping0 summary0 lookup_empty 10
       = Returned ping0 summary0 tr /\
     tr = [EvOut (OutError e)] /\
     probe_attempts tr = 0 /\ dials tr = 0 /\ summary_lines tr = 0) /\
  (exists st, step flags0 lookup_failed (start ping0 summary0) st /\ g_main st = MExit).
Proof.
  split.
  - apply (Do_resolution_failure flags0 lookup_empty ping0 summary0 (fun _ => probe_ok)).
    right. reflexivity.
  - apply (Do_resolution_failure flags0 lookup_failed ping0 summary0 (fun _ => probe_ok)).
    left. discriminate.
Defined.

(** * Further properties *)

(** ** [strconv.Atoi] and the verb [%d] *)

Lemma string_of_uint_head d :
  d <> Decimal.Nil ->
  exists a s, NilEmpty.string_of_uint d = String a s /\
              Ascii.eqb a "-"%char = false /\ Ascii.eqb a "+"%char = false.
Proof.
  destruct d; intros H; try congruence; simpl; eauto.
Qed.

Lemma Atoi_itoa z : in_int64 z -> Strconv.Atoi (itoa z) = (z, None).
Proof.
  intros Hr. unfold in_int64 in Hr. unfold itoa.
  assert (Hin : forall v, - two63 <= v < two63 ->
            (if Z.ltb v (- two63) then (- two63, Some Strconv.ErrRange)
             else if Z.leb two63 v then (two63 - 1, Some Strconv.ErrRange)
             else (v, None)) = (v, None)).
  { intros v Hv. destruct (Z.ltb_spec v (- two63)); [lia |].
    destruct (Z.leb_spec two63 v); [lia | reflexivity]. }
  destruct z as [| p | p].
  - apply (Hin 0 Hr).
  - cbn [Z.to_int NilZero.string_of_int].
    pose proof (DecimalPos.Unsigned.to_uint_nonnil p) as Hn.
    destruct (string_of_uint_head _ Hn) as (a & s & Es & E1 & E2).
    assert (Ez : NilZero.string_of_uint (Pos.to_uint p) = String a s).
    { destruct (Pos.to_uint p); [congruence | exact Es ..]. }
    rewrite Ez. unfold Strconv.Atoi. rewrite E1, E2. rewrite <- Ez.
    unfold Strconv.parse_digits. rewrite NilZero.usu by exact Hn.
    unfold Z.of_uint. rewrite DecimalPos.Unsigned.of_to. apply (Hin _ Hr).
  - cbn [Z.to_int NilZero.string_of_int].
    pose proof (DecimalPos.Unsigned.to_uint_nonnil p) as Hn.
    unfold Strconv.Atoi. rewrite Ascii.eqb_refl.
    unfold Strconv.parse_digits. rewrite NilZero.usu by exact Hn.
    unfold Z.of_uint. rewrite DecimalPos.Unsigned.of_to. apply (Hin _ Hr).
Qed.

Lemma Atoi_in_range s : in_int64 (fst (Strconv.Atoi s)).
Proof.
  assert (H0 : in_int64 0) by (unfold in_int64, two63; lia).
  assert (Hp : forall neg body, in_int64 (fst (Strconv.parse_digits neg body))).
  { intros neg body. unfold Strconv.parse_digits.
    destruct (NilZero.uint_of_string body) as [d |]; [| exact H0].
    cbv zeta.
    destruct (Z.ltb_spec (if neg then - Z.of_uint d else Z.of_uint d) (- two63));
      [unfold in_int64, two63; simpl; lia |].
    destruct (Z.leb_spec two63 (if neg then - Z.of_uint d else Z.of_uint d));
      simpl; unfold in_int64, two63 in *; lia. }
  unfold Strconv.Atoi. destruct s as [| a s']; [exact H0 |].
  destruct (Ascii.eqb a "-"); [apply Hp |]. destruct (Ascii.eqb a "+"); apply Hp.
Qed.

(** ** [init] *)

Lemma is_empty_true s : is_empty s = true <-> s = "".
Proof. destruct s; simpl; split; congruence. Qed.

Lemma is_empty_false s : is_empty s = false <-> s <> "".
Proof. destruct s; simpl; split; congruence. Qed.

Ltac init_back :=
  let H1 := fresh in let H2 := fresh in let H3 := fresh in
  let H4 := fresh in let H5 := fresh in let Hh := fresh in
  intros [(H1 & H2 & H3) |
          (H1 & ? & Hh & [(H2 & H3 & H4) | (? & ? & H2 & H3 & H4 & H5)])];
  subst; try congruence;
  try (inversion H2; subst; try congruence; try reflexivity).

(** X1.  [init] of main.go and part_000 either exits with status 127 after
    the usage line or leaves the variables ready for [main].  It leaves them
    ready exactly in these cases: [-h] gave a host and the port is not 0
    (the positional arguments are then not looked at); or [-h] gave none,
    there is one positional argument, not empty, and the port is not 0; or
    [-h] gave none, there are two positional arguments, the first not empty
    and the second a decimal number other than 0, which becomes the port. *)
Theorem Main_init_started_iff :
  forall (fl : Flags) (args : list string),
    (Main_init fl args = Exited 127 usage \/ exists fl', Main_init fl args = Started fl')
    /\
    forall fl',
      Main_init fl args = Started fl' <->
      (DefaultHost fl <> "" /\ DefaultPort fl <> 0 /\ fl' = fl) \/
      (DefaultHost fl = "" /\
       exists h, h <> "" /\
         ((args = [h] /\ DefaultPort fl <> 0 /\ fl' = set_DefaultHost fl h) \/
          (exists pt n,
              args = [h; pt] /\ Strconv.Atoi pt = (n, None) /\ n <> 0 /\
              fl' = set_DefaultPort (set_DefaultHost fl h) n))).
Proof.
  intros fl args. split.
  { unfold Main_init.
    match goal with
    | |- context [if ?b then Exited _ _ else Started ?f] =>
        destruct b; [left; reflexivity | right; exists f; reflexivity]
    end. }
  intros fl'. unfold Main_init.
  destruct (is_empty (DefaultHost fl)) eqn:Eh.
  - apply is_empty_true in Eh.
    destruct args as [| h [| pt [| x rest]]].
    + simpl. split; [discriminate | init_back].
    + simpl. destruct (is_empty h) eqn:E1;
        [apply is_empty_true in E1 | apply is_empty_false in E1]; simpl.
      * split; [discriminate | init_back].
      * destruct (Z.eqb_spec (DefaultPort fl) 0) as [E0 | E0].
        -- split; [discriminate | init_back].
        -- split; [| init_back].
           intros H. inversion H. right. split; [exact Eh |].
           exists h. split; [exact E1 |]. left. repeat split; assumption.
    + destruct (Strconv.Atoi pt) as [prot [e |]] eqn:Ea; simpl.
      * split; [discriminate | init_back].
      * destruct (is_empty h) eqn:E1;
          [apply is_empty_true in E1 | apply is_empty_false in E1]; simpl.
        -- split; [discriminate | init_back].
        -- destruct (Z.eqb_spec prot 0) as [E0 | E0].
           ++ split; [discriminate | init_back].
           ++ split; [| init_back].
              intros H. inversion H. right. split; [exact Eh |].
              exists h. split; [exact E1 |]. right. exists pt, prot. repeat split; assumption.
    + simpl. split; [discriminate | init_back].
  - assert (En : DefaultHost fl <> "") by (apply is_empty_false; exact Eh).
    simpl. rewrite Eh. simpl.
    destruct (Z.eqb_spec (DefaultPort fl) 0) as [E0 | E0].
    + split; [discriminate | init_back].
    + split; [| init_back].
      intros H. inversion H; subst. left. repeat split; assumption.
Qed.

(** X2.  Without [-h], two positional arguments [host port], the host not
    empty and the port the decimal text of a 64-bit integer other than 0,
    are taken as they are: [init] of main.go and part_000 leaves the
    variables ready with that host and that number as the port. *)
Theorem Main_init_host_and_port :
  forall (fl : Flags) (h : string) (n : Z),
    DefaultHost fl = "" -> h <> "" -> in_int64 n -> n <> 0 ->
    Main_init fl [h; itoa n] = Started (set_DefaultPort (set_DefaultHost fl h) n).
Proof.
  intros fl h n Hfl Hh Hr Hn. unfold Main_init.
  rewrite Hfl. cbn [is_empty]. rewrite (Atoi_itoa n Hr).
  cbn [set_DefaultPort set_DefaultHost DefaultHost DefaultPort].
  apply is_empty_false in Hh. rewrite Hh.
  destruct (Z.eqb_spec n 0); [contradiction | reflexivity].
Qed.

Lemma Main_init_host_and_port_witness :
  Main_init flags_parsed ["example.org"; "8080"]
  = Started (set_DefaultPort (set_DefaultHost flags_parsed "example.org") 8080).
Proof.
  apply (Main_init_host_and_port flags_parsed "example.org" 8080).
  - reflexivity.
  - discriminate.
  - unfold in_int64, two63. lia.
  - discriminate.
Defined.

(** X3.  [init] of part_001 either exits with status 1 after the usage line
    or leaves the variables ready for [main].  It leaves them ready exactly
    when [-h] gave a host (the variables are then as the flags set them), or
    [-h] gave none and there is exactly one positional argument, not empty,
    which becomes the host.  The port is never taken from the command line
    arguments and never checked: a port of 0 is accepted. *)
Theorem Part001_init_started_iff :
  forall (fl : Flags) (args : list string),
    (Part001_init fl args = Exited 1 usage \/
     exists fl', Part001_init fl args = Started fl' /\ DefaultPort fl' = DefaultPort fl)
    /\
    forall fl',
      Part001_init fl args = Started fl' <->
      (DefaultHost fl <> "" /\ fl' = fl) \/
      (DefaultHost fl = "" /\
       exists h, h <> "" /\ args = [h] /\ fl' = set_DefaultHost fl h).
Proof.
  intros fl args. unfold Part001_init.
  destruct (is_empty (DefaultHost fl)) eqn:Eh;
    [apply is_empty_true in Eh | apply is_empty_false in Eh].
  - destruct args as [| h [| x rest]]; cbv zeta.
    + rewrite Eh. simpl. split; [left; reflexivity |].
      intros fl'. split; [discriminate |].
      intros [(H & _) | (_ & h & _ & H & _)]; congruence.
    + simpl. destruct (is_empty h) eqn:E1;
        [apply is_empty_true in E1 | apply is_empty_false in E1].
      * split; [left; reflexivity |].
        intros fl'. split; [discriminate |].
        intros [(H & _) | (_ & h' & Hh & H & _)]; [congruence |].
        inversion H; subst. congruence.
      * split; [right; eexists; split; reflexivity |].
        intros fl'. split.
        -- intros H. inversion H. right. split; [exact Eh |].
           exists h. repeat split; assumption.
        -- intros [(H & _) | (_ & h' & Hh & H & ->)]; [congruence |].
           inversion H; subst. reflexivity.
    + rewrite Eh. simpl. split; [left; reflexivity |].
      intros fl'. split; [discriminate |].
      intros [(H & _) | (_ & h' & _ & H & _)]; congruence.
  - assert (E : is_empty (DefaultHost fl) = false) by (apply is_empty_false; exact Eh).
    destruct args as [| h [| x rest]]; cbv zeta; cbv beta iota; rewrite E;
      (split; [right; eexists; split; reflexivity |]);
      intros fl'; (split; [intros H; inversion H; subst; left; split; [exact Eh | reflexivity] |]);
      (intros [(_ & ->) | (H & _)]; [reflexivity | congruence]).
Qed.

(** ** Prober: what a probe does to the target *)

Lemma lazy_defaults_idem flags p :
  lazy_defaults flags (lazy_defaults flags p) = lazy_defaults flags p.
Proof.
  unfold lazy_defaults. cbn [port timeout net host addr dialer].
  f_equal.
  - destruct (is_empty (net p)) eqn:E; [| rewrite E; reflexivity].
    destruct (is_empty (DefaultNet flags)); reflexivity.
  - destruct (Z.leb_spec (port p) 0) as [H | H].
    + destruct (Z.leb (DefaultPort flags) 0); reflexivity.
    + destruct (Z.leb_spec (port p) 0); [lia | reflexivity].
  - destruct (Z.leb_spec (timeout p) 0) as [H | H].
    + destruct (Z.leb (DefaultTimeout flags) 0); reflexivity.
    + destruct (Z.leb_spec (timeout p) 0); [lia | reflexivity].
Qed.

(** X4.  In every variant a probe leaves the host and the resolved address
    of the target as they are, and whatever it writes to the target it
    writes once: a second probe, whatever its result, leaves the target as
    the first one left it. *)
Theorem Ping_target_settles :
  forall (v : Variant) (flags : Flags) (p : Ping) (w w' : Probe),
    let p1 := fst (fst (Ping_of v flags p w)) in
    host p1 = host p /\ addr p1 = addr p /\
    fst (fst (Ping_of v flags p1 w')) = p1.
Proof.
  intros v flags p w w'.
  destruct v; cbv zeta;
    unfold Ping_of, Part000.Ping_Ping, Part001.Ping_Ping, Main.Ping_Ping.
  all: destruct (is_empty (addr p)) eqn:Ea; cbn [fst].
  all: try (rewrite Ea; cbn [fst]; repeat split; fail).
  all: cbn [addr host lazy_defaults set_dialer]; rewrite ?Ea; cbn [fst].
  all: repeat split.
  - unfold set_dialer. cbn [net host addr port dialer timeout].
    pose proof (lazy_defaults_idem flags p) as Hi.
    unfold lazy_defaults in *. cbn [net host addr port dialer timeout] in *.
    inversion Hi as [[Hn Hp Ht]]. rewrite !Hn, !Hp, !Ht. reflexivity.
  - unfold set_dialer. cbn [net host addr port dialer timeout].
    pose proof (lazy_defaults_idem flags p) as Hi.
    unfold lazy_defaults in *. cbn [net host addr port dialer timeout] in *.
    inversion Hi as [[Hn Hp Ht]]. rewrite !Hn, !Hp, !Ht. reflexivity.
  - apply lazy_defaults_idem.
Qed.

Lemma ToLower_empty s : is_empty (ToLower s) = is_empty s.
Proof. destruct s; reflexivity. Qed.

Lemma main_ping_defaults flags b a :
  lazy_defaults flags (set_addr (main_ping flags b) a) = set_addr (main_ping flags b) a.
Proof.
  unfold lazy_defaults, set_addr, main_ping.
  cbn [net host addr port dialer timeout]. f_equal.
  - destruct b.
    + rewrite ToLower_empty. destruct (DefaultNet flags); reflexivity.
    + destruct (is_empty (DefaultNet flags)); reflexivity.
  - destruct (Z.leb (DefaultPort flags) 0); reflexivity.
  - destruct (Z.leb (DefaultTimeout flags) 0); reflexivity.
Qed.

(** X5.  For the target [main] builds from the flags, once resolved to an
    address [a], the port, timeout and transport defaults of [Ping] change
    nothing.  So in main.go a probe leaves the target exactly as it is, and
    in part_000 and part_001 all it changes, when the address is not empty,
    is the dialer field, set to a dialer whose timeout is [DefaultTimeout]
    seconds. *)
Theorem main_target_unchanged_by_Ping :
  forall (flags : Flags) (b : bool) (a : string) (w : Probe),
    let p := set_addr (main_ping flags b) a in
    lazy_defaults flags p = p /\
    fst (fst (Main.Ping_Ping flags p w)) = p /\
    (a <> "" ->
     fst (fst (Part001.Ping_Ping flags p w))
     = set_dialer p {| Timeout := wrap64 (DefaultTimeout flags * second) |}).
Proof.
  intros flags b a w. cbv zeta.
  pose proof (main_ping_defaults flags b a) as Hd.
  split; [exact Hd |]. split.
  - unfold Main.Ping_Ping. destruct (is_empty (addr (set_addr (main_ping flags b) a)));
      cbn [fst]; [reflexivity | exact Hd].
  - intros Ha. unfold Part001.Ping_Ping.
    assert (E : is_empty (addr (set_addr (main_ping flags b) a)) = false).
    { cbn [addr set_addr]. apply is_empty_false. exact Ha. }
    rewrite E. cbn [fst]. rewrite Hd. reflexivity.
Qed.

Lemma main_target_unchanged_by_Ping_witness :
  fst (fst (Part001.Ping_Ping flags0 (set_addr (main_ping flags0 false) "192.0.2.1") probe_ok))
  = set_dialer (set_addr (main_ping flags0 false) "192.0.2.1")
               {| Timeout := wrap64 (DefaultTimeout flags0 * second) |}.
Proof.
  apply (main_target_unchanged_by_Ping flags0 false "192.0.2.1" probe_ok).
  discriminate.
Defined.

(** ** part_001: the loop *)

Section Part001_loop.

Import Part001Do.

Variable flags : Flags.
Variable world : nat -> Probe.

Let c := DefaultCount flags.

(** Sleeps made by [k] passes that stay in the loop. *)
Let naps (k : nat) : Z := if Z.ltb 0 (DefaultInterval flags) then Z.of_nat k else 0.

Lemma count_app f tr1 tr2 : count f (tr1 ++ tr2) = count f tr1 + count f tr2.
Proof. unfold count. rewrite filter_app, length_app. lia. Qed.

Lemma count_cons f e tr : count f (e :: tr) = (if f e then 1 else 0) + count f tr.
Proof. unfold count. simpl. destruct (f e); simpl List.length; lia. Qed.

Lemma count_acts f acts :
  (forall a, f (EAct a) = false) -> count f (map EAct acts) = 0.
Proof.
  intros Hf. induction acts as [| a acts IH]; [reflexivity |].
  simpl map. rewrite count_cons, Hf, IH. reflexivity.
Qed.

Lemma iteration_counts l l' b :
  iteration flags world l = (l', b) ->
  lp_n l' = S (lp_n l) /\
  count is_ping (lp_tr l') = count is_ping (lp_tr l) + 1 /\
  count is_outcome (lp_tr l') = count is_outcome (lp_tr l) + 1 /\
  count is_sleep (lp_tr l') = count is_sleep (lp_tr l) + (if b then 0 else naps 1) /\
  lp_i l' = (if Z.ltb 0 c then add64 (lp_i l) 1 else lp_i l) /\
  b = (Z.ltb 0 c && Z.leb c (add64 (lp_i l) 1))%bool.
Proof.
  unfold iteration, naps. fold c.
  destruct (Part001.Ping_Ping flags (lp_p l) (world (lp_n l))) as [[p1 stats] acts].
  assert (L : is_ping (ELine (outcome_line p1 stats)) = false /\
              is_outcome (ELine (outcome_line p1 stats)) = true /\
              is_sleep (ELine (outcome_line p1 stats)) = false).
  { unfold outcome_line. destruct (Error stats); repeat split. }
  destruct L as (L1 & L2 & L3).
  assert (T : forall f, (forall a, f (EAct a) = false) ->
                count f (EPing :: map EAct acts ++ [ELine (outcome_line p1 stats)])
                = (if f EPing then 1 else 0)
                  + (if f (ELine (outcome_line p1 stats)) then 1 else 0)).
  { intros f Hf. rewrite count_cons, count_app, count_acts, count_cons by exact Hf.
    change (count f []) with 0. lia. }
  pose proof (T is_ping (fun _ => eq_refl)) as T1.
  pose proof (T is_outcome (fun _ => eq_refl)) as T2.
  pose proof (T is_sleep (fun _ => eq_refl)) as T3.
  rewrite L1 in T1. rewrite L2 in T2. rewrite L3 in T3.
  cbn [is_ping is_outcome is_sleep] in T1, T2, T3.
  destruct (Z.ltb 0 c); [destruct (Z.leb c (add64 (lp_i l) 1)) |];
    intros H; inversion H; subst l' b; cbn [lp_n lp_tr lp_i andb];
    rewrite ?count_app, ?T1, ?T2, ?T3;
    destruct (Z.ltb 0 (DefaultInterval flags));
    rewrite ?count_cons; cbn [is_ping is_outcome is_sleep];
    change (count is_ping []) with 0; change (count is_outcome []) with 0;
    change (count is_sleep []) with 0;
    repeat split; lia.
Qed.

(** What [k] passes that stay in the loop add to the history. *)
Lemma loop_running1 k : forall l,
  0 < c < two63 -> 0 <= lp_i l -> lp_i l + Z.of_nat k < c ->
  exists l', loop flags world k l = (l', false) /\
             lp_i l' = lp_i l + Z.of_nat k /\
             count is_ping (lp_tr l') = count is_ping (lp_tr l) + Z.of_nat k /\
             count is_outcome (lp_tr l') = count is_outcome (lp_tr l) + Z.of_nat k /\
             count is_sleep (lp_tr l') = count is_sleep (lp_tr l) + naps k.
Proof.
  induction k as [| k IH]; intros l Hc Hi Hk.
  - exists l. unfold naps. simpl.
    destruct (Z.ltb 0 (DefaultInterval flags)); repeat split; lia.
  - simpl loop. destruct (iteration flags world l) as [l1 b] eqn:Hit.
    pose proof (iteration_counts _ _ _ Hit) as (_ & E1 & E2 & E3 & Ei & Eb).
    assert (Hadd : add64 (lp_i l) 1 = lp_i l + 1).
    { apply wrap64_small. unfold in_int64, two63 in *. lia. }
    rewrite Hadd in Ei, Eb.
    replace (Z.ltb 0 c) with true in Ei, Eb by (symmetry; apply Z.ltb_lt; lia).
    replace (Z.leb c (lp_i l + 1)) with false in Eb by (symmetry; apply Z.leb_gt; lia).
    simpl in Eb. subst b.
    destruct (IH l1) as (l' & Hl & Hi' & G1 & G2 & G3); [exact Hc | lia | lia |].
    exists l'. split; [exact Hl |].
    rewrite G1, G2, G3, E1, E2, E3. unfold naps in *.
    destruct (Z.ltb 0 (DefaultInterval flags)); repeat split; lia.
Qed.

Lemma loop_last1 k : forall l l1,
  loop flags world k l = (l1, false) ->
  forall l', iteration flags world l1 = (l', true) ->
  loop flags world (k + 1) l = (l', true).
Proof.
  induction k as [| k IH]; intros l l1 Hl l' Hit; simpl in *.
  - inversion Hl; subst l1. rewrite Hit. reflexivity.
  - destruct (iteration flags world l) as [l2 b]. destruct b; [discriminate |].
    eapply IH; eassumption.
Qed.

Lemma loop_more_fuel1 n : forall l l' m,
  loop flags world n l = (l', true) -> loop flags world (n + m) l = (l', true).
Proof.
  induction n as [| n IH]; intros l l' m H; simpl in *.
  - discriminate.
  - destruct (iteration flags world l) as [l1 b]. destruct b; [exact H |].
    apply IH, H.
Qed.

Lemma loop_unbounded1 k : forall l,
  c <= 0 ->
  exists l', loop flags world k l = (l', false) /\
             count is_ping (lp_tr l') = count is_ping (lp_tr l) + Z.of_nat k /\
             count is_outcome (lp_tr l') = count is_outcome (lp_tr l) + Z.of_nat k.
Proof.
  induction k as [| k IH]; intros l Hc.
  - exists l. simpl. repeat split; lia.
  - simpl loop. destruct (iteration flags world l) as [l1 b] eqn:Hit.
    pose proof (iteration_counts _ _ _ Hit) as (_ & E1 & E2 & _ & _ & Eb).
    replace (Z.ltb 0 c) with false in Eb by (symmetry; apply Z.ltb_ge; lia).
    simpl in Eb. subst b.
    destruct (IH l1 Hc) as (l' & Hl & G1 & G2).
    exists l'. split; [exact Hl |]. rewrite G1, G2, E1, E2. split; lia.
Qed.

End Part001_loop.

(** X6.  [Ping.Do] of part_001 after a successful resolution.  With an
    attempt count [c > 0] it returns as soon as it is given fuel for [c]
    passes, having called [Ping] exactly [c] times, printed exactly [c]
    outcome lines and, when an interval is set, slept [c - 1] times (not
    after the last attempt); with less fuel it is still in the loop.  With
    [c <= 0] it never leaves the loop. *)
Theorem Part001_Do_attempt_budget :
  forall (flags : Flags) (lk : Lookup) (p : Ping) (world : nat -> Probe),
    lk_err lk = None -> lk_addr lk <> [] ->
    DefaultCount flags < two63 ->
    (0 < DefaultCount flags ->
     (forall fuel, (Z.to_nat (DefaultCount flags) <= fuel)%nat ->
        exists p' tr,
          Part001Do.Ping_Do flags world p lk fuel = Part001Do.Returned p' tr /\
          Part001Do.count Part001Do.is_ping tr = DefaultCount flags /\
          Part001Do.count Part001Do.is_outcome tr = DefaultCount flags /\
          Part001Do.count Part001Do.is_sleep tr
          = (if Z.ltb 0 (DefaultInterval flags) then DefaultCount flags - 1 else 0)) /\
     (forall fuel, Z.of_nat fuel < DefaultCount flags ->
        exists l,
          Part001Do.Ping_Do flags world p lk fuel = Part001Do.Running l /\
          Part001Do.count Part001Do.is_ping (Part001Do.lp_tr l) = Z.of_nat fuel))
    /\
    (DefaultCount flags <= 0 ->
     forall fuel,
       exists l,
         Part001Do.Ping_Do flags world p lk fuel = Part001Do.Running l /\
         Part001Do.count Part001Do.is_ping (Part001Do.lp_tr l) = Z.of_nat fuel /\
         Part001Do.count Part001Do.is_outcome (Part001Do.lp_tr l) = Z.of_nat fuel).
Proof.
  intros flags lk p world He Ha Hlt.
  assert (Hres : exists p1, Part001.Ping_Resolver p lk = (p1, None)).
  { unfold Part001.Ping_Resolver. rewrite He.
    destruct (lk_addr lk) as [| a0 rest]; [congruence |].
    destruct (ContainsRune a0 ":"); eauto. }
  destruct Hres as [p1 Hres].
  unfold Part001Do.Ping_Do. rewrite Hres.
  set (l0 := {| Part001Do.lp_p := p1; Part001Do.lp_i := 0; Part001Do.lp_n := 0%nat;
                Part001Do.lp_tr := [] |}).
  split.
  - intros Hpos. assert (Hc : 0 < DefaultCount flags < two63) by lia. split.
    + intros fuel Hfuel.
      remember (Z.to_nat (DefaultCount flags - 1)) as k eqn:Ek.
      destruct (loop_running1 flags world k l0 Hc) as (l1 & Hl & Hi & G1 & G2 & G3);
        [simpl; lia | simpl; lia |].
      destruct (Part001Do.iteration flags world l1) as [l' b] eqn:Hit.
      pose proof (iteration_counts flags world _ _ _ Hit) as (_ & E1 & E2 & E3 & _ & Eb).
      cbv zeta in Eb, G3, E3. simpl Part001Do.lp_i in Hi.
      assert (Hadd : add64 (Part001Do.lp_i l1) 1 = Part001Do.lp_i l1 + 1).
      { apply wrap64_small. unfold in_int64, two63 in *. lia. }
      rewrite Hadd in Eb.
      replace (Z.ltb 0 (DefaultCount flags)) with true in Eb
        by (symmetry; apply Z.ltb_lt; lia).
      replace (Z.leb (DefaultCount flags) (Part001Do.lp_i l1 + 1)) with true in Eb
        by (symmetry; apply Z.leb_le; lia).
      simpl in Eb. subst b.
      pose proof (loop_last1 flags world k l0 l1 Hl l' Hit) as Hlast.
      replace fuel with ((k + 1) + (fuel - (k + 1)))%nat by lia.
      rewrite (loop_more_fuel1 flags world _ _ _ _ Hlast).
      exists (Part001Do.lp_p l'), (Part001Do.lp_tr l').
      split; [reflexivity |].
      rewrite E1, E2, E3, G1, G2, G3. simpl Part001Do.lp_tr.
      change (Part001Do.count Part001Do.is_ping []) with 0.
      change (Part001Do.count Part001Do.is_outcome []) with 0.
      change (Part001Do.count Part001Do.is_sleep []) with 0.
      destruct (Z.ltb 0 (DefaultInterval flags)); repeat split; lia.
    + intros fuel Hfuel.
      destruct (loop_running1 flags world fuel l0 Hc) as (l1 & Hl & _ & G1 & _);
        [simpl; lia | simpl; lia |].
      rewrite Hl. exists l1. split; [reflexivity |]. rewrite G1. reflexivity.
  - intros Hle fuel.
    destruct (loop_unbounded1 flags world fuel l0 Hle) as (l1 & Hl & G1 & G2).
    rewrite Hl. exists l1. split; [reflexivity |]. rewrite G1, G2. split; reflexivity.
Qed.

Lemma Part001_Do_attempt_budget_witness :
  (exists p' tr,
     Part001Do.Ping_Do flags0 (fun _ => probe_ok) (main_ping flags0 false) lookup_ok 10
     = Part001Do.Returned p' tr /\
     Part001Do.count Part001Do.is_ping tr = 10 /\
     Part001Do.count Part001Do.is_outcome tr = 10 /\
     Part001Do.count Part001Do.is_sleep tr = 9) /\
  (exists l,
     Part001Do.Ping_Do flags_c0 (fun _ => probe_ok) (main_ping flags_c0 false) lookup_ok 25
     = Part001Do.Running l /\
     Part001Do.count Part001Do.is_ping (Part001Do.lp_tr l) = 25 /\
     Part001Do.count Part001Do.is_outcome (Part001Do.lp_tr l) = 25).
Proof.
  assert (Hlt : 10 < two63) by reflexivity.
  assert (Hlt0 : 0 < two63) by reflexivity.
  assert (Ha : lk_addr lookup_ok <> []) by discriminate.
  destruct (Part001_Do_attempt_budget flags0 lookup_ok (main_ping flags0 false)
              (fun _ => probe_ok) eq_refl Ha Hlt) as [Hpos _].
  destruct (Part001_Do_attempt_budget flags_c0 lookup_ok (main_ping flags_c0 false)
              (fun _ => probe_ok) eq_refl Ha Hlt0) as [_ Hzero].
  destruct (Hpos eq_refl) as (H1 & _).
  split.
  - apply (H1 10%nat). apply le_n.
  - apply (Hzero (Z.le_refl 0) 25%nat).
Defined.

(** ** Aggregator: the average, and the order of the outcomes *)

Lemma sumZ_bounds l a b :
  (forall d, In d l -> a <= d <= b) ->
  Z.of_nat (List.length l) * a <= sumZ l <= Z.of_nat (List.length l) * b.
Proof.
  induction l as [| d l IH]; intros H.
  - simpl. lia.
  - assert (Hd : a <= d <= b) by (apply H; simpl; auto).
    assert (Hl : forall x, In x l -> a <= x <= b) by (intros x Hx; apply H; simpl; auto).
    specialize (IH Hl). unfold sumZ in *. cbn [fold_right List.length].
    rewrite Nat2Z.inj_succ. nia.
Qed.

(** X7.  When every recorded success has a positive duration, their sum
    fits in 64 bits, fewer than 2^63 outcomes were recorded and there is at
    least one success, the average a rendering computes and prints lies
    between the minimum and the maximum: [MIN <= AVG <= MAX]. *)
Theorem Stats_average_between_MIN_and_MAX :
  forall (p : Ping) (now : Time) (evs : list AggEvent) (el : option Duration),
    (forall d, In d (successes evs) -> 0 < d) ->
    successes evs <> [] ->
    in_int64 (sumZ (successes evs)) ->
    attempts_recorded evs < two63 ->
    exists s s' o,
      agg_run (main_summary p now) evs = Some s /\
      render s el = Some (s', o) /\
      printed_avg o = Some (AVG s') /\
      MIN s' <= AVG s' <= MAX s'.
Proof.
  intros p now evs el Hpos Hne Hsum Hlt.
  destruct (agg_run_total evs (main_summary p now)) as [s Hrun].
  destruct (agg_run_counters evs _ s 0 0 0 Hrun eq_refl eq_refl eq_refl)
    as (Hc & He & Hs & _).
  simpl in Hc, He, Hs.
  pose proof (attempts_split evs) as Hsplit.
  pose proof (errors_nonneg evs) as Hen.
  assert (Hr : forall z, 0 <= z < two63 -> wrap64 z = z)
    by (intros z Hz; apply wrap64_small; unfold in_int64; lia).
  assert (Hn : 0 < Z.of_nat (List.length (successes evs))).
  { destruct (successes evs); [congruence | simpl List.length; lia]. }
  assert (Hcnt : sub64 (Count s) (ErrCount s) = Z.of_nat (List.length (successes evs))).
  { unfold sub64. rewrite Hc, He, wrap64_sub.
    replace (attempts_recorded evs - errors evs)
      with (Z.of_nat (List.length (successes evs))) by lia.
    apply Hr. lia. }
  rewrite (wrap64_small _ Hsum) in Hs.
  assert (HM : forall d, In d (successes evs) -> d <= MAX s).
  { apply (MAX_upper_bound evs _ s [] Hrun). intros d []. }
  assert (Hm : forall d, In d (successes evs) -> MIN s <= d).
  { intros d Hd.
    destruct (MIN_lower_bound evs _ s [] Hrun) as [Hm _];
      [intros x [] | congruence |].
    apply Hm. fold (since_zero (successes evs)). unfold since_zero.
    rewrite since_zero_from_nonzero; [exact Hd |].
    intros x Hx. apply Hpos in Hx. lia. }
  assert (Hb : Z.of_nat (List.length (successes evs)) * MIN s <= sumZ (successes evs)
               <= Z.of_nat (List.length (successes evs)) * MAX s).
  { apply sumZ_bounds. intros d Hd. split; [apply Hm | apply HM]; exact Hd. }
  pose proof (render_cases s el) as Hrender. cbv zeta in Hrender.
  rewrite Hcnt in Hrender.
  replace (Z.ltb 0 (Z.of_nat (List.length (successes evs)))) with true in Hrender
    by (symmetry; apply Z.ltb_lt; exact Hn).
  do 3 eexists. split; [exact Hrun |]. split; [exact Hrender |].
  split; [reflexivity |].
  cbn [set_AVG MIN MAX AVG]. rewrite Hs.
  assert (H0 : 0 <= sumZ (successes evs)).
  { assert (Hmin0 : 0 <= MIN s).
    { destruct (MIN_MAX_attained evs _ s [] Hrun Hpos) as [(E0 & _) | (Im & _)].
      - left. repeat split.
      - simpl in E0. congruence.
      - simpl in Im. apply Hpos in Im. lia. }
    nia. }
  rewrite wrap64_quot by (assumption || lia).
  rewrite Z.quot_div_nonneg by lia.
  split.
  - apply Z.div_le_lower_bound; lia.
  - apply Z.div_le_upper_bound; lia.
Qed.

Lemma Stats_average_between_MIN_and_MAX_witness :
  exists s s' o,
    agg_run summary0 history_positive = Some s /\
    render s None = Some (s', o) /\
    printed_avg o = Some (AVG s') /\
    MIN s' <= AVG s' <= MAX s'.
Proof.
  apply (Stats_average_between_MIN_and_MAX ping0 0 history_positive None).
  - simpl. intros d [<- | [<- | []]]; lia.
  - simpl. discriminate.
  - vm_compute. split; [discriminate | reflexivity].
  - reflexivity.
Defined.

Lemma Permutation_successes evs1 evs2 :
  Permutation.Permutation evs1 evs2 ->
  Permutation.Permutation (successes evs1) (successes evs2) /\
  errors evs1 = errors evs2 /\
  attempts_recorded evs1 = attempts_recorded evs2.
Proof.
  induction 1 as [| x l l' _ IH | x y l | l l' l'' _ IH1 _ IH2].
  - repeat split. constructor.
  - destruct IH as (I1 & I2 & I3).
    destruct x as [p stats | el]; simpl; [| auto].
    destruct (Error stats); repeat split; auto; try lia;
      try (constructor; exact I1).
  - destruct x as [p stats | el]; destruct y as [q stats' | el']; simpl;
      try destruct (Error stats); try destruct (Error stats');
      repeat split; try lia; try apply Permutation.Permutation_refl.
    apply Permutation.perm_swap.
  - destruct IH1 as (I1 & I2 & I3). destruct IH2 as (J1 & J2 & J3).
    repeat split; try congruence.
    eapply Permutation.perm_trans; eassumption.
Qed.

Lemma Permutation_sumZ l1 l2 : Permutation.Permutation l1 l2 -> sumZ l1 = sumZ l2.
Proof.
  unfold sumZ. induction 1; simpl; lia.
Qed.

(** X8.  When every recorded success has a positive duration, the counters,
    the sum, the minimum and the maximum do not depend on the order in
    which the outcomes were recorded: two histories that are permutations
    of one another leave the same [Count], [ErrCount], [SUM], [MIN] and
    [MAX]. *)
Theorem aggregate_independent_of_order :
  forall (p : Ping) (now : Time) (evs1 evs2 : list AggEvent),
    Permutation.Permutation evs1 evs2 ->
    (forall d, In d (successes evs1) -> 0 < d) ->
    exists s1 s2,
      agg_run (main_summary p now) evs1 = Some s1 /\
      agg_run (main_summary p now) evs2 = Some s2 /\
      Count s1 = Count s2 /\ ErrCount s1 = ErrCount s2 /\ SUM s1 = SUM s2 /\
      MIN s1 = MIN s2 /\ MAX s1 = MAX s2.
Proof.
  intros p now evs1 evs2 Hperm Hpos1.
  destruct (Permutation_successes _ _ Hperm) as (Ps & Pe & Pa).
  assert (Hpos2 : forall d, In d (successes evs2) -> 0 < d).
  { intros d Hd. apply Hpos1.
    apply (Permutation.Permutation_in d (Permutation.Permutation_sym Ps) Hd). }
  destruct (agg_run_total evs1 (main_summary p now)) as [s1 Hrun1].
  destruct (agg_run_total evs2 (main_summary p now)) as [s2 Hrun2].
  destruct (agg_run_counters evs1 _ s1 0 0 0 Hrun1 eq_refl eq_refl eq_refl)
    as (Hc1 & He1 & Hs1 & _).
  destruct (agg_run_counters evs2 _ s2 0 0 0 Hrun2 eq_refl eq_refl eq_refl)
    as (Hc2 & He2 & Hs2 & _).
  exists s1, s2. split; [exact Hrun1 |]. split; [exact Hrun2 |].
  split; [rewrite Hc1, Hc2, Pa; reflexivity |].
  split; [rewrite He1, He2, Pe; reflexivity |].
  split; [rewrite Hs1, Hs2, (Permutation_sumZ _ _ Ps); reflexivity |].
  assert (HM1 : forall d, In d (successes evs1) -> d <= MAX s1)
    by (apply (MAX_upper_bound evs1 _ s1 [] Hrun1); intros d []).
  assert (HM2 : forall d, In d (successes evs2) -> d <= MAX s2)
    by (apply (MAX_upper_bound evs2 _ s2 [] Hrun2); intros d []).
  assert (Hlow : forall evs s, agg_run (main_summary p now) evs = Some s ->
             (forall d, In d (successes evs) -> 0 < d) ->
             forall d, In d (successes evs) -> MIN s <= d).
  { intros evs s Hrun Hpos d Hd.
    destruct (MIN_lower_bound evs _ s [] Hrun) as [Hm _];
      [intros x [] | congruence |].
    apply Hm. unfold since_zero. rewrite since_zero_from_nonzero; [exact Hd |].
    intros x Hx. apply Hpos in Hx. lia. }
  pose proof (Hlow evs1 s1 Hrun1 Hpos1) as Hm1.
  pose proof (Hlow evs2 s2 Hrun2 Hpos2) as Hm2.
  destruct (MIN_MAX_attained evs1 _ s1 [] Hrun1 Hpos1) as [(E1 & A1 & B1) | (A1 & B1 & _)];
    [left; repeat split | |];
  destruct (MIN_MAX_attained evs2 _ s2 [] Hrun2 Hpos2) as [(E2 & A2 & B2) | (A2 & B2 & _)];
    try (left; repeat split); simpl in *.
  - split; congruence.
  - exfalso. rewrite E1 in Ps. apply Permutation.Permutation_nil in Ps.
    rewrite Ps in A2. destruct A2.
  - exfalso. rewrite E2 in Ps. apply Permutation.Permutation_sym in Ps.
    apply Permutation.Permutation_nil in Ps. rewrite Ps in A1. destruct A1.
  - assert (A12 : In (MIN s1) (successes evs2))
      by (apply (Permutation.Permutation_in _ Ps A1)).
    assert (A21 : In (MIN s2) (successes evs1))
      by (apply (Permutation.Permutation_in _ (Permutation.Permutation_sym Ps) A2)).
    assert (B12 : In (MAX s1) (successes evs2))
      by (apply (Permutation.Permutation_in _ Ps B1)).
    assert (B21 : In (MAX s2) (successes evs1))
      by (apply (Permutation.Permutation_in _ (Permutation.Permutation_sym Ps) B2)).
    apply Hm2 in A12. apply Hm1 in A21. apply HM2 in B12. apply HM1 in B21.
    split; lia.
Qed.

Lemma aggregate_independent_of_order_witness :
  exists s1 s2,
    agg_run (main_summary ping0 0) history_positive = Some s1 /\
    agg_run (main_summary ping0 0)
            [Recorded ping0 (failure "connection refused"); Recorded ping0 (success 5);
             Recorded ping0 (success 3); Rendered None] = Some s2 /\
    Count s1 = Count s2 /\ ErrCount s1 = ErrCount s2 /\ SUM s1 = SUM s2 /\
    MIN s1 = MIN s2 /\ MAX s1 = MAX s2.
Proof.
  apply (aggregate_independent_of_order ping0 0).
  - apply Permutation.perm_swap.
  - simpl. intros d [<- | [<- | []]]; lia.
Defined.

(** ** main.go: more about the scheduler *)

Import Main Sched Sched2.

Lemma dials_to_app n a t tr1 tr2 :
  dials_to n a t tr1 -> dials_to n a t tr2 -> dials_to n a t (tr1 ++ tr2).
Proof. unfold dials_to. intros H1 H2. apply Forall_app. split; assumption. Qed.

(** What one call of [Ping] of main.go adds to a history. *)
Lemma Ping_chunk flags p w :
  let '(p', stats, acts) := Main.Ping_Ping flags p w in
  let evs := EvPing :: map EvAct acts in
  p' = (if is_empty (addr p) then p else lazy_defaults flags p) /\
  sleeps evs = 0 /\ success_lines evs = 0 /\
  closes evs = b2z (holds_success (RLock stats)) /\
  (addr p <> "" ->
   dials evs = 1 /\
   dials_to (net (lazy_defaults flags p))
            (addr p ++ ":" ++ itoa (port (lazy_defaults flags p)))
            (wrap64 (timeout (lazy_defaults flags p) * second)) evs) /\
  (addr p = "" -> dials evs = 0).
Proof.
  unfold Main.Ping_Ping.
  destruct (is_empty (addr p)) eqn:Ea.
  - apply is_empty_true in Ea. cbv zeta.
    split; [reflexivity |]. split; [reflexivity |]. split; [reflexivity |].
    split; [reflexivity |]. split; [intros Hn; congruence | intros _; reflexivity].
  - apply is_empty_false in Ea. cbv zeta.
    unfold dial_stats, dial_actions.
    destruct (pr_dial w);
      (split; [reflexivity |]); (split; [reflexivity |]); (split; [reflexivity |]);
      (split; [reflexivity |]);
      (split; [| intros Hn; congruence]);
      intros _; (split; [reflexivity |]);
      unfold dials_to; repeat constructor.
Qed.

(** What the line of a recorded outcome adds to a history. *)
Lemma outcome_chunk p s stats :
  let '(s1, o) := outcome_branch p s stats in
  sleeps [EvOut o] = 0 /\ closes [EvOut o] = 0 /\ dials [EvOut o] = 0 /\
  success_lines [EvOut o] = b2z (holds_success (RBranch stats)).
Proof.
  unfold outcome_branch. cbn [holds_success].
  destruct (Error stats); repeat split.
Qed.

Section MainInv2.

Variable flags : Flags.
Variable lk : Lookup.
Variable s0 : Summary.
Variable p0 p1 : Ping.

Hypothesis Hc63 : DefaultCount flags < two63.
Hypothesis Hlk : lk_err lk = None /\ lk_addr lk <> [].
Hypothesis Hres : fst (fst (Main.Ping_Resolver flags p0 lk)) = p1.
Hypothesis Hstable : lazy_defaults flags p1 = p1.

Ltac open2 :=
  cbn [g_main g_pool g_sh with_p with_s with_lock with_wg
       sh_tr sh_s sh_lock sh_wg sh_p] in *;
  unfold sleeps, closes, success_lines, dials, probe_attempts in *;
  rewrite ?cnt_threads, ?cnt_app, ?cnt_cons, ?cnt_nil, ?app_nil_r, ?count_ev_app in *;
  cbn [b2z main_cnt is_resolve synchronous slept is_exit] in *.

Lemma Inv2_thread w sh sh' m m' pool pool' l1 pc l2 pc' :
  Inv (DefaultCount flags) s0 {| g_sh := sh; g_main := m; g_pool := pool |} ->
  Inv2 flags p0 p1 {| g_sh := sh; g_main := m; g_pool := pool |} ->
  threads {| g_sh := sh; g_main := m; g_pool := pool |} = (l1 ++ pc :: l2)%list ->
  threads {| g_sh := sh'; g_main := m'; g_pool := pool' |} = (l1 ++ pc' :: l2)%list ->
  Summary_Result flags w pc sh = Some (pc', sh') ->
  slept (DefaultCount flags) m' = slept (DefaultCount flags) m -> synchronous m' = synchronous m ->
  is_resolve m' = is_resolve m -> is_exit m' = is_exit m ->
  (pool = [] -> pool' = []) ->
  Inv2 flags p0 p1 {| g_sh := sh'; g_main := m'; g_pool := pool' |}.
Proof.
  intros HI [Ht Hint Hsl Hcon Hd Hcl Hlast] Hthr Hthr' Hres' Es Ey Er Ee Hpool.
  destruct (Summary_Result_live _ _ _ _ _ _ Hres') as [Hlive _].
  assert (Hnr : is_resolve m = false).
  { destruct m; try reflexivity.
    destruct (inv_start _ _ _ HI eq_refl) as (_ & Hp0 & _).
    cbn [g_pool g_main threads] in *. rewrite Hp0 in Hthr. destruct l1; discriminate. }
  assert (Hne : is_exit m = false).
  { destruct m; try reflexivity.
    pose proof (inv_joined _ _ _ HI eq_refl) as Hj.
    pose proof (inv_wg _ _ _ HI) as Hwg. rewrite Hthr in Hwg.
    cbn [g_main g_sh] in *. rewrite Hj, cnt_app, cnt_cons, Hlive in Hwg.
    pose proof (cnt_nonneg live l1). pose proof (cnt_nonneg live l2).
    cbn [b2z is_dispatch] in Hwg. lia. }
  cbn [g_main g_pool g_sh] in *. rewrite Hthr in Hcl.
  rewrite Hnr in Ht. rewrite <- Er in Hnr. rewrite <- Ee in Hne.
  rewrite <- Es in Hsl. rewrite <- Ey in Hcon.
  assert (Hnx : m' <> MExit) by (intros ->; discriminate).
  clear Hlast.
  destruct pc; cbn [Summary_Result] in Hres'.
  - rewrite Ht in Hres'.
    pose proof (Ping_chunk flags p1 w) as C.
    destruct (Main.Ping_Ping flags p1 w) as [[p1' stats] acts].
    destruct C as (Cp & C1 & C2 & C3 & C4 & C5).
    assert (Ep : p1' = p1) by (rewrite Cp, Hstable; destruct (is_empty (addr p1)); reflexivity).
    inversion Hres'; subst pc' sh'; clear Hres'.
    constructor; cbn [g_main g_pool g_sh with_p sh_p sh_tr]; rewrite ?Hthr', ?Hnr.
    + exact Ep.
    + auto.
    + intros Hi Hp. unfold sleeps in *. rewrite count_ev_app, C1, Hsl by assumption. lia.
    + intros Hi. destruct (Hcon Hi) as [Y1 Y2]. split; [exact Y1 |].
      unfold sleeps in *. rewrite count_ev_app, C1, Y2. reflexivity.
    + intros Ha. destruct (Hd Ha) as [D1 D2]. destruct (C4 Ha) as [D3 D4].
      rewrite Hstable in D4. split.
      * unfold dials, probe_attempts in *.
        rewrite !count_ev_app, D1, D3, count_ev_cons, count_ev_acts by reflexivity.
        reflexivity.
      * apply dials_to_app; assumption.
    + unfold closes, success_lines in *.
      rewrite !count_ev_app, C2, C3, Hcl, !cnt_app, !cnt_cons.
      cbn [holds_success b2z]. lia.
    + intros E. congruence.
  - destruct (sh_lock sh); [discriminate |].
    inversion Hres'; subst pc' sh'; clear Hres'.
    constructor; cbn [g_main g_pool g_sh with_lock sh_p sh_tr];
      rewrite ?Hthr', ?Hnr; auto; try congruence.
    rewrite Hcl, !cnt_app, !cnt_cons. reflexivity.
  - inversion Hres'; subst pc' sh'; clear Hres'.
    constructor; cbn [g_main g_pool g_sh with_s sh_p sh_tr];
      rewrite ?Hthr', ?Hnr, ?app_nil_r; auto; try congruence.
    rewrite Hcl, !cnt_app, !cnt_cons. reflexivity.
  - pose proof (outcome_chunk (sh_p sh) (sh_s sh) stats) as C.
    destruct (outcome_branch (sh_p sh) (sh_s sh) stats) as [s1 o].
    destruct C as (C1 & C2 & C3 & C4).
    inversion Hres'; subst pc' sh'; clear Hres'.
    constructor; cbn [g_main g_pool g_sh with_s sh_p sh_tr]; rewrite ?Hthr', ?Hnr.
    + exact Ht.
    + auto.
    + intros Hi Hp. unfold sleeps in *. rewrite count_ev_app, C1, Hsl by assumption. lia.
    + intros Hi. destruct (Hcon Hi) as [Y1 Y2]. split; [exact Y1 |].
      unfold sleeps in *. rewrite count_ev_app, C1, Y2. reflexivity.
    + intros Ha. destruct (Hd Ha) as [D1 D2]. split.
      * unfold dials, probe_attempts in *.
        rewrite !count_ev_app, D1, C3.
        assert (Epo : count_ev is_ping [EvOut o] = 0) by reflexivity.
        rewrite Epo. reflexivity.
      * apply dials_to_app; [exact D2 |]. repeat constructor.
    + unfold closes, success_lines in *.
      rewrite !count_ev_app, C2, C4, Hcl, !cnt_app, !cnt_cons.
      cbn [holds_success b2z]. lia.
    + intros E. congruence.
  - inversion Hres'; subst pc' sh'; clear Hres'.
    constructor; cbn [g_main g_pool g_sh with_lock sh_p sh_tr];
      rewrite ?Hthr', ?Hnr; auto; try congruence.
    rewrite Hcl, !cnt_app, !cnt_cons. reflexivity.
  - destruct (Z.ltb (sh_wg sh - 1) 0); [discriminate |].
    inversion Hres'; subst pc' sh'; clear Hres'.
    constructor; cbn [g_main g_pool g_sh with_wg sh_p sh_tr];
      rewrite ?Hthr', ?Hnr; auto; try congruence.
    rewrite Hcl, !cnt_app, !cnt_cons. reflexivity.
  - discriminate.
Qed.

Lemma Inv2_go w sh m l1 pc l2 pc' sh' :
  Inv (DefaultCount flags) s0
      {| g_sh := sh; g_main := m; g_pool := (l1 ++ pc :: l2)%list |} ->
  Inv2 flags p0 p1 {| g_sh := sh; g_main := m; g_pool := (l1 ++ pc :: l2)%list |} ->
  Summary_Result flags w pc sh = Some (pc', sh') ->
  Inv2 flags p0 p1 {| g_sh := sh'; g_main := m; g_pool := (l1 ++ pc' :: l2)%list |}.
Proof.
  intros HI HI2 Hres'.
  assert (Hpool : (l1 ++ pc :: l2)%list = [] -> (l1 ++ pc' :: l2)%list = []).
  { intros H. destruct l1; discriminate. }
  destruct m.
  all: try (eapply (Inv2_thread w sh sh' _ _ _ _ l1 pc l2 pc');
            [exact HI | exact HI2 | reflexivity | reflexivity | exact Hres'
            | reflexivity | reflexivity | reflexivity | reflexivity | exact Hpool]).
  eapply (Inv2_thread w sh sh' _ _ _ _ (pc0 :: l1) pc l2 pc');
    [exact HI | exact HI2 | reflexivity | reflexivity | exact Hres'
    | reflexivity | reflexivity | reflexivity | reflexivity | exact Hpool].
Qed.

Lemma Inv2_main w el st st' :
  Inv (DefaultCount flags) s0 st -> Inv2 flags p0 p1 st ->
  Ping_Do flags lk w el st = Some st' -> Inv2 flags p0 p1 st'.
Proof.
  intros HI HI2 Hdo. destruct st as [sh m pool].
  unfold Ping_Do in Hdo. cbn [g_main g_pool g_sh] in Hdo.
  destruct m.
  - (* MResolve *)
    destruct HI2 as [Ht Hint Hsl Hcon Hd Hcl Hlast].
    destruct (inv_start _ _ _ HI eq_refl) as (Htr & Hpool & _).
    cbn [g_main g_pool g_sh is_resolve] in *. subst pool.
    rewrite Ht in Hdo.
    assert (exists outs, Main.Ping_Resolver flags p0 lk = (p1, None, outs) /\
                         (outs = [] \/ exists d h a e, outs = [OutDNS d h a e]))
      as (outs & Er & Ho).
    { revert Hres. unfold Main.Ping_Resolver. destruct Hlk as [He Ha]. rewrite He.
      destruct (lk_addr lk) as [| a0 rest]; [congruence |].
      cbn [fst]. intros <-. eexists. split; [reflexivity |].
      destruct (negb (is_empty (DefaultDNSAddr flags)) &&
                negb (is_empty (DefaultDNSNet flags)))%bool;
        [right; do 4 eexists; reflexivity | left; reflexivity]. }
    rewrite Er in Hdo. inversion Hdo; subst st'; clear Hdo.
    assert (T : sleeps (map EvOut outs) = 0 /\ closes (map EvOut outs) = 0 /\
                success_lines (map EvOut outs) = 0 /\ dials (map EvOut outs) = 0 /\
                probe_attempts (map EvOut outs) = 0 /\
                forall n a t, dials_to n a t (map EvOut outs)).
    { destruct Ho as [-> | (d & h & a & e & ->)]; repeat split;
        intros; unfold dials_to; repeat constructor. }
    destruct T as (T1 & T2 & T3 & T4 & T5 & T6).
    constructor; cbn [g_main g_pool g_sh with_p sh_p sh_tr is_resolve slept synchronous];
      rewrite ?Htr; cbn [app].
    + reflexivity.
    + auto.
    + intros _ _. exact T1.
    + intros _. split; [reflexivity | exact T1].
    + intros _. split; [rewrite T4, T5; reflexivity | apply T6].
    + rewrite T2, T3. reflexivity.
    + discriminate.
  - (* MAdd *)
    inversion Hdo; subst st'; clear Hdo.
    destruct HI2 as [Ht Hint Hsl Hcon Hd Hcl Hlast].
    constructor; cbn [g_main g_pool g_sh with_wg sh_p sh_tr] in *; auto; discriminate.
  - (* MDispatch *)
    destruct HI2 as [Ht Hint Hsl Hcon Hd Hcl Hlast].
    cbn [g_main g_pool g_sh] in *. rewrite cnt_threads in Hcl.
    destruct (Z.ltb_spec 0 (DefaultInterval flags)) as [Hi | Hi];
      inversion Hdo; subst st'; clear Hdo;
      constructor; cbn [g_main g_pool g_sh sh_p sh_tr is_resolve slept synchronous] in *;
      rewrite ?cnt_threads, ?cnt_app, ?cnt_cons, ?cnt_nil;
      cbn [main_cnt holds_success b2z] in *; auto; try discriminate; try lia.
  - (* MCall *)
    destruct pc.
    7: { inversion Hdo; subst st'; clear Hdo.
         destruct HI2 as [Ht Hint Hsl Hcon Hd Hcl Hlast].
         cbn [g_main g_pool g_sh] in *. rewrite cnt_threads in Hcl.
         constructor; cbn [g_main g_pool g_sh sh_p sh_tr is_resolve slept synchronous] in *;
           rewrite ?cnt_threads; cbn [main_cnt holds_success b2z] in *;
           auto; try discriminate. }
    all: match type of Hdo with
         | match Summary_Result _ _ ?pc _ with _ => _ end = _ =>
             destruct (Summary_Result flags w pc sh) as [[pc1 sh1] |] eqn:Hres';
               [| discriminate];
             inversion Hdo; subst st'; clear Hdo;
             eapply (Inv2_thread w sh sh1 _ _ _ _ [] pc pool pc1);
               [exact HI | exact HI2 | reflexivity | reflexivity | exact Hres'
               | reflexivity | reflexivity | reflexivity | reflexivity | auto]
         end.
  - (* MSleep *)
    inversion Hdo; subst st'; clear Hdo.
    destruct HI2 as [Ht Hint Hsl Hcon Hd Hcl Hlast].
    cbn [g_main g_pool g_sh] in *. rewrite cnt_threads in Hcl.
    assert (T : sleeps [sleep_interval flags] = 1 /\ closes [sleep_interval flags] = 0 /\
                success_lines [sleep_interval flags] = 0 /\
                dials [sleep_interval flags] = 0 /\
                probe_attempts [sleep_interval flags] = 0) by (repeat split).
    destruct T as (T1 & T2 & T3 & T4 & T5).
    constructor; cbn [g_main g_pool g_sh with_p sh_p sh_tr is_resolve slept synchronous] in *;
      rewrite ?cnt_threads; cbn [main_cnt] in *.
    + exact Ht.
    + exact Hint.
    + intros Hi Hp. unfold sleeps in *. rewrite count_ev_app, T1, Hsl by assumption.
      reflexivity.
    + intros Hi. destruct (Hcon Hi) as [Y _]. discriminate.
    + intros Ha. destruct (Hd Ha) as [D1 D2]. split.
      * unfold dials, probe_attempts in *. rewrite !count_ev_app, D1, T4, T5. reflexivity.
      * apply dials_to_app; [exact D2 |]. unfold dials_to. repeat constructor.
    + unfold closes, success_lines in *. rewrite !count_ev_app, T2, T3, Hcl. lia.
    + discriminate.
  - (* MCheck *)
    destruct HI2 as [Ht Hint Hsl Hcon Hd Hcl Hlast].
    pose proof (inv_index _ _ _ HI) as Hidx.
    cbn [g_main g_pool g_sh index_ok] in *. rewrite cnt_threads in Hcl.
    assert (Hadd : 0 < DefaultCount flags -> add64 i 1 = i + 1).
    { intros Hpos0. apply wrap64_small. unfold in_int64, two63 in *. lia. }
    destruct (Z.leb_spec 0 (DefaultCount flags));
      [destruct (Z.leb_spec (DefaultCount flags) (add64 i 1)) |];
      inversion Hdo; subst st'; clear Hdo;
      constructor; cbn [g_main g_pool g_sh sh_p sh_tr is_resolve slept synchronous] in *;
      rewrite ?cnt_threads; cbn [main_cnt] in *; auto; try discriminate;
      intros Hi Hp; rewrite Hsl by assumption; lia.
  - (* MWait *)
    destruct HI2 as [Ht Hint Hsl Hcon Hd Hcl Hlast].
    cbn [g_main g_pool g_sh] in *. rewrite cnt_threads in Hcl.
    destruct (Z.eqb (sh_wg sh) 0); [| discriminate].
    inversion Hdo; subst st'; clear Hdo.
    constructor; cbn [g_main g_pool g_sh sh_p sh_tr is_resolve slept synchronous] in *;
      rewrite ?cnt_threads; cbn [main_cnt] in *; auto; discriminate.
  - (* MStats *)
    destruct HI2 as [Ht Hint Hsl Hcon Hd Hcl Hlast].
    cbn [g_main g_pool g_sh] in *. rewrite cnt_threads in Hcl.
    unfold Main.Summary_Stats in Hdo.
    destruct (render (sh_s sh) (Some el)) as [[s1 o] |] eqn:R; [| discriminate].
    inversion Hdo; subst st'; clear Hdo.
    assert (T : sleeps [EvOut o] = 0 /\ closes [EvOut o] = 0 /\
                success_lines [EvOut o] = 0 /\ dials [EvOut o] = 0 /\
                probe_attempts [EvOut o] = 0).
    { rewrite render_cases in R. cbv zeta in R. inversion R. repeat split. }
    destruct T as (T1 & T2 & T3 & T4 & T5).
    constructor; cbn [g_main g_pool g_sh with_s sh_p sh_tr sh_s is_resolve slept
                      synchronous] in *;
      rewrite ?cnt_threads; cbn [main_cnt] in *.
    + exact Ht.
    + exact Hint.
    + intros Hi Hp. unfold sleeps in *. rewrite count_ev_app, T1, Hsl by assumption. lia.
    + intros Hi. destruct (Hcon Hi) as [Y1 Y2]. split; [reflexivity |].
      unfold sleeps in *. rewrite count_ev_app, T1, Y2. reflexivity.
    + intros Ha. destruct (Hd Ha) as [D1 D2]. split.
      * unfold dials, probe_attempts in *. rewrite !count_ev_app, D1, T4, T5. reflexivity.
      * apply dials_to_app; [exact D2 |]. unfold dials_to. repeat constructor.
    + unfold closes, success_lines in *. rewrite !count_ev_app, T2, T3, Hcl. lia.
    + intros _. exists (sh_tr sh), (sh_s sh), el, o. split; [reflexivity | exact R].
  - (* MExit *)
    discriminate.
Qed.

Lemma Inv2_start : Inv2 flags p0 p1 (start p0 s0).
Proof.
  constructor; unfold start; cbn [g_main g_pool g_sh sh_p sh_tr is_resolve slept
                                  synchronous threads].
  - reflexivity.
  - reflexivity.
  - reflexivity.
  - intros _. split; reflexivity.
  - intros _. split; [reflexivity | constructor].
  - reflexivity.
  - discriminate.
Qed.

Lemma Inv2_preserved st st' :
  steps flags lk st st' ->
  Inv (DefaultCount flags) s0 st /\ Inv2 flags p0 p1 st ->
  Inv (DefaultCount flags) s0 st' /\ Inv2 flags p0 p1 st'.
Proof.
  intros Hsteps H0.
  induction Hsteps as [| st1 st2 st3 _ IH Hstep]; [exact H0 |].
  destruct (IH H0) as [HI HI2]. split.
  - eapply Inv_step; eassumption.
  - destruct Hstep as [w el st st' Hdo | w sh m l1 pc l2 pc' sh' Hres'].
    + eapply Inv2_main; eassumption.
    + eapply Inv2_go; eassumption.
Qed.

Lemma Inv2_steps st :
  steps flags lk (start p0 s0) st ->
  Inv (DefaultCount flags) s0 st /\ Inv2 flags p0 p1 st.
Proof.
  intros Hsteps. apply (Inv2_preserved _ _ Hsteps).
  split; [apply Inv_start | apply Inv2_start].
Qed.

End MainInv2.

Lemma history_counts tr :
  attempts_recorded (history tr) = success_lines tr + failure_lines tr /\
  errors (history tr) = failure_lines tr.
Proof.
  unfold success_lines, failure_lines.
  induction tr as [| e tr [IH1 IH2]]; [split; reflexivity |].
  rewrite !count_ev_cons.
  change (history (e :: tr)) with (history_event e ++ history tr)%list.
  destruct e as [| a | o | d]; [| | destruct o |];
    cbn [history_event app is_success_line is_failure_line attempts_recorded errors
         Error];
    split; lia.
Qed.

Lemma resolved_target flags lk a0 rest :
  lk_err lk = None -> lk_addr lk = a0 :: rest ->
  fst (fst (Main.Ping_Resolver flags (main_ping flags true) lk))
  = set_addr (main_ping flags true) (bracketed a0).
Proof.
  intros He Ha. unfold Main.Ping_Resolver, bracketed. rewrite He, Ha.
  destruct (ContainsRune a0 ":"); reflexivity.
Qed.

(** Both invariants hold in every state a run of main.go reaches after
    a successful resolution. *)
Lemma Main_main_invariants flags lk now a0 rest st :
  lk_err lk = None -> lk_addr lk = a0 :: rest ->
  DefaultCount flags < two63 ->
  steps flags lk (Main_main flags now) st ->
  Inv (DefaultCount flags) (main_summary (main_ping flags true) now) st /\
  Inv2 flags (main_ping flags true) (set_addr (main_ping flags true) (bracketed a0)) st.
Proof.
  intros He Ha Hlt Hst.
  apply (Inv2_steps flags lk _ _ _ Hlt); [| | | exact Hst].
  - split; [exact He | rewrite Ha; discriminate].
  - apply (resolved_target flags lk a0 rest He Ha).
  - apply main_ping_defaults.
Qed.

(** X9.  main.go, after a successful resolution: once [Ping.Do] is past its
    call of [Resolver], the shared target is, in every state of every run,
    the target [main] built with its address set by the resolver; no probe,
    synchronous or in a goroutine, ever changes it. *)
Theorem Main_target_fixed_after_resolution :
  forall (flags : Flags) (lk : Lookup) (now : Time) (a0 : string)
         (rest : list string) (st : State),
    lk_err lk = None -> lk_addr lk = a0 :: rest ->
    DefaultCount flags < two63 ->
    steps flags lk (Main_main flags now) st ->
    g_main st <> MResolve ->
    sh_p (g_sh st) = set_addr (main_ping flags true) (bracketed a0).
Proof.
  intros flags lk now a0 rest st He Ha Hlt Hst Hm.
  destruct (Main_main_invariants flags lk now a0 rest st He Ha Hlt Hst) as [_ HI2].
  rewrite (i2_target _ _ _ _ HI2).
  destruct (g_main st); try reflexivity. congruence.
Qed.

(** X10.  main.go, after a successful resolution.  With an interval set, no
    goroutine is ever started, and for an attempt count [c > 0] [Ping.Do]
    has slept exactly [c] times when it returns (once after every attempt,
    the last included).  Without an interval, [Ping.Do] never sleeps and
    never calls [Summary.Result] itself. *)
Theorem Main_Do_interval_and_concurrent_mode :
  forall (flags : Flags) (lk : Lookup) (now : Time) (st : State),
    lk_err lk = None -> lk_addr lk <> [] ->
    DefaultCount flags < two63 ->
    steps flags lk (Main_main flags now) st ->
    (0 < DefaultInterval flags ->
     g_pool st = [] /\
     (0 < DefaultCount flags -> g_main st = MExit ->
      sleeps (sh_tr (g_sh st)) = DefaultCount flags)) /\
    (DefaultInterval flags <= 0 ->
     sleeps (sh_tr (g_sh st)) = 0 /\
     (forall i pc, g_main st <> MCall i pc) /\
     (forall i, g_main st <> MSleep i)).
Proof.
  intros flags lk now st He Ha Hlt Hst.
  destruct (lk_addr lk) as [| a0 rest] eqn:Ea; [congruence |].
  destruct (Main_main_invariants flags lk now a0 rest st He Ea Hlt Hst) as [_ HI2].
  split.
  - intros Hi. split; [apply (i2_interval _ _ _ _ HI2 Hi) |].
    intros Hp Hexit. rewrite (i2_slept _ _ _ _ HI2 Hi Hp), Hexit. reflexivity.
  - intros Hi. destruct (i2_concurrent _ _ _ _ HI2 Hi) as [Y1 Y2].
    split; [exact Y2 |].
    split; intros; intros E; rewrite E in Y1; discriminate.
Qed.

(** X11.  main.go, after a resolution to a non-empty address: in every state
    of every run each call of [Ping] has dialled exactly once, always on
    the transport, to the address:port and with the timeout of the resolved
    target, and the connections closed are as many as the success lines
    printed plus the successes not printed yet; when [Ping.Do] has returned
    for an attempt count [c > 0], [c] dials were made and every success line
    has its closed connection. *)
Theorem Main_Do_dials_and_closes :
  forall (flags : Flags) (lk : Lookup) (now : Time) (a0 : string)
         (rest : list string) (st : State),
    lk_err lk = None -> lk_addr lk = a0 :: rest -> a0 <> "" ->
    DefaultCount flags < two63 ->
    steps flags lk (Main_main flags now) st ->
    let p1 := set_addr (main_ping flags true) (bracketed a0) in
    dials (sh_tr (g_sh st)) = probe_attempts (sh_tr (g_sh st)) /\
    dials_to (net p1) (addr p1 ++ ":" ++ itoa (port p1))
             (wrap64 (timeout p1 * second)) (sh_tr (g_sh st)) /\
    closes (sh_tr (g_sh st))
    = success_lines (sh_tr (g_sh st)) + cnt holds_success (threads st) /\
    (0 < DefaultCount flags -> g_main st = MExit ->
     dials (sh_tr (g_sh st)) = DefaultCount flags /\
     closes (sh_tr (g_sh st)) = success_lines (sh_tr (g_sh st))).
Proof.
  intros flags lk now a0 rest st He Ha Hne Hlt Hst. cbv zeta.
  destruct (Main_main_invariants flags lk now a0 rest st He Ha Hlt Hst) as [HI HI2].
  assert (Hnonempty : addr (set_addr (main_ping flags true) (bracketed a0)) <> "").
  { cbn [addr set_addr]. unfold bracketed.
    destruct (ContainsRune a0 ":"); [discriminate | exact Hne]. }
  destruct (i2_dials _ _ _ _ HI2 Hnonempty) as [D1 D2].
  pose proof (i2_closes _ _ _ _ HI2) as Hcl.
  split; [exact D1 |]. split; [exact D2 |]. split; [exact Hcl |].
  intros Hp Hexit.
  destruct (Inv_exit flags _ Hp st HI Hexit) as (E1 & _ & _ & _ & Hall & _).
  split; [rewrite D1; exact E1 |].
  rewrite Hcl.
  assert (Hz : cnt holds_success (threads st) = 0).
  { unfold threads. rewrite Hexit. clear - Hall.
    induction Hall as [| pc pool -> _ IH]; [reflexivity |].
    rewrite cnt_cons, IH. reflexivity. }
  rewrite Hz. lia.
Qed.

(** X12.  main.go, after a successful resolution: in every state of every
    run at most one call of [Summary.Result] stands between [Lock] and
    [Unlock], the mutex is held exactly when one does, and the counter of
    the wait group is the number of calls that have not run [Done] yet (plus
    one between [Add] and the dispatch), so it is never negative. *)
Theorem Main_mutual_exclusion :
  forall (flags : Flags) (lk : Lookup) (now : Time) (st : State),
    lk_err lk = None -> lk_addr lk <> [] ->
    DefaultCount flags < two63 ->
    steps flags lk (Main_main flags now) st ->
    cnt in_cs (threads st) <= 1 /\
    (sh_lock (g_sh st) = true <-> cnt in_cs (threads st) = 1) /\
    sh_wg (g_sh st) = cnt live (threads st) + b2z (is_dispatch (g_main st)) /\
    0 <= sh_wg (g_sh st).
Proof.
  intros flags lk now st He Ha Hlt Hst.
  destruct (lk_addr lk) as [| a0 rest] eqn:Ea; [congruence |].
  destruct (Main_main_invariants flags lk now a0 rest st He Ea Hlt Hst) as [HI _].
  pose proof (inv_lock _ _ _ HI) as Hl. pose proof (inv_wg _ _ _ HI) as Hw.
  pose proof (cnt_nonneg live (threads st)).
  pose proof (b2z_range (is_dispatch (g_main st))).
  rewrite Hl. destruct (sh_lock (g_sh st)); cbn [b2z].
  - repeat split; auto; lia.
  - repeat split; auto; try lia; try discriminate.
Qed.

Lemma Main_target_fixed_after_resolution_witness :
  sh_p (g_sh run5) = set_addr (main_ping flags0 true) (bracketed "2001:db8::1").
Proof.
  apply (Main_target_fixed_after_resolution flags0 lookup_ok 0 "2001:db8::1"
           ["192.0.2.1"] run5).
  - reflexivity.
  - reflexivity.
  - reflexivity.
  - apply Ping_Do_run_steps.
  - vm_compute. discriminate.
Defined.

Lemma Main_Do_interval_and_concurrent_mode_witness :
  g_pool run200 = [] /\ sleeps (sh_tr (g_sh run200)) = 10.
Proof.
  assert (Ha : lk_addr lookup_ok <> []) by discriminate.
  assert (Hlt : DefaultCount flags0 < two63) by reflexivity.
  destruct (Main_Do_interval_and_concurrent_mode flags0 lookup_ok 0 run200
              eq_refl Ha Hlt (Ping_Do_run_steps _ _ _ _ _ _)) as [Hi _].
  destruct (Hi eq_refl) as [Hp Hs].
  split; [exact Hp |]. apply Hs.
  - reflexivity.
  - vm_compute. reflexivity.
Defined.

Lemma Main_Do_dials_and_closes_witness :
  dials (sh_tr (g_sh run200)) = 10 /\
  closes (sh_tr (g_sh run200)) = success_lines (sh_tr (g_sh run200)).
Proof.
  assert (Hne : "2001:db8::1" <> "") by discriminate.
  assert (Hlt : DefaultCount flags0 < two63) by reflexivity.
  destruct (Main_Do_dials_and_closes flags0 lookup_ok 0 "2001:db8::1" ["192.0.2.1"]
              run200 eq_refl eq_refl Hne Hlt (Ping_Do_run_steps _ _ _ _ _ _))
    as (_ & _ & _ & H).
  apply H.
  - reflexivity.
  - vm_compute. reflexivity.
Defined.

Lemma Main_mutual_exclusion_witness :
  cnt in_cs (threads run5) <= 1 /\
  (sh_lock (g_sh run5) = true <-> cnt in_cs (threads run5) = 1) /\
  sh_wg (g_sh run5) = cnt live (threads run5) + b2z (is_dispatch (g_main run5)) /\
  0 <= sh_wg (g_sh run5).
Proof.
  apply (Main_mutual_exclusion flags0 lookup_ok 0 run5).
  - reflexivity.
  - discriminate.
  - reflexivity.
  - apply Ping_Do_run_steps.
Defined.

(** X13.  main.go, after a successful resolution, attempt count [c > 0] below
    2^63: when [Ping.Do] has returned, the last line printed is the summary
    line, labelled with the upper-cased transport of the target; its total
    is [c], its error count is the number of failure lines printed, and the
    success and failure lines printed before it are [c] together, whatever
    the order in which the goroutines recorded their outcomes; its maximum,
    minimum and average are those of the aggregate. *)
Theorem Main_Do_final_summary_line :
  forall (flags : Flags) (lk : Lookup) (now : Time) (st : State),
    lk_err lk = None -> lk_addr lk <> [] ->
    0 < DefaultCount flags < two63 ->
    steps flags lk (Main_main flags now) st ->
    g_main st = MExit ->
    exists tr el,
      sh_tr (g_sh st)
      = (tr ++ [EvOut (OutSummary (ToUpper (net (main_ping flags true)))
                                  (MAX (sh_s (g_sh st))) (MIN (sh_s (g_sh st)))
                                  (AVG (sh_s (g_sh st)))
                                  (DefaultCount flags) (failure_lines tr)
                                  (Some el))])%list /\
      success_lines tr + failure_lines tr = DefaultCount flags /\
      summary_lines tr = 0.
Proof.
  intros flags lk now st He Ha Hc Hst Hexit.
  destruct (lk_addr lk) as [| a0 rest] eqn:Ea; [congruence |].
  destruct (Main_main_invariants flags lk now a0 rest st He Ea (proj2 Hc) Hst)
    as [HI HI2].
  destruct (Inv_exit flags _ (proj1 Hc) st HI Hexit)
    as (_ & Hsum & _ & Hrec & _ & _ & _ & Hagg).
  destruct (i2_last _ _ _ _ HI2 Hexit) as (tr & s & el & o & Etr & R).
  pose proof (render_fields _ _ _ _ R) as (Rc & Re & _ & Rm & RM & Rn & _).
  rewrite render_cases in R. cbv zeta in R. injection R as Es Eo.
  rewrite Etr in Hagg, Hrec, Hsum.
  destruct (agg_run_counters _ _ _ 0 0 0 Hagg eq_refl eq_refl eq_refl)
    as (Hcnt & Herr & _ & Hnet & _).
  assert (Hh : history (tr ++ [EvOut o]) = (history tr ++ [Rendered (Some el)])%list).
  { rewrite history_app. subst o. reflexivity. }
  rewrite Hh in Hcnt, Herr, Hrec.
  destruct (history_counts tr) as [H1 H2].
  rewrite attempts_recorded_app in Hrec, Hcnt. cbn [attempts_recorded] in Hrec, Hcnt.
  assert (Herrs : errors (history tr ++ [Rendered (Some el)]) = failure_lines tr).
  { rewrite <- H2. clear. induction (history tr) as [| [p stats | e] l IH]; simpl;
      [reflexivity | destruct (Error stats); lia | exact IH]. }
  rewrite Herrs in Herr.
  assert (Hf : 0 <= failure_lines tr) by (unfold failure_lines; apply count_ev_nonneg).
  assert (Hsl : 0 <= success_lines tr) by (unfold success_lines; apply count_ev_nonneg).
  assert (Hr : forall z, 0 <= z < two63 -> wrap64 z = z)
    by (intros z Hz; apply wrap64_small; unfold in_int64; lia).
  rewrite Hr in Hcnt by lia. rewrite Hr in Herr by lia.
  exists tr, el. split; [| split; [lia |]].
  - rewrite Etr. do 3 f_equal. rewrite <- Eo, Es.
    assert (En : NET s = net (main_ping flags true)) by (rewrite <- Rn, Hnet; reflexivity).
    assert (Ec : Count s = DefaultCount flags) by lia.
    assert (Ee : ErrCount s = failure_lines tr) by lia.
    rewrite En, Ec, Ee, RM, Rm. reflexivity.
  - unfold summary_lines in *. rewrite count_ev_app, count_ev_cons in Hsum.
    subst o. cbn [is_summary] in Hsum. change (count_ev is_summary []) with 0 in Hsum.
    lia.
Qed.

Lemma Main_Do_final_summary_line_witness :
  exists tr el,
    sh_tr (g_sh run200)
    = (tr ++ [EvOut (OutSummary (ToUpper (net (main_ping flags0 true)))
                                (MAX (sh_s (g_sh run200))) (MIN (sh_s (g_sh run200)))
                                (AVG (sh_s (g_sh run200)))
                                (DefaultCount flags0) (failure_lines tr)
                                (Some el))])%list /\
    success_lines tr + failure_lines tr = DefaultCount flags0 /\
    summary_lines tr = 0.
Proof.
  apply (Main_Do_final_summary_line flags0 lookup_ok 0 run200).
  - reflexivity.
  - discriminate.
  - split; reflexivity.
  - apply Ping_Do_run_steps.
  - vm_compute. reflexivity.
Defined.

(** ** main.go: the interrupt handler *)

Import Process.

(** A statement of [Ping.Do] or of a goroutine prints a summary line exactly
    when it is the deferred [s.Stats()], which is when [Ping.Do] returns
    after a successful resolution. *)
Lemma step_summary_lines flags lk st st' :
  lk_err lk = None -> lk_addr lk <> [] ->
  step flags lk st st' ->
  summary_lines (sh_tr (g_sh st')) - b2z (is_exit (g_main st'))
  = summary_lines (sh_tr (g_sh st)) - b2z (is_exit (g_main st)).
Proof.
  intros He Ha Hstep.
  assert (Hout : forall tr o, summary_lines (tr ++ [EvOut o])
                  = summary_lines tr + (if is_summary (EvOut o) then 1 else 0)).
  { intros tr o. unfold summary_lines. rewrite count_ev_app, count_ev_cons.
    change (count_ev is_summary []) with 0. lia. }
  destruct Hstep as [w el st st' Hdo | w sh m l1 pc l2 pc' sh' Hres].
  - destruct st as [sh m pool]. unfold Ping_Do in Hdo.
    cbn [g_main g_pool g_sh] in *.
    destruct m.
    + unfold Main.Ping_Resolver in Hdo. rewrite He in Hdo.
      destruct (lk_addr lk) as [| a0 rest]; [congruence |].
      inversion Hdo; subst st'. cbn [g_main g_sh with_p sh_tr is_exit b2z].
      unfold summary_lines. rewrite count_ev_app.
      destruct (negb (is_empty (DefaultDNSAddr flags)) &&
                negb (is_empty (DefaultDNSNet flags)))%bool; cbn; lia.
    + inversion Hdo; subst st'. reflexivity.
    + destruct (Z.ltb 0 (DefaultInterval flags)); inversion Hdo; subst st'; reflexivity.
    + destruct pc.
      7: { inversion Hdo; subst st'. reflexivity. }
      all: cbn [Summary_Result] in Hdo.
      * destruct (Main.Ping_Ping flags (sh_p sh) w) as [[p1 stats] acts].
        inversion Hdo; subst st'. cbn [g_main g_sh with_p sh_tr is_exit b2z].
        destruct (ping_chunk (sh_tr sh) acts) as (_ & C2 & _). rewrite C2. reflexivity.
      * destruct (sh_lock sh); [discriminate |]. inversion Hdo; subst st'. reflexivity.
      * inversion Hdo; subst st'. cbn [g_main g_sh with_s sh_tr]. rewrite app_nil_r.
        reflexivity.
      * pose proof (outcome_branch_line (sh_p sh) (sh_s sh) stats) as L.
        unfold outcome_branch in *. cbn [g_main g_sh with_s sh_tr is_exit b2z].
        destruct (Error stats); inversion Hdo; subst st';
          cbn [g_main g_sh with_s sh_tr is_exit b2z]; rewrite Hout; cbn; lia.
      * inversion Hdo; subst st'. reflexivity.
      * destruct (Z.ltb (sh_wg sh - 1) 0); [discriminate |].
        inversion Hdo; subst st'. reflexivity.
    + inversion Hdo; subst st'. cbn [g_main g_sh with_p sh_tr is_exit b2z].
      unfold summary_lines. rewrite count_ev_app. cbn. lia.
    + destruct (Z.leb 0 (DefaultCount flags));
        [destruct (Z.leb (DefaultCount flags) (add64 i 1)) |];
        inversion Hdo; subst st'; reflexivity.
    + destruct (Z.eqb (sh_wg sh) 0); [| discriminate].
      inversion Hdo; subst st'. reflexivity.
    + unfold Main.Summary_Stats in Hdo.
      destruct (render (sh_s sh) (Some el)) as [[s1 o] |] eqn:R; [| discriminate].
      destruct (render_line _ _ _ _ R) as (_ & R2 & _).
      inversion Hdo; subst st'. cbn [g_main g_sh with_s sh_tr is_exit b2z].
      rewrite Hout, R2. lia.
    + discriminate.
  - cbn [g_main g_sh].
    assert (summary_lines (sh_tr sh') = summary_lines (sh_tr sh)); [| lia].
    destruct pc; cbn [Summary_Result] in Hres.
    + destruct (Main.Ping_Ping flags (sh_p sh) w) as [[p1 stats] acts].
      inversion Hres; subst. cbn [with_p sh_tr].
      destruct (ping_chunk (sh_tr sh) acts) as (_ & C2 & _). exact C2.
    + destruct (sh_lock sh); [discriminate |]. inversion Hres; subst. reflexivity.
    + inversion Hres; subst. cbn [with_s sh_tr]. rewrite app_nil_r. reflexivity.
    + unfold outcome_branch in Hres.
      destruct (Error stats); inversion Hres; subst; cbn [with_s sh_tr];
        rewrite Hout; cbn; lia.
    + inversion Hres; subst. reflexivity.
    + destruct (Z.ltb (sh_wg sh - 1) 0); [discriminate |].
      inversion Hres; subst. reflexivity.
    + discriminate.
Qed.

Lemma psteps_of_steps flags lk st st' h :
  steps flags lk st st' -> psteps flags lk (Alive st h) (Alive st' h).
Proof.
  induction 1 as [| st1 st2 st3 _ IH Hstep]; [apply psteps_refl |].
  eapply psteps_next; [exact IH | apply p_run; exact Hstep].
Qed.

(** The summary lines of a run with the handler: one when [Ping.Do] has
    returned, one when the handler has rendered. *)
Lemma boot_summary_lines flags lk now x :
  lk_err lk = None -> lk_addr lk <> [] ->
  psteps flags lk (boot flags now) x ->
  match x with
  | Alive st h =>
      summary_lines (sh_tr (g_sh st)) = b2z (is_exit (g_main st)) + b2z (is_hexit h)
  | Dead code tr =>
      (code = 0 \/ code = 1) /\ 1 <= summary_lines tr <= 2
  end.
Proof.
  intros He Ha Hrun.
  remember (boot flags now) as x0 eqn:E0.
  induction Hrun as [| x y z _ IH Hstep]; [subst; reflexivity |].
  specialize (IH E0).
  destruct Hstep as [st st' h Hstep | st | st el s1 o R | st | st h Hexit].
  - pose proof (step_summary_lines flags lk st st' He Ha Hstep). lia.
  - exact IH.
  - unfold Main.Summary_Stats in R. destruct (render_line _ _ _ _ R) as (_ & R2 & _).
    cbn [g_sh g_main with_s sh_tr is_hexit b2z] in *.
    unfold summary_lines in *. rewrite count_ev_app, count_ev_cons, R2.
    change (count_ev is_summary []) with 0. lia.
  - cbn [is_hexit b2z] in IH. pose proof (b2z_range (is_exit (g_main st))).
    split; [right; reflexivity | lia].
  - rewrite Hexit in IH. cbn [is_exit b2z] in IH. pose proof (b2z_range (is_hexit h)).
    split; [left; reflexivity | lia].
Qed.

(** X14 (main.go, [Summary.Interrupt] and [main]): with the interrupt
    handler running beside [ping.Do(summary)], after a successful resolution
    the number of summary lines printed so far is one if [Ping.Do] has
    returned plus one if the handler has rendered.  The process ends with
    status 0 or 1 after one or two summary lines; a signal handled while
    [Ping.Do] runs ends it with status 1 after exactly one; and two summary
    lines are possible, when the signal arrives after [Ping.Do] has printed
    its own and before [main] returns. *)
Theorem Interrupt_summary_lines :
  forall (flags : Flags) (lk : Lookup) (now : Time),
    lk_err lk = None -> lk_addr lk <> [] ->
    0 < DefaultCount flags < two63 ->
    (forall st h, psteps flags lk (boot flags now) (Alive st h) ->
       summary_lines (sh_tr (g_sh st))
       = b2z (is_exit (g_main st)) + b2z (is_hexit h)) /\
    (forall code tr, psteps flags lk (boot flags now) (Dead code tr) ->
       (code = 0 \/ code = 1) /\ 1 <= summary_lines tr <= 2) /\
    (forall st, psteps flags lk (boot flags now) (Alive st HExit) ->
       g_main st <> MExit ->
       psteps flags lk (boot flags now) (Dead 1 (sh_tr (g_sh st))) /\
       summary_lines (sh_tr (g_sh st)) = 1) /\
    (exists tr, psteps flags lk (boot flags now) (Dead 0 tr) /\ summary_lines tr = 1) /\
    (exists tr, psteps flags lk (boot flags now) (Dead 1 tr) /\ summary_lines tr = 2).
Proof.
  intros flags lk now He Ha Hc.
  pose proof (boot_summary_lines flags lk now) as B.
  assert (Hexit : exists st, steps flags lk (Main_main flags now) st /\ g_main st = MExit).
  { apply (reaches_exit flags lk (main_summary (main_ping flags true) now)
             (proj2 Hc) (conj He Ha) (proj1 Hc)
             (Z.to_nat (measure (DefaultCount flags) (Main_main flags now)))).
    - apply Inv_start.
    - lia. }
  destruct Hexit as (st1 & Hst1 & Hm1).
  pose proof (psteps_of_steps flags lk _ _ HWait Hst1) as P1.
  pose proof (B _ He Ha P1) as L1. cbn beta iota in L1.
  rewrite Hm1 in L1. cbn [is_exit is_hexit b2z] in L1.
  split; [| split; [| split; [| split]]].
  - intros st h Hrun. exact (B _ He Ha Hrun).
  - intros code tr Hrun. exact (B _ He Ha Hrun).
  - intros st Hrun Hm. split.
    + eapply psteps_next; [exact Hrun | apply p_exit].
    + pose proof (B _ He Ha Hrun) as L. cbn beta iota in L.
      destruct (g_main st); try congruence; cbn [is_exit is_hexit b2z] in L; lia.
  - exists (sh_tr (g_sh st1)). split; [| lia].
    eapply psteps_next; [exact P1 | apply p_return; exact Hm1].
  - destruct (render (sh_s (g_sh st1)) (Some 0)) as [[s1 o] |] eqn:R;
      [| rewrite render_cases in R; discriminate].
    exists (sh_tr (g_sh st1) ++ [EvOut o])%list. split.
    + eapply psteps_next; [eapply psteps_next; [eapply psteps_next |] |].
      * exact P1.
      * apply p_signal.
      * apply (p_stats flags lk st1 0 s1 o). exact R.
      * apply p_exit.
    + destruct (render_line _ _ _ _ R) as (_ & R2 & _).
      unfold summary_lines in *. rewrite count_ev_app, count_ev_cons, R2.
      change (count_ev is_summary []) with 0. lia.
Qed.

Lemma Interrupt_summary_lines_witness :
  (forall st h, psteps flags0 lookup_ok (boot flags0 0) (Alive st h) ->
     summary_lines (sh_tr (g_sh st))
     = b2z (is_exit (g_main st)) + b2z (is_hexit h)) /\
  (forall code tr, psteps flags0 lookup_ok (boot flags0 0) (Dead code tr) ->
     (code = 0 \/ code = 1) /\ 1 <= summary_lines tr <= 2) /\
  (forall st, psteps flags0 lookup_ok (boot flags0 0) (Alive st HExit) ->
     g_main st <> MExit ->
     psteps flags0 lookup_ok (boot flags0 0) (Dead 1 (sh_tr (g_sh st))) /\
     summary_lines (sh_tr (g_sh st)) = 1) /\
  (exists tr, psteps flags0 lookup_ok (boot flags0 0) (Dead 0 tr) /\ summary_lines tr = 1) /\
  (exists tr, psteps flags0 lookup_ok (boot flags0 0) (Dead 1 tr) /\ summary_lines tr = 2).
Proof.
  apply (Interrupt_summary_lines flags0 lookup_ok 0).
  - reflexivity.
  - discriminate.
  - split; reflexivity.
Defined.

(** ** part_000: the loop, line by line *)

Section Part000_lines.

Import Part000.

Variable flags : Flags.
Variable world : nat -> Probe.

Lemma line_outcomes_app tr1 tr2 :
  line_outcomes (tr1 ++ tr2) = (line_outcomes tr1 ++ line_outcomes tr2)%list.
Proof. unfold line_outcomes. apply flat_map_app. Qed.

Lemma line_outcomes_acts acts : line_outcomes (map EvAct acts) = [].
Proof. induction acts as [| a acts IH]; [reflexivity | exact IH]. Qed.

(** What one pass of the loop adds to the history. *)
Lemma iteration_lines l l' b :
  iteration flags world l = (l', b) ->
  let a := addr (lp_p l) in
  let tr := lp_tr l in
  let tr' := lp_tr l' in
  lp_n l' = S (lp_n l) /\
  addr (lp_p l') = a /\
  line_outcomes tr' = (line_outcomes tr ++ [connects a (world (lp_n l))])%list /\
  closes tr' - success_lines tr' = closes tr - success_lines tr /\
  dials tr' = dials tr + (if is_empty a then 0 else 1) /\
  sleeps tr' = sleeps tr + (if b then 0 else if Z.ltb 0 (DefaultInterval flags) then 1 else 0).
Proof.
  unfold iteration, Part000.Ping_Ping, Part001.Ping_Ping, record_outcome, outcome_branch,
    connects, sleep_interval, dial_stats, dial_actions.
  cbv zeta.
  unfold sleeps, closes, dials, success_lines.
  destruct (is_empty (addr (lp_p l))) eqn:Ea;
    [| destruct (pr_dial (world (lp_n l))) eqn:Ed];
    cbn [Error invalid_host map app negb andb];
    destruct (Z.ltb 0 (DefaultCount flags));
    try destruct (Z.leb (DefaultCount flags) (add64 (lp_i l) 1));
    destruct (Z.ltb 0 (DefaultInterval flags));
    intros H; inversion H; subst l' b; clear H;
    cbn [lp_n lp_p lp_tr addr set_dialer lazy_defaults];
    rewrite ?line_outcomes_app, ?count_ev_app, ?count_ev_cons;
    cbn [line_outcomes flat_map line_outcome app is_sleep is_close is_dial
         is_success_line count_ev filter List.length Z.of_nat];
    rewrite ?app_nil_r.
  all: (split; [reflexivity |]); (split; [reflexivity |]); (split; [reflexivity |]).
  all: (split; [lia |]); (split; lia).
Qed.

(** What the passes of the loop add to the history. *)
Lemma loop_lines fuel : forall l l' b,
  loop flags world fuel l = (l', b) ->
  let a := addr (lp_p l) in
  exists k : nat,
    lp_n l' = (lp_n l + k)%nat /\ (b = true -> (0 < k)%nat) /\
    addr (lp_p l') = a /\
    line_outcomes (lp_tr l')
    = (line_outcomes (lp_tr l)
       ++ map (fun j => connects a (world j)) (seq (lp_n l) k))%list /\
    closes (lp_tr l') - success_lines (lp_tr l')
    = closes (lp_tr l) - success_lines (lp_tr l) /\
    dials (lp_tr l') = dials (lp_tr l) + (if is_empty a then 0 else Z.of_nat k) /\
    sleeps (lp_tr l')
    = sleeps (lp_tr l) + (if Z.ltb 0 (DefaultInterval flags)
                          then Z.of_nat k - (if b then 1 else 0) else 0).
Proof.
  induction fuel as [| fuel IH]; intros l l' b Hl; cbn [loop] in Hl.
  - inversion Hl; subst l' b. exists O. cbn [seq map].
    rewrite app_nil_r, Nat.add_0_r.
    destruct (is_empty (addr (lp_p l))), (Z.ltb 0 (DefaultInterval flags));
      repeat split; try lia; discriminate.
  - destruct (iteration flags world l) as [l1 brk] eqn:Hit.
    pose proof (iteration_lines _ _ _ Hit) as (In & Ia & Il & Ic & Id & Is).
    destruct brk.
    + inversion Hl; subst l' b. exists 1%nat. cbn [seq map].
      rewrite Il, Id, Is.
      destruct (is_empty (addr (lp_p l))), (Z.ltb 0 (DefaultInterval flags));
        repeat split; try assumption; try reflexivity; lia.
    + destruct (IH _ _ _ Hl) as (k & Kn & Kb & Ka & Kl & Kc & Kd & Ks).
      exists (S k). cbn [seq map].
      rewrite Ia in *. rewrite Kl, Il, Kd, Id, Ks, Is, In.
      rewrite <- app_assoc. cbn [app].
      destruct (is_empty (addr (lp_p l))), (Z.ltb 0 (DefaultInterval flags)), b;
        repeat split; try assumption; try reflexivity; lia.
Qed.

End Part000_lines.

(** X15 (part_000, [main] and [Ping.Do]): after a successful resolution and
    with a positive count [c], [main] returns after a history that ends in
    the summary line, which reports [c] attempts, as many errors as there are
    failure lines, and no elapsed time.  Before it, the outcome lines are
    those of the probes in order, the k-th line being a success exactly when
    the k-th dial connects; the loop sleeps between two passes only, [c - 1]
    times when an interval is set; it dials once per pass and closes every
    connection it gets. *)
Theorem Part000_main_lines :
  forall (flags : Flags) (world : nat -> Probe) (lk : Lookup) (a0 : string)
         (rest : list string) (fuel : nat),
    lk_err lk = None -> lk_addr lk = a0 :: rest ->
    0 < DefaultCount flags < two63 ->
    (Z.to_nat (DefaultCount flags) <= fuel)%nat ->
    exists p' s' tr,
      Part000_main flags world lk fuel
      = Part000.Returned p' s'
          (tr ++ [EvOut (OutSummary (ToUpper (ToLower (DefaultNet flags)))
                                    (MAX s') (MIN s') (AVG s')
                                    (DefaultCount flags) (failure_lines tr) None)])%list /\
      line_outcomes tr
      = map (fun j => connects (bracketed a0) (world j))
            (seq 0 (Z.to_nat (DefaultCount flags))) /\
      sleeps tr = (if Z.ltb 0 (DefaultInterval flags) then DefaultCount flags - 1 else 0) /\
      dials tr = (if is_empty (bracketed a0) then 0 else DefaultCount flags) /\
      closes tr = success_lines tr.
Proof.
  intros flags world lk a0 rest fuel He Ha Hc Hfuel.
  unfold Part000_main, Part000.Ping_Do.
  assert (Hres : Part000.Ping_Resolver (main_ping flags true) lk
                 = (set_addr (main_ping flags true) (bracketed a0), None)).
  { unfold Part000.Ping_Resolver, Part001.Ping_Resolver, bracketed. rewrite He, Ha.
    destruct (ContainsRune a0 ":"); reflexivity. }
  rewrite Hres.
  set (s0 := main_summary (main_ping flags true) 0).
  set (l0 := {| Part000.lp_p := set_addr (main_ping flags true) (bracketed a0);
                Part000.lp_s := s0; Part000.lp_i := 0; Part000.lp_n := O;
                Part000.lp_tr := [] |}).
  destruct (loop_budget flags world l0 Hc) as (l' & Hl & _ & Hg); [cbn; lia |].
  change (Part000.lp_i l0) with 0 in Hl, Hg. rewrite Z.sub_0_r in Hl, Hg.
  apply (loop_more_fuel flags world _ _ _ (fuel - Z.to_nat (DefaultCount flags))) in Hl.
  replace (Z.to_nat (DefaultCount flags) + (fuel - Z.to_nat (DefaultCount flags)))%nat
    with fuel in Hl by lia.
  rewrite Hl.
  destruct (loop_lines flags world _ _ _ _ Hl) as (k & Kn & _ & _ & Kl & Kc & Kd & Ks).
  destruct Hg as (Gn & _ & _ & Grec & Gagg).
  change (Part000.lp_n l0) with O in *. change (Part000.lp_tr l0) with (@nil Event) in *.
  change (addr (Part000.lp_p l0)) with (bracketed a0) in *.
  change (Part000.lp_s l0) with s0 in *.
  assert (Ek : k = Z.to_nat (DefaultCount flags)) by lia. subst k.
  specialize (Gagg s0 eq_refl).
  destruct (agg_run_counters _ _ _ 0 0 0 Gagg eq_refl eq_refl eq_refl)
    as (Hcnt & Herr & _ & Hnet & _).
  destruct (history_counts (Part000.lp_tr l')) as [H1 H2].
  change (attempts_recorded (history [])) with 0 in Grec.
  rewrite Grec in Hcnt. rewrite H2 in Herr. rewrite H1 in Grec.
  assert (Hf : 0 <= failure_lines (Part000.lp_tr l'))
    by (unfold failure_lines; apply count_ev_nonneg).
  assert (Hsl : 0 <= success_lines (Part000.lp_tr l'))
    by (unfold success_lines; apply count_ev_nonneg).
  assert (Hr : forall z, 0 <= z < two63 -> wrap64 z = z)
    by (intros z Hz; apply wrap64_small; unfold in_int64; lia).
  rewrite Hr in Hcnt by lia. rewrite Hr in Herr by lia.
  unfold Part000.Summary_Stats.
  destruct (render (Part000.lp_s l') None) as [[s1 o] |] eqn:R;
    [| rewrite render_cases in R; discriminate].
  pose proof (render_fields _ _ _ _ R) as (Rc & Re & _ & Rm & RM & Rn & _).
  rewrite render_cases in R. cbv zeta in R. injection R as Es Eo.
  exists (Part000.lp_p l'), s1, (Part000.lp_tr l').
  split; [| split; [| split; [| split]]].
  - do 3 f_equal. rewrite <- Eo, Es.
    assert (En : NET s1 = ToLower (DefaultNet flags)) by (rewrite Rn, Hnet; reflexivity).
    assert (Ec : Count s1 = DefaultCount flags) by lia.
    assert (Ee : ErrCount s1 = failure_lines (Part000.lp_tr l')) by lia.
    rewrite <- Rn, <- Rc, <- Re, <- RM, <- Rm, En, Ec, Ee. reflexivity.
  - exact Kl.
  - change (sleeps []) with 0 in Ks. destruct (Z.ltb 0 (DefaultInterval flags)); lia.
  - change (dials []) with 0 in Kd. destruct (is_empty (bracketed a0)); lia.
  - change (closes []) with 0 in Kc. change (success_lines []) with 0 in Kc. lia.
Qed.

Lemma Part000_main_lines_witness :
  exists p' s' tr,
    Part000_main flags0 world_mixed lookup_ok 10
    = Part000.Returned p' s'
        (tr ++ [EvOut (OutSummary (ToUpper (ToLower (DefaultNet flags0)))
                                  (MAX s') (MIN s') (AVG s')
                                  (DefaultCount flags0) (failure_lines tr) None)])%list /\
    line_outcomes tr
    = map (fun j => connects (bracketed "2001:db8::1") (world_mixed j))
          (seq 0 (Z.to_nat (DefaultCount flags0))) /\
    sleeps tr = (if Z.ltb 0 (DefaultInterval flags0) then DefaultCount flags0 - 1 else 0) /\
    dials tr = (if is_empty (bracketed "2001:db8::1") then 0 else DefaultCount flags0) /\
    closes tr = success_lines tr.
Proof.
  apply (Part000_main_lines flags0 world_mixed lookup_ok "2001:db8::1" ["192.0.2.1"] 10).
  - reflexivity.
  - reflexivity.
  - split; reflexivity.
  - vm_compute. lia.
Defined.
